(* ===== verification/_CoqProject ===== *)
-Q . S2P
Prelude.v
Text.v
Marks.v
Board.v
Flag.v
Output.v
Sweep.v
Depth.v
Flood.v
Invariant.v
Reset.v
Control.v
View.v
Chord.v
Game.v
Input.v
Interact.v
Logging.v
Effects.v
Recur.v
Console.v
Screen.v
Scenarios.v
