(* ===== verification/Prelude.v ===== *)
(** * MiniGames / mineSweeper.py: a verification development

    The program is one Python file, [src/mineSweeper.py]: a Minesweeper
    game made of three classes stacked by inheritance, three tables of
    constants and a program entry.

    - [MineModelBoard] (lines 49-288) is the game itself.  Its state is the
      grid [self.board] (a list of [h] rows of [w] one-character strings),
      the dimensions [self.w], [self.h], the configured number of mines
      [self.num_mine] and the counters [self.curr_mine] and
      [self.curr_eval].  Its operations are the constructor, the
      bounds-checked accessors [_get] and [_set], the neighbourhood queries
      [_get_neighbors], [_get_num_mines], [_get_num_flagged_blocks], the
      three player actions [left_click], [right_click], [both_click], the
      recursive flood fill [one_block_sweep], the dispatcher
      [operation_onestep], the text rendering [output] and the console loop
      [run_input].
    - [MineControlBoard] (lines 291-305) turns a pixel position and a mouse
      button into a call of [left_click] or [right_click].
    - [MineViewBoard] (lines 308-351) draws the grid with pygame and runs the
      event loop.
    - [game_cfg], [show_cfg], [color_cfg] (lines 10-46) hold the size of the
      board, the geometry of the canvas and the colours; [__main__] (lines
      355-360) builds the board of [game_cfg] and starts the event loop.
    - The methods report what they do through [logging], which line 5
      configures at the level [INFO].

    ** Files

    - [Prelude] (this file): what the components share.  The [result] type
      (a normal return, an uncaught Python exception, or the model's
      recursion budget exhausted) with its bind notation in [py_scope]; the
      loop combinator [for_until] that models
      [for b in l: if body(b): return True] with its proof rules; grids
      (lists of rows) with [grid_get], [grid_set], [grid_count] and their
      lemmas; the hint database [grid] and the tactics of the development.
    - [Text]: the Python operations on strings that the source calls
      ([str], [int], [split], [join], [*], [in], truthiness), and their
      lemmas: [int] undoes [str], [split] undoes a join by spaces, the
      position of a character in a join.
    - [Marks]: the cell marks of the class docstring as the inductive type
      [mark], their Python strings [mark_str], the mark lists the source
      tests membership in, and how the string tests of [Text] act on marks.
    - [Board]: the record [MineModelBoard] and the accessors [_get], [_set],
      [_get_neighbors], [_get_num_mines], [_get_num_flagged_blocks]; the
      well-formedness invariant [wf] and the counting functions the other
      files state their invariants with.
    - [Flag]: [right_click], the three-step ring on both tracks and the
      [curr_mine] counter.
    - [Output]: [output] and its local function [hidden]; the position of
      every cell in the text, and the theorem that the text determines
      what the player may see and nothing more.
    - [Sweep]: [one_block_sweep] and [left_click]; the step [open_step]
      that all state change of a sweep factors through, termination of
      the flood fill, the fact that it never reports a loss from a
      non-mine start, and the [curr_eval] counter.
    - [Depth]: the depth of the recursion of [one_block_sweep] on a strip
      of cells without mines: the budget that [Sweep] proves sufficient is
      also necessary.
    - [Flood]: the specification of the flood fill (the inductive [region]
      of a start cell and [flood_spec]) and the refinement theorem
      [sweep_flood]: the procedure opens exactly the region, each of its
      cells once.
    - [Invariant]: the invariant [inv] of the states of a game, its
      boolean check [inv_b], the cell count behind the win test, the
      [frame] that no operation changes, and the recursion [budget].
    - [Reset]: [__init__] and [_reset], with the list returned by
      [random.sample] as an argument; the state they build satisfies [inv]
      and has its mines on the cells of the drawn indices.
    - [Control]: [_axis_2_grid] and [click] of [MineControlBoard] with the
      constants of [show_cfg]; which cell a pixel belongs to.
    - [View]: [_draw_block], [_draw_board], [screen_run] of
      [MineViewBoard] and the program entry [main], with [game_cfg] and
      [color_cfg]; the squares drawn agree with the cells clicked and lie
      on the canvas, and the event loop keeps the invariant.
    - [Chord]: [both_click] and [psudo_click], with the [TypeError] the
      source raises on an out-of-board chord, and the safety of a chord
      whose marks are right.
    - [Game]: [operation_onestep], the transition relation [step] of a
      game, the games played from a constructed board ([game]); every
      operation preserves [inv] and leaves the mines where the constructor
      put them; the win test against the closed cells.
    - [Input]: [parse_input] and [run_input], [win], [loss], [reset]: the
      console game over the lines that [input] returns; it plays a game in
      the sense of [Game].
    - [Interact]: what the interactive models share: interaction trees
      over the event of a failure, [lift] from [result] into a tree, the
      loops [for_until_tree] and [for_each], the run of a tree in an
      environment as the inductive relation [runs] and as the function
      [exec], and the rules for runs along bind and loops.
    - [Logging]: the calls [logging.debug] and [logging.info] as the
      event [Log], the root logger as line 5 configures it ([emitted]),
      the class [Logger] of the environments that collect the lines, the
      judgement [implements] (a tree computes a result of the functional
      model and writes given lines) with its rules along bind and the
      loops, and the environment [with_stderr] that adds the standard
      error stream to any other.
    - [Effects]: the methods of [MineModelBoard] and [MineControlBoard]
      once more, as interaction trees with every logging call at its
      place; each implements the function of the same name and writes
      the lines its [_log] function lists.
    - [Recur]: [one_block_sweep] by general recursion ([rec] of the
      interaction-tree library), with no bound on the depth; it terminates
      and agrees with the bounded model.
    - [Console]: [run_input] as an interaction tree whose events are the
      calls of [print], [input] and [logging], over the operations of
      [Effects]; its runs against a scripted terminal, and what it
      returns in every environment.
    - [Screen]: [MineViewBoard] and the program entry as interaction trees
      whose events are the calls of pygame, [time.sleep], [random.sample]
      and [logging]; the state of the view with its attribute [screen],
      [create_screen], the global [my_font]; the calls of a scripted
      session frame by frame.
    - [Scenarios]: the definitions evaluated on concrete games of a board
      of three by three cells (constructor, cascade, loss, flag, chord,
      console, canvas, and the two interactive programs against a
      script, with the lines they log).

    ** How the model corresponds to the code

    Coordinates and counters are Python integers, modelled as [Z]; the
    accessors compare them with the bounds exactly as the source does and
    only then index the rows; [//] and [%] are [Z.div] and [Z.modulo],
    which round as Python does.  A cell is a [mark]; [mark_str] gives the
    string the source stores, and every test the source performs on the
    string (membership in a list of strings, [in "12345678"], truthiness)
    is modelled by the corresponding test on [mark_str] or, for list
    membership, on the injective image.  A method that mutates [self] is a
    function from a state to a result and a state.  A method that can raise
    returns [Raise e]; nothing in the source catches exceptions, so the
    state at the raise is not observable and is not kept.  The methods
    that talk to the outside take what they read as an argument and return
    what they write: [_reset] the list that [random.sample] returned,
    [run_input] the lines of [input] and the lines printed, [screen_run]
    the events of each frame and the pictures drawn.

    The functional model leaves the calls of [logging] out.  The second
    model keeps every call to the outside where the source has it
    ([Effects], [Console], [Screen]): an interaction tree in which
    [print], [input], [random.sample], every call of pygame and every
    call of [logging] is an event, [while True] is [ITree.iter], and an
    exception that nobody catches is the event [Throw].  The state is
    passed through these trees as in the first model.  An environment
    ([console_answer], [gui_answer], with the standard error stream
    beside them: [terminal_answer], [session_answer]) answers the events
    from a script and records the calls and the lines logged; [runs]
    relates a tree, the state of the environment before and after, and
    the way the run ends: the program returned, failed, or waits for an
    answer the script does not have.  The operations are proved against
    the interface [Logger], which the environments implement; the
    theorems of [Effects], [Console] and [Screen] connect the two
    models.

    ** What the theorems show

    - Flood fill ([Sweep], [Flood]): [one_block_sweep] terminates, opens
      exactly the region of the start cell and counts what it opens.
    - Operations ([Flag], [Chord], [Sweep]): what each click does on every
      branch, when it reports a loss and when it raises.
    - Games ([Invariant], [Reset], [Game]): the constructor establishes
      [inv], every operation preserves it, the mines never move, under
      [inv] the win test is the absence of closed cells without a mine,
      and from every state of a game some sequence of operations reaches
      a state that passes the win test.
    - Presentation ([Output], [Control], [View], [Input]): the text
      shows the player's view and only that; a pixel of a drawn square
      clicks its cell and no other; the squares fit the canvas; the
      console and the event loop play games of [Game] and never exhaust
      the budget.
    - Diagnostics ([Logging], [Effects]): every operation with its
      logging calls computes what the functional model computes and
      writes the lines its [_log] function lists; the lines of [_get],
      [_set] and of an unknown operation are never written; beside the
      board [left_click] logs, [right_click] is silent and [both_click]
      raises.
    - Interaction ([Recur], [Console], [Screen]): the flood fill
      terminates without any bound on its recursion; the interactive
      programs, run against a script, make the calls and reach the states
      that the functional models describe, in the order of the source,
      and they also show what was printed or drawn before an exception
      and what was logged;
      the console program ends on every finite script; every rectangle
      the program asks pygame to draw lies on the surface that
      [set_mode] created; [_draw_block] fails without [create_screen] or
      without the global [my_font]; [screen_run] fails before its
      first call when [fps] is not positive.

    ** Fuel

    [one_block_sweep] recurses into the neighbours of a cell it has just
    marked ["B"].  The model takes a [fuel : nat] that bounds the depth of
    nested calls (not the number of calls): [one_block_sweep 0] is
    [OutOfFuel], and a call at depth [S n] makes its recursive calls at
    depth [n].  Every nested call happens after one more unrevealed cell
    was marked, so the depth never exceeds the number of unrevealed cells
    plus one; [Sweep] proves that any fuel above the number of unrevealed
    cells gives [Ok], and that the result does not depend on the fuel;
    [Depth] shows a board on which no smaller fuel is enough.
    In a state of a game the unrevealed cells are at most the cells
    without a mine ([budget]); on the board of [game_cfg] that is 800, so
    a depth of 801 is never exceeded, below the 1000 frames CPython allows
    by default.  [screen_run] and [run_input] recurse on the list of
    frames or lines they are given and need no fuel of their own.
    [Recur] gives the procedure without fuel, as a tree that could
    diverge, and proves that it returns the result of the bounded model:
    the fuel is a device of the model and not an assumption on the
    program.  The trees of [Effects], [Console] and [Screen] take the
    same [fuel] for the sweep, and raise the failure [Exhausted] where
    the function returns [OutOfFuel]; [exec] has a bound of its own on
    the number of steps of a run, used only to evaluate examples, and
    [runs] has none.

    ** Not modelled

    What pygame does with the calls it receives (the pixels of the
    window, the shape of the glyphs, the pacing of [time.sleep]) is
    outside the program: the model has the calls with their arguments and
    describes the objects pygame hands back (font, display, rendered
    text) by the arguments they were made from.  Of [logging] the model
    has the root logger as the one call of [basicConfig] sets it up
    (threshold [INFO], the default format [LEVEL:root:message], the
    standard error stream as a list of lines); handlers, other formats
    and the interleaving of the stream with the standard output on a
    terminal are not modelled.  The imports of lines 1-4 and 6-7 bind
    names and have no model.  The interpreter's recursion limit is not
    modelled.  [self.board[y][x]] is modelled by a total lookup: the
    [IndexError] of a board whose rows do not have the announced shape
    has no model, because [_reset] builds the shape, no method changes
    it, and every state of a game has it ([wf], a part of [inv]).
    [random.sample] is not modelled as a random source: the sampled list
    is an argument of [_reset] or the answer of the environment, and the
    theorems assume of it what the library documents ([is_sample]).
    Strings are sequences of the 256 values of [ascii]; [int] is modelled
    on signs, digits and underscores. *)

From stdpp Require Import base tactics option list numbers.
From Stdlib Require Import ZArith Lia.

(** ** Results of Python calls *)

Declare Scope py_scope.
Delimit Scope py_scope with py.

(** The exceptions the modelled code can raise. *)
Inductive py_exn : Type :=
| TypeError
| ValueError
| EOFError
| SystemExit
| AttributeError
| NameError
| ZeroDivisionError.

#[export] Instance py_exn_eq_dec : EqDecision py_exn.
Proof. solve_decision. Defined.

(** The outcome of a modelled call: a normal return, an exception that
    nobody catches, or the recursion budget of the model exhausted. *)
Inductive result (A : Type) : Type :=
| Ok (a : A)
| Raise (e : py_exn)
| OutOfFuel.

Arguments Ok {A} a.
Arguments Raise {A} e.
Arguments OutOfFuel {A}.

#[export] Instance result_eq_dec {A} `{EqDecision A} : EqDecision (result A).
Proof. solve_decision. Defined.

Definition bind {A B : Type} (r : result A) (k : A -> result B) : result B :=
  match r with
  | Ok a => k a
  | Raise e => Raise e
  | OutOfFuel => OutOfFuel
  end.

Notation "'let*' x := c1 'in' c2" := (bind c1 (fun x => c2))
  (at level 10, x pattern, c1 at level 100, c2 at level 200) : py_scope.

Definition is_Ok {A : Type} (r : result A) : Prop :=
  match r with Ok _ => True | _ => False end.

(** [for b in l: is_lose = body(b); if is_lose: return True], falling off
    the end of the loop with Python's [None] (falsy).  The state is threaded
    through the iterations; the list is the snapshot the [for] statement
    evaluated once. *)
Fixpoint for_until {S B : Type} (body : B -> S -> result (bool * S))
    (l : list B) (s : S) : result (bool * S) :=
  match l with
  | [] => Ok (false, s)
  | b :: l' =>
      match body b s with
      | Ok (true, s') => Ok (true, s')
      | Ok (false, s') => for_until body l' s'
      | Raise e => Raise e
      | OutOfFuel => OutOfFuel
      end
  end.

(** *** Rules for [for_until] *)

Section for_until.
Context {S B : Type} (body : B -> S -> result (bool * S)).

(** Total correctness: if every iteration returns under the invariant, so
    does the loop. *)
Lemma for_until_total (I : S -> Prop) (l : list B) (s : S) :
  I s ->
  (forall b s, b ∈ l -> I s -> exists r s', body b s = Ok (r, s') /\ I s') ->
  exists r s', for_until body l s = Ok (r, s') /\ I s'.
Proof.
  revert s; induction l as [|b l IH]; intros s Hs Hbody; simpl; [eauto|].
  destruct (Hbody b s) as ([] & s' & -> & Hs'); [by left|done|eauto|].
  apply IH; [done|]. intros b' s'' Hin. apply Hbody. by right.
Qed.

Lemma for_until_returns (I : S -> Prop) (l : list B) (s : S) :
  I s ->
  (forall b s, b ∈ l -> I s -> exists r s', body b s = Ok (r, s') /\ I s') ->
  exists r s', for_until body l s = Ok (r, s').
Proof.
  intros Hs Hbody. destruct (for_until_total I l s Hs Hbody) as (r & s' & E & _).
  eauto.
Qed.

(** Partial correctness: an invariant of the iterations is an invariant of
    the loop, and a property of every iteration's answer (that holds of
    [false]) is a property of the loop's answer. *)
Lemma for_until_inv (I : S -> Prop) (P : bool -> Prop) (l : list B) (s : S) r s' :
  I s -> P false ->
  (forall b s r s', b ∈ l -> I s -> body b s = Ok (r, s') -> I s' /\ P r) ->
  for_until body l s = Ok (r, s') -> I s' /\ P r.
Proof.
  revert s; induction l as [|b l IH]; intros s Hs HP Hbody; simpl.
  { by intros [= <- <-]. }
  destruct (body b s) as [[[] s1]| |] eqn:E; try done.
  - intros [= <- <-]. eapply Hbody; [by left|done..].
  - apply IH; [|done|]. { eapply Hbody; [by left|done..]. }
    intros b' s2 r' s3 Hin. apply Hbody. by right.
Qed.

(** An invariant indexed by the elements already visited: a loop that was
    not cut short has visited them all. *)
Lemma for_until_all_from (I : list B -> S -> Prop) (l : list B) :
  (forall pre b s s', pre ++ [b] `prefix_of` l -> I pre s ->
     body b s = Ok (false, s') -> I (pre ++ [b]) s') ->
  forall post pre s s', pre ++ post = l -> I pre s ->
    for_until body post s = Ok (false, s') -> I l s'.
Proof.
  intros Hstep. induction post as [|b post IH]; intros pre s s' Hl Hs; simpl.
  - intros [= <-]. rewrite app_nil_r in Hl. by subst.
  - destruct (body b s) as [[[] s1]| |] eqn:E; try done. intros Hf.
    apply (IH (pre ++ [b]) s1 s'); [by rewrite <- app_assoc| |done].
    apply Hstep with s; [|done..]. exists post. by rewrite <- app_assoc, <- Hl.
Qed.

Lemma for_until_all (I : list B -> S -> Prop) (l : list B) (s s' : S) :
  I [] s ->
  (forall pre b s s', pre ++ [b] `prefix_of` l -> I pre s ->
     body b s = Ok (false, s') -> I (pre ++ [b]) s') ->
  for_until body l s = Ok (false, s') -> I l s'.
Proof. intros H0 Hstep. by apply (for_until_all_from I l Hstep l []). Qed.

(** A loop raises only if an iteration does. *)
Lemma for_until_no_raise (l : list B) (s : S) e :
  (forall b s, b ∈ l -> body b s <> Raise e) -> for_until body l s <> Raise e.
Proof.
  revert s; induction l as [|b l IH]; intros s Hb; simpl; [done|].
  destruct (body b s) as [[[] s1]| |] eqn:E; try done.
  - apply IH. intros b' s2 Hin. apply Hb. by right.
  - intros [= ->]. by apply (Hb b s (list_elem_of_here _ _)).
Qed.

(** Two bodies that agree where the first returns give the same loop. *)
Lemma for_until_ext (body' : B -> S -> result (bool * S)) (l : list B) s r :
  (forall b s r, b ∈ l -> body b s = Ok r -> body' b s = Ok r) ->
  for_until body l s = Ok r -> for_until body' l s = Ok r.
Proof.
  revert s; induction l as [|b l IH]; intros s Hext; simpl; [done|].
  destruct (body b s) as [[[] s1]| |] eqn:E; try done;
    rewrite (Hext _ _ _ (list_elem_of_here _ _) E); [done|].
  apply IH. intros b' s2 r' Hin. apply Hext. by right.
Qed.

End for_until.

(** [d.get(k, default)] on a dictionary written as the list of its items. *)
Fixpoint dict_get {K V : Type} `{EqDecision K} (d : list (K * V)) (k : K)
    (default : V) : V :=
  match d with
  | [] => default
  | (k', v) :: d' => if decide (k = k') then v else dict_get d' k default
  end.

Definition b2n (b : bool) : nat := if b then 1 else 0.

Lemma elem_of_option_list {A : Type} (x : A) (mx : option A) :
  x ∈ option_list mx <-> mx = Some x.
Proof.
  destruct mx as [a|]; simpl; [|by rewrite elem_of_nil].
  rewrite list_elem_of_singleton. split; congruence.
Qed.

(** Nested loops, and a loop whose body produces at most one element. *)
Lemma list_bind_assoc {A B C : Type} (g : A -> list B) (k : B -> list C)
    (l : list A) :
  (l ≫= g) ≫= k = l ≫= (fun a => g a ≫= k).
Proof.
  induction l as [|a l IH]; [done|]. by rewrite !bind_cons, bind_app, IH.
Qed.

Lemma option_list_bind {A B : Type} (k : A -> list B) (o : option A) :
  option_list o ≫= k = from_option k [] o.
Proof. destruct o; simpl; [by rewrite app_nil_r|done]. Qed.

(** Nested loops that produce the same number of elements for every value
    of the outer variable. *)
Lemma bind_length_const {A B : Type} (f : A -> list B) (l : list A) (k : nat) :
  (forall a, a ∈ l -> length (f a) = k) -> length (l ≫= f) = length l * k.
Proof.
  induction l as [|a l IH]; intros Hf; [done|].
  rewrite bind_cons, length_app, Hf, IH; simpl; [lia| |by left].
  intros b Hb. apply Hf. by right.
Qed.

(** A loop that appends one element per iteration builds the image of the
    list it runs over. *)
Lemma foldl_snoc_fmap {A B : Type} (f : A -> B) (l : list A) (acc : list B) :
  foldl (fun res c => res ++ [f c]) acc l = acc ++ (f <$> l).
Proof.
  revert acc. induction l as [|a l IH]; intros acc; simpl; [by rewrite app_nil_r|].
  by rewrite IH, <- (assoc_L (++)).
Qed.

(** ** Sums and point updates of lists *)

Section sums.
Context {A : Type}.

Lemma sum_list_with_insert (f : A -> nat) (l : list A) i a v :
  l !! i = Some a ->
  sum_list_with f (<[i:=v]> l) + f a = sum_list_with f l + f v.
Proof.
  revert i; induction l as [|b l IH]; intros [|i] Hi; simplify_eq/=; [lia|].
  specialize (IH _ Hi). lia.
Qed.

Lemma sum_list_with_le (f : A -> nat) (l : list A) k :
  Forall (fun a => f a <= k) l -> sum_list_with f l <= length l * k.
Proof. induction 1; simpl; lia. Qed.

Lemma sum_list_with_ext_add (f f1 f2 : A -> nat) (l : list A) :
  (forall a, f a = f1 a + f2 a) ->
  sum_list_with f l = sum_list_with f1 l + sum_list_with f2 l.
Proof. intros E; induction l as [|a l IH]; simpl; [done|]. rewrite E; lia. Qed.

Lemma alter_lookup_insert (f : A -> A) (l : list A) i a :
  l !! i = Some a -> alter f i l = <[i:=f a]> l.
Proof.
  revert i; induction l as [|b l IH]; intros [|i] Hi; simplify_eq/=; [done|].
  f_equal. by apply IH.
Qed.

End sums.

(** ** Grids: lists of rows *)

Section grid.
Context {A : Type}.
Implicit Types (g : list (list A)) (r : list A) (p : A -> bool).

(** [g[y][x]], where both indices are already known to be non-negative. *)
Definition grid_get g (x y : nat) : option A :=
  match g !! y with
  | Some r => r !! x
  | None => None
  end.

(** [g[y][x] = v] *)
Definition grid_set g (x y : nat) (v : A) : list (list A) :=
  alter (fun r => <[x:=v]> r) y g.

(** [ht] rows of [wd] cells each. *)
Definition grid_wf (wd ht : nat) g : Prop :=
  length g = ht /\ Forall (fun r => length r = wd) g.

Definition row_count p r : nat := sum_list_with (fun a => b2n (p a)) r.
Definition grid_count p g : nat := sum_list_with (row_count p) g.

(** *** Lookup after update *)

Lemma grid_get_inv g x y a :
  grid_get g x y = Some a -> exists r, g !! y = Some r /\ r !! x = Some a.
Proof. unfold grid_get. destruct (g !! y) as [r|]; [eauto|done]. Qed.

Lemma grid_get_set_eq g x y v :
  is_Some (grid_get g x y) -> grid_get (grid_set g x y v) x y = Some v.
Proof.
  intros [a Hg]. destruct (grid_get_inv _ _ _ _ Hg) as (r & Hr & Ha).
  unfold grid_get, grid_set. rewrite list_lookup_alter_eq, Hr; simpl.
  apply list_lookup_insert_eq. by eapply lookup_lt_Some.
Qed.

Lemma grid_get_set_ne g x y x' y' v :
  (x, y) <> (x', y') -> grid_get (grid_set g x y v) x' y' = grid_get g x' y'.
Proof.
  intros Hne. unfold grid_get, grid_set.
  destruct (decide (y = y')) as [<-|Hy].
  - rewrite list_lookup_alter_eq. destruct (g !! y); simpl; [|done].
    apply list_lookup_insert_ne. congruence.
  - by rewrite list_lookup_alter_ne.
Qed.

Lemma grid_set_set g x y v v' :
  grid_set (grid_set g x y v) x y v' = grid_set g x y v'.
Proof.
  unfold grid_set. rewrite list_alter_alter_eq. apply list_alter_ext; [|done].
  intros r _; simpl. apply list_insert_insert_eq.
Qed.

Lemma grid_set_id g x y a :
  grid_get g x y = Some a -> grid_set g x y a = g.
Proof.
  intros Hg. destruct (grid_get_inv _ _ _ _ Hg) as (r & Hr & Ha).
  unfold grid_set. rewrite (alter_lookup_insert _ _ _ _ Hr).
  rewrite (list_insert_id r) by done. by apply list_insert_id.
Qed.

Lemma grid_set_None g x y v :
  grid_get g x y = None -> grid_set g x y v = g.
Proof.
  unfold grid_get, grid_set. intros H. apply list_eq; intros j.
  destruct (decide (y = j)) as [<-|]; [|by rewrite list_lookup_alter_ne].
  rewrite list_lookup_alter_eq. destruct (g !! y) as [r|]; simpl; [|done].
  f_equal. apply list_insert_ge. by apply lookup_ge_None.
Qed.

(** *** Shape *)

Lemma grid_set_wf wd ht g x y v :
  grid_wf wd ht g -> grid_wf wd ht (grid_set g x y v).
Proof.
  intros [Hl Hr]. split; unfold grid_set; [by rewrite length_alter|].
  apply Forall_alter; [done|]. intros r _ Hlen.
  by rewrite length_insert.
Qed.

Lemma grid_wf_get wd ht g x y :
  grid_wf wd ht g -> x < wd -> y < ht -> is_Some (grid_get g x y).
Proof.
  intros [Hl Hr] Hx Hy. unfold grid_get.
  destruct (lookup_lt_is_Some_2 g y) as [r E]; [lia|]. rewrite E.
  apply lookup_lt_is_Some_2. rewrite Forall_lookup in Hr.
  by rewrite (Hr _ _ E).
Qed.

Lemma grid_get_wf_lt wd ht g x y a :
  grid_wf wd ht g -> grid_get g x y = Some a -> x < wd /\ y < ht.
Proof.
  intros [Hl Hr] Hg. destruct (grid_get_inv _ _ _ _ Hg) as (r & E & Ha).
  rewrite Forall_lookup in Hr.
  apply lookup_lt_Some in Ha. rewrite (Hr _ _ E) in Ha.
  apply lookup_lt_Some in E. lia.
Qed.

(** *** Counting cells *)

Lemma row_count_le p r : row_count p r <= length r.
Proof.
  unfold row_count. etrans; [apply (sum_list_with_le _ _ 1)|lia].
  apply Forall_forall. intros a _. destruct (p a); simpl; lia.
Qed.

Lemma grid_count_le wd ht p g :
  grid_wf wd ht g -> grid_count p g <= ht * wd.
Proof.
  intros [<- Hr]. unfold grid_count. apply sum_list_with_le.
  eapply Forall_impl; [|exact Hr]. intros r <-; simpl. apply row_count_le.
Qed.

Lemma grid_count_set p g x y a v :
  grid_get g x y = Some a ->
  grid_count p (grid_set g x y v) + b2n (p a) = grid_count p g + b2n (p v).
Proof.
  intros Hg. destruct (grid_get_inv _ _ _ _ Hg) as (r & Hr & Ha).
  unfold grid_count, grid_set. rewrite (alter_lookup_insert _ _ _ _ Hr).
  pose proof (sum_list_with_insert (row_count p) g y r (<[x:=v]> r) Hr).
  pose proof (sum_list_with_insert (fun a => b2n (p a)) r x a v Ha).
  unfold row_count in *. lia.
Qed.

Lemma grid_count_mono p q g :
  (forall a, p a = true -> q a = true) -> grid_count p g <= grid_count q g.
Proof.
  intros Hpq. unfold grid_count, row_count.
  induction g as [|r g IH]; simpl; [done|].
  apply Nat.add_le_mono; [|done]. clear IH.
  induction r as [|a r IH]; simpl; [done|].
  apply Nat.add_le_mono; [|done].
  destruct (p a) eqn:E; [by rewrite (Hpq _ E)|simpl; lia].
Qed.

(** Two predicates that split a third one split its count. *)
Lemma grid_count_split p p1 p2 g :
  (forall a, b2n (p a) = b2n (p1 a) + b2n (p2 a)) ->
  grid_count p g = grid_count p1 g + grid_count p2 g.
Proof.
  intros E. unfold grid_count. apply sum_list_with_ext_add. intros r.
  unfold row_count. by apply sum_list_with_ext_add.
Qed.

Lemma row_count_true r : row_count (fun _ => true) r = length r.
Proof. unfold row_count. induction r as [|a r IH]; simpl; [done|]. f_equal; exact IH. Qed.

Lemma grid_count_true wd ht g :
  grid_wf wd ht g -> grid_count (fun _ => true) g = ht * wd.
Proof.
  intros [<- Hr]. unfold grid_count.
  induction Hr as [|r g Hlen _ IH]; simpl; [done|].
  rewrite IH, row_count_true. lia.
Qed.

(** A property of every cell, and two grids that agree under a view of
    their cells. *)
Lemma grid_Forall (P : A -> Prop) g :
  (forall x y a, grid_get g x y = Some a -> P a) -> Forall (Forall P) g.
Proof.
  intros HP. apply Forall_lookup. intros y r Hr.
  apply Forall_lookup. intros x a Ha. apply (HP x y). unfold grid_get.
  by rewrite Hr.
Qed.

Lemma grid_fmap_ext {B} (f : A -> B) wd ht (g g' : list (list A)) :
  grid_wf wd ht g -> grid_wf wd ht g' ->
  (forall x y : nat, f <$> grid_get g x y = f <$> grid_get g' x y) ->
  fmap (M:=list) f <$> g = fmap (M:=list) f <$> g'.
Proof.
  intros [Hl Hr] [Hl' Hr'] Hext. apply list_eq_same_length with ht;
    [by rewrite length_fmap..|].
  intros y r1 r2 Hy. rewrite !list_lookup_fmap.
  destruct (g !! y) as [r|] eqn:E, (g' !! y) as [r'|] eqn:E'; simpl; try done.
  intros [= <-] [= <-]. rewrite Forall_lookup in Hr, Hr'.
  apply list_eq_same_length with wd; [rewrite length_fmap; eauto..|].
  intros x b1 b2 Hx. specialize (Hext x y). unfold grid_get in Hext.
  rewrite E, E' in Hext. rewrite !list_lookup_fmap. simpl in Hext. congruence.
Qed.

(** A grid filled with one value. *)
Lemma grid_wf_replicate wd ht (a : A) :
  grid_wf wd ht (replicate ht (replicate wd a)).
Proof.
  split; [by rewrite length_replicate|].
  apply Forall_replicate. by rewrite length_replicate.
Qed.

Lemma grid_get_replicate wd ht (a : A) x y :
  x < wd -> y < ht -> grid_get (replicate ht (replicate wd a)) x y = Some a.
Proof.
  intros Hx Hy. unfold grid_get. rewrite lookup_replicate_2 by done.
  by rewrite lookup_replicate_2.
Qed.

Lemma grid_count_replicate p wd ht (a : A) :
  p a = false -> grid_count p (replicate ht (replicate wd a)) = 0.
Proof.
  intros Hp. unfold grid_count.
  assert (row_count p (replicate wd a) = 0) as Hrow.
  { unfold row_count. induction wd as [|wd IH]; simpl; [done|]. by rewrite Hp, IH. }
  induction ht as [|ht IH]; simpl; [done|]. by rewrite Hrow, IH.
Qed.

Lemma grid_count_pos p g x y a :
  grid_get g x y = Some a -> p a = true -> 0 < grid_count p g.
Proof.
  intros Hg Hp. destruct (grid_get_inv _ _ _ _ Hg) as (r & Hr & Ha).
  unfold grid_count.
  apply list_elem_of_lookup_2 in Hr, Ha.
  pose proof (sum_list_with_in _ (row_count p) _ Hr).
  pose proof (sum_list_with_in _ (fun a => b2n (p a)) _ Ha) as H2.
  simpl in H2. rewrite Hp in H2. unfold row_count in *. simpl in *. lia.
Qed.

(** A positive count has a cell that is counted. *)
Lemma grid_count_exists p g :
  0 < grid_count p g -> exists x y a, grid_get g x y = Some a /\ p a = true.
Proof.
  unfold grid_count, grid_get. induction g as [|r g IH]; simpl; [lia|]. intros Hpos.
  destruct (decide (0 < row_count p r)) as [Hr|Hr].
  - assert (exists x a, r !! x = Some a /\ p a = true) as (x & a & Hx & Ha).
    { clear -Hr. unfold row_count in Hr. induction r as [|a r IHr]; simpl in *; [lia|].
      destruct (p a) eqn:Ha; [by exists 0, a|].
      destruct IHr as (x & b & ? & ?); [simpl in Hr; lia|]. by exists (S x), b. }
    by exists x, 0, a.
  - destruct IH as (x & y & a & Hg & Ha); [lia|]. by exists x, (S y), a.
Qed.
End grid.

(** Lookup in the image of a grid. *)
Lemma grid_get_fmap {A B} (f : A -> B) (g : list (list A)) (x y : nat) :
  grid_get (fmap (M:=list) f <$> g) x y = f <$> grid_get g x y.
Proof.
  unfold grid_get. rewrite list_lookup_fmap.
  destruct (g !! y); simpl; [by rewrite list_lookup_fmap|done].
Qed.

(** ** Hints and tactics *)

Create HintDb grid discriminated.
Create Rewrite HintDb grid.
#[export] Hint Resolve grid_set_wf grid_wf_get : grid.
#[export] Hint Rewrite @grid_get_set_eq @grid_get_set_ne using (done || congruence) : grid.

(** Case analysis on the boolean and decision tests of a definition. *)
Ltac case_tests :=
  repeat first
    [ progress simplify_eq/=
    | case_decide
    | case_bool_decide
    | case_match ].
