(* ===== verification/Text.v ===== *)
(** * Text: the Python string operations the program uses

    The source works on strings throughout: a cell is a one-character
    string, [one_block_sweep] writes [str(n)], [both_click] tests
    [in "12345678"] and calls [int], [output] builds the picture of the
    board with [str.join] and [str * int], [parse_input] cuts a line with
    [str.split] and reads its coordinates with [int].  This file models
    these operations on [string] and proves what the components need of
    them.  Characters are the 256 values of [ascii], read as code points;
    text outside that range is not modelled. *)

From stdpp Require Import base tactics option list numbers strings.
From Stdlib Require Import ZArith Lia Ascii DecimalString DecimalNat.
From S2P Require Import Prelude.

(** ** Operations *)

(** The characters of a string. *)
Definition chars (s : string) : list Ascii.ascii := String.list_ascii_of_string s.

(** The line feed. *)
Definition nl : string := String "010"%char "".

(** [str(n)] for a non-negative integer. *)
Definition py_str (n : nat) : string :=
  NilEmpty.string_of_uint (Nat.to_uint n).

(** [str(z)] for an integer, as [%s] formats it. *)
Definition py_str_z (z : Z) : string :=
  match z with
  | Zneg p => String "-"%char (py_str (Pos.to_nat p))
  | _ => py_str (Z.to_nat z)
  end.

(** [if s:] on a string: the empty string is the only falsy one. *)
Definition py_truthy (s : string) : bool := negb (String.eqb s "").

(** [sub in s] on strings: [sub] occurs in [s] as a contiguous substring. *)
Fixpoint py_str_in (sub s : string) : bool :=
  String.prefix sub s ||
  match s with
  | EmptyString => false
  | String _ s' => py_str_in sub s'
  end.

(** [s * n]: [n] copies of [s], none when [n] is not positive. *)
Fixpoint str_repeat (s : string) (n : nat) : string :=
  match n with
  | O => ""
  | S n' => s +:+ str_repeat s n'
  end.

Definition py_mul (s : string) (n : Z) : string := str_repeat s (Z.to_nat n).

(** [sep.join(l)]. *)
Definition py_join (sep : string) (l : list string) : string :=
  String.concat sep l.

(** [c.isspace()] on the code points below 256. *)
Definition py_isspace (c : Ascii.ascii) : bool :=
  let n := Ascii.nat_of_ascii c in
  ((9 <=? n) && (n <=? 13) || (28 <=? n) && (n <=? 32) || (n =? 133) || (n =? 160))%nat.

(** The word collected so far, if any. *)
Definition flush (cur : string) : list string :=
  match cur with
  | EmptyString => []
  | _ => [cur]
  end.

(** [s.split()]: the maximal runs of characters that are not white space. *)
Fixpoint py_split_go (cur : string) (s : string) : list string :=
  match s with
  | EmptyString => flush cur
  | String c s' =>
      if py_isspace c then flush cur ++ py_split_go "" s'
      else py_split_go (cur +:+ String c "") s'
  end.

Definition py_split (s : string) : list string := py_split_go "" s.

(** The value of a decimal digit. *)
Definition digit_val (c : Ascii.ascii) : option Z :=
  let n := Ascii.nat_of_ascii c in
  if ((48 <=? n) && (n <=? 57))%nat then Some (Z.of_nat n - 48)%Z else None.

(** The digits of an integer literal: decimal digits, with single
    underscores allowed between two digits. *)
Fixpoint digits_go (acc : Z) (after_digit : bool) (s : string) : option Z :=
  match s with
  | EmptyString => if after_digit then Some acc else None
  | String c s' =>
      match digit_val c with
      | Some d => digits_go (10 * acc + d)%Z true s'
      | None =>
          if Ascii.eqb c "_"%char && after_digit then digits_go acc false s'
          else None
      end
  end.

(** [int(s)] on a string without white space: an optional sign and the
    digits; a [ValueError] otherwise.  (Python's [int] also strips white
    space around the literal; the strings the program passes have none.) *)
Definition py_int (s : string) : result Z :=
  let body (sign : Z) (s : string) : result Z :=
    match digits_go 0 false s with
    | Some n => Ok (sign * n)%Z
    | None => Raise ValueError
    end in
  match s with
  | String "+"%char s' => body 1%Z s'
  | String "-"%char s' => body (-1)%Z s'
  | _ => body 1%Z s
  end.

(** ** [str] and [int] *)

Section numbers.
Implicit Types (s : string) (c : Ascii.ascii) (n : nat).

Lemma to_uint_nonnil n : Nat.to_uint n <> Decimal.Nil.
Proof.
  intros E. pose proof (Unsigned.of_to n) as H. rewrite E in H.
  simpl in H. subst n. discriminate.
Qed.

Lemma py_str_nonempty n : py_str n <> "".
Proof.
  unfold py_str. pose proof (to_uint_nonnil n).
  destruct (Nat.to_uint n); simpl; congruence.
Qed.

Lemma py_str_inj n n' : py_str n = py_str n' -> n = n'.
Proof.
  unfold py_str. intros E. apply Unsigned.to_uint_inj.
  apply (f_equal NilEmpty.uint_of_string) in E.
  rewrite !NilEmpty.usu in E. congruence.
Qed.

(** The first character of [str(n)] is a decimal digit. *)
Lemma py_str_head n :
  exists c s, py_str n = String c s /\ is_Some (digit_val c).
Proof.
  unfold py_str. pose proof (to_uint_nonnil n).
  destruct (Nat.to_uint n); simpl; [done|..]; eauto.
Qed.

(** Reading the digits that [str] wrote. *)
Lemma digits_go_uint d (acc : nat) b :
  d <> Decimal.Nil \/ b = true ->
  digits_go (Z.of_nat acc) b (NilEmpty.string_of_uint d) =
    Some (Z.of_nat (Nat.of_uint_acc d acc)).
Proof.
  revert acc b. induction d as [|d IH|d IH|d IH|d IH|d IH|d IH|d IH|d IH|d IH|d IH];
    intros acc b Hd; [by destruct Hd as [? | ->]|..];
    cbn [NilEmpty.string_of_uint digits_go Nat.of_uint_acc];
    (etrans; [|apply IH; by right]); f_equal;
    rewrite Nat.tail_mul_spec;
    match goal with
    | |- context [nat_of_ascii ?c] =>
        let v := eval vm_compute in (nat_of_ascii c) in
        change (nat_of_ascii c) with v
    end; lia.
Qed.

(** [int] returns or raises a [ValueError]. *)
Lemma py_int_cases s : (exists v : Z, py_int s = Ok v) \/ py_int s = Raise ValueError.
Proof.
  unfold py_int. repeat case_match; eauto.
Qed.

(** [int] undoes [str]. *)
Lemma py_int_str n : py_int (py_str n) = Ok (Z.of_nat n).
Proof.
  assert (digits_go 0 false (py_str n) = Some (Z.of_nat n)) as H.
  { rewrite <- (Unsigned.of_to n) at 2.
    apply (digits_go_uint _ 0). left. apply to_uint_nonnil. }
  unfold py_int. destruct (py_str_head n) as (c & s & E & Hc). rewrite E in *.
  assert (c <> "+"%char /\ c <> "-"%char) as [Hp Hm] by (split; by intros ->).
  destruct c as [[] [] [] [] [] [] [] []]; try done; rewrite H; f_equal; lia.
Qed.
End numbers.

(** ** Characters, lengths and joins *)

Section chars.
Implicit Types (s sep : string) (l : list string) (c : Ascii.ascii).

Lemma chars_app s1 s2 : chars (s1 +:+ s2) = chars s1 ++ chars s2.
Proof. induction s1 as [|c s1 IH]; simpl; [done|]. by rewrite <- IH. Qed.

Lemma chars_length s : length (chars s) = String.length s.
Proof. induction s as [|c s IH]; simpl; [done|]. by rewrite <- IH. Qed.

Lemma chars_inj s1 s2 : chars s1 = chars s2 -> s1 = s2.
Proof.
  intros E. apply (f_equal String.string_of_list_ascii) in E.
  unfold chars in E. by rewrite !String.string_of_list_ascii_of_string in E.
Qed.

Lemma str_app_length s1 s2 :
  String.length (s1 +:+ s2) = (String.length s1 + String.length s2)%nat.
Proof. by rewrite <- !chars_length, chars_app, length_app. Qed.

Lemma str_repeat_length s n :
  String.length (str_repeat s n) = (n * String.length s)%nat.
Proof.
  induction n as [|n IH]; simpl; [done|]. by rewrite str_app_length, IH.
Qed.

Lemma py_join_cons sep s l :
  l <> [] -> py_join sep (s :: l) = s +:+ sep +:+ py_join sep l.
Proof. by destruct l. Qed.

(** The length of a join of strings of the same length. *)
Lemma py_join_length sep l n :
  Forall (fun s => String.length s = n) l -> l <> [] ->
  (String.length (py_join sep l) + String.length sep =
   length l * (n + String.length sep))%nat.
Proof.
  induction 1 as [|s l Hs Hl IH]; [done|]. intros _.
  destruct (decide (l = [])) as [->|Hne]; [simpl; lia|].
  specialize (IH Hne).
  rewrite py_join_cons, !str_app_length, Hs by done. simpl length. lia.
Qed.

(** The characters of a join of strings of the same length: the
    character [k] of the string [i] is at a position that depends only on
    [i], [k] and the two lengths. *)
Lemma py_join_lookup sep l n i k s :
  Forall (fun s => String.length s = n) l ->
  l !! i = Some s -> (k < n)%nat ->
  chars (py_join sep l) !! (i * (n + String.length sep) + k)%nat = chars s !! k.
Proof.
  intros Hall. revert i. induction Hall as [|s0 l Hs Hl IH]; intros i Hi Hk; [done|].
  assert (chars (py_join sep (s0 :: l)) =
          chars s0 ++ match l with [] => [] | _ => chars sep ++ chars (py_join sep l) end)
    as -> by (destruct l; [by rewrite app_nil_r|by rewrite py_join_cons, !chars_app]).
  destruct i as [|i]; simpl in Hi.
  - injection Hi as ->. simpl. rewrite lookup_app_l; [done|]. by rewrite chars_length, Hs.
  - destruct l as [|s1 l]; [done|].
    rewrite lookup_app_r by (rewrite chars_length; lia).
    rewrite lookup_app_r by (rewrite !chars_length; lia).
    rewrite <- (IH i Hi Hk). f_equal. rewrite !chars_length. lia.
Qed.
End chars.

(** ** Words *)

(** A string without white space. *)
Definition no_space (s : string) : bool :=
  forallb (fun c => negb (py_isspace c)) (chars s).

(** A word: what [split] returns, a non-empty string without white
    space. *)
Definition is_word (s : string) : Prop := s <> "" /\ no_space s = true.

Section words.
Implicit Types (s t cur rest : string) (c : Ascii.ascii) (l : list string).

Lemma str_app_assoc s1 s2 s3 : (s1 +:+ s2) +:+ s3 = s1 +:+ s2 +:+ s3.
Proof. apply chars_inj. by rewrite !chars_app, (assoc_L (++)). Qed.

Lemma str_app_nil_r s : s +:+ "" = s.
Proof. apply chars_inj. by rewrite chars_app, app_nil_r. Qed.

Lemma no_space_app s t : no_space (s +:+ t) = no_space s && no_space t.
Proof. unfold no_space. by rewrite chars_app, forallb_app. Qed.

Lemma flush_word cur : no_space cur = true -> Forall is_word (flush cur).
Proof. destruct cur; repeat constructor; done. Qed.

(** Every string that [split] returns is a word. *)
Lemma py_split_go_words cur s :
  no_space cur = true -> Forall is_word (py_split_go cur s).
Proof.
  revert cur. induction s as [|c s IH]; intros cur Hcur; simpl.
  { by apply flush_word. }
  destruct (py_isspace c) eqn:Hc.
  - apply Forall_app. split; [by apply flush_word|by apply IH].
  - apply IH. rewrite no_space_app, Hcur. unfold no_space. simpl. by rewrite Hc.
Qed.

Lemma py_split_words s : Forall is_word (py_split s).
Proof. by apply py_split_go_words. Qed.

(** [split] runs through a string without white space collecting it. *)
Lemma py_split_go_word cur t rest :
  no_space t = true ->
  py_split_go cur (t +:+ rest) = py_split_go (cur +:+ t) rest.
Proof.
  revert cur. induction t as [|c t IH]; intros cur Ht.
  { by rewrite str_app_nil_r. }
  unfold no_space in Ht. simpl in Ht. apply andb_true_iff in Ht as [Hc Ht].
  apply negb_true_iff in Hc. change (String c t +:+ rest) with (String c (t +:+ rest)).
  cbn [py_split_go]. rewrite Hc, IH by done. f_equal.
  by rewrite str_app_assoc.
Qed.

(** Words joined by one space are what [split] gives back. *)
Lemma py_split_join l : Forall is_word l -> py_split (py_join " " l) = l.
Proof.
  unfold py_split. induction 1 as [|t l [Hne Ht] Hl IH]; [done|].
  destruct (decide (l = [])) as [->|Hl'].
  - simpl. rewrite <- (str_app_nil_r t) at 1.
    rewrite py_split_go_word by done. simpl. by destruct t.
  - rewrite py_join_cons, py_split_go_word by done.
    change (" " +:+ ?r) with (String " "%char r). cbn [py_split_go].
    change (py_isspace " ") with true. cbn iota. rewrite IH. by destruct t.
Qed.

(** [str(n)] is a word. *)
Lemma uint_no_space d : no_space (NilEmpty.string_of_uint d) = true.
Proof. induction d; done. Qed.

Lemma py_str_word (n : nat) : is_word (py_str n).
Proof. split; [apply py_str_nonempty|apply uint_no_space]. Qed.
End words.
