(* ===== verification/Marks.v ===== *)
(** * Marks: the contents of a cell

    The class docstring of [MineModelBoard] (src/mineSweeper.py, lines
    50-59) lists the strings a cell can hold.  [mark] has one constructor
    per line of that list; [mark_str] is the string the source stores.  The
    source never inspects a mark except through string equality, membership
    in a list of strings, membership in the string ["12345678"], truthiness
    and [int]; this file relates these tests on [mark_str] (file [Text]) to
    the constructors. *)

From stdpp Require Import base tactics option list numbers strings.
From Stdlib Require Import ZArith Lia.
From S2P Require Import Prelude Text.

(** ** The marks *)

Inductive mark : Type :=
| mSpace            (* " ": unrevealed block *)
| mX                (* "X": hidden mine *)
| mF                (* "F": flagged mine *)
| mW                (* "W": wrong flagged mine *)
| mQ                (* "?": mine marked as ? *)
| mBang             (* "!": none-mine marked as ? *)
| mB                (* "B": blank *)
| mNum (n : nat).   (* str(n): number of mines around *)

#[export] Instance mark_eq_dec : EqDecision mark.
Proof. solve_decision. Defined.

#[export] Instance mark_inhabited : Inhabited mark := populate mSpace.

Definition mark_str (m : mark) : string :=
  match m with
  | mSpace => " "
  | mX => "X"
  | mF => "F"
  | mW => "W"
  | mQ => "?"
  | mBang => "!"
  | mB => "B"
  | mNum n => py_str n
  end.

(** ** Classes of marks *)

(** The mark strings that the source compares a cell with in lists. *)
Definition mine_marks : list mark := [mX; mF; mQ].
Definition flag_marks : list mark := [mF; mW; mQ; mBang].

(** [mark in [...]] for a list of mark strings. *)
Definition mark_in (m : mark) (l : list mark) : bool := bool_decide (m ∈ l).

(** The cell covers a mine, whatever the player has put on it. *)
Definition is_mine (m : mark) : bool := mark_in m mine_marks.
(** The player has flagged or question-marked the cell. *)
Definition is_flagged (m : mark) : bool := mark_in m flag_marks.
(** The cell has been opened: blank or a number. *)
Definition is_revealed (m : mark) : bool :=
  match m with mB | mNum _ => true | _ => false end.
Definition is_space (m : mark) : bool := bool_decide (m = mSpace).
Definition is_F (m : mark) : bool := bool_decide (m = mF).
(** A non-mine cell that is not opened yet. *)
Definition is_closed (m : mark) : bool :=
  match m with mSpace | mW | mBang => true | _ => false end.

(** A mark the game can produce: a number is between 1 and 8. *)
Definition mark_ok (m : mark) : Prop :=
  match m with mNum n => 1 <= n <= 8 | _ => True end.

#[export] Instance mark_ok_dec m : Decision (mark_ok m).
Proof. destruct m; simpl; apply _. Defined.

(** ** Facts *)

(** Every mark is a non-empty string, so a cell that exists is truthy. *)
Lemma mark_truthy m : py_truthy (mark_str m) = true.
Proof.
  destruct m; try reflexivity. simpl.
  destruct (py_str_head n) as (c & s & -> & _). reflexivity.
Qed.

(** Distinct marks are distinct strings: comparing the strings, as the
    source does, is comparing the marks. *)
Lemma mark_str_inj m m' : mark_str m = mark_str m' -> m = m'.
Proof.
  destruct m, m'; simpl; intros E; try done;
    try (f_equal; by apply py_str_inj);
    match type of E with
    | context [py_str ?n] => destruct (py_str_head n) as (c & s & E' & Hc)
    end;
    rewrite E' in E; simplify_eq; destruct Hc as [d Hc]; discriminate Hc.
Qed.

#[export] Instance mark_str_Inj : Inj (=) (=) mark_str.
Proof. intros m m'. apply mark_str_inj. Qed.

(** On the marks of a game, [mark in "12345678"] holds of the numbers and
    of nothing else. *)
Lemma digits_in_revealed m :
  mark_ok m ->
  py_str_in (mark_str m) "12345678" = match m with mNum _ => true | _ => false end.
Proof.
  destruct m; try reflexivity. simpl. intros [H1 H8].
  do 9 (destruct n as [|n]; [first [lia | reflexivity]|]). lia.
Qed.

Lemma is_mine_not_revealed m : is_mine m = true -> is_revealed m = false.
Proof. by destruct m. Qed.

Lemma is_revealed_not_mine m : is_revealed m = true -> is_mine m = false.
Proof. by destruct m. Qed.

Lemma is_revealed_not_F m : is_revealed m = true -> is_F m = false.
Proof. by destruct m. Qed.

Lemma is_revealed_not_space m : is_revealed m = true -> m <> mSpace.
Proof. by destruct m. Qed.

(** Every cell is exactly one of: a mine, an opened cell, a closed
    non-mine cell. *)
Lemma mark_partition m :
  b2n (is_mine m) + b2n (is_revealed m) + b2n (is_closed m) = 1.
Proof. by destruct m. Qed.
