(* ===== verification/Board.v ===== *)
(** * Board: the state of [MineModelBoard] and its accessors

    The record [MineModelBoard] holds the attributes that [__init__] and
    [_reset] create (src/mineSweeper.py, lines 76-89).  [_get], [_set],
    [_get_neighbors], [_get_num_mines] and [_get_num_flagged_blocks] are
    the methods of lines 95-129.  Coordinates are Python integers ([Z]):
    the accessors test them against [w] and [h] before they index
    [board[y][x]], and a neighbour of a cell on the border may have the
    coordinate [-1].

    [self.board[y][x]] on a board whose rows do not have the announced
    shape would raise [IndexError]; [_reset] builds [h] distinct rows of
    [w] cells and no method changes the shape (see [wf] and [_set_wf]), so
    the model indexes with the total [grid_get]. *)

From stdpp Require Import base tactics option list numbers strings.
From Stdlib Require Import ZArith Lia.
From S2P Require Import Prelude Text Marks.

#[local] Open Scope Z_scope.

(** ** State *)

Record MineModelBoard : Type := mkBoard {
  h : Z;
  w : Z;
  num_mine : Z;
  board : list (list mark);
  curr_mine : Z;
  curr_eval : Z;
}.

Definition with_board (s : MineModelBoard) (b : list (list mark)) : MineModelBoard :=
  mkBoard (h s) (w s) (num_mine s) b (curr_mine s) (curr_eval s).
Definition with_curr_mine (s : MineModelBoard) (n : Z) : MineModelBoard :=
  mkBoard (h s) (w s) (num_mine s) (board s) n (curr_eval s).
Definition with_curr_eval (s : MineModelBoard) (n : Z) : MineModelBoard :=
  mkBoard (h s) (w s) (num_mine s) (board s) (curr_mine s) n.

(** ** Accessors *)

(** [x >= 0 and x < self.w and y >= 0 and y < self.h] *)
Definition in_board (s : MineModelBoard) (x y : Z) : bool :=
  (0 <=? x) && (x <? w s) && (0 <=? y) && (y <? h s).

Definition _get (s : MineModelBoard) (x y : Z) : option mark :=
  if in_board s x y then grid_get (board s) (Z.to_nat x) (Z.to_nat y)
  else None.

Definition _set (s : MineModelBoard) (x y : Z) (m : mark) : bool * MineModelBoard :=
  if in_board s x y
  then (true, with_board s (grid_set (board s) (Z.to_nat x) (Z.to_nat y) m))
  else (false, s).

(** The eight coordinates around [(x, y)], in the order of the source. *)
Definition neighbor_coords (x y : Z) : list (Z * Z) :=
  [(x-1, y-1); (x-1, y); (x-1, y+1);
   (x, y-1); (x, y+1);
   (x+1, y-1); (x+1, y); (x+1, y+1)].

Definition _get_neighbors (s : MineModelBoard) (x y : Z) : list (Z * Z * mark) :=
  flat_map
    (fun '(i, j) =>
       match _get s i j with
       | Some m => if py_truthy (mark_str m) then [(i, j, m)] else []
       | None => []
       end)
    (neighbor_coords x y).

(** [sum([1 if block[2] in l else 0 for block in neighbor])] *)
Definition count_in (l : list mark) (neighbor : list (Z * Z * mark)) : nat :=
  sum_list_with (fun block => if mark_in block.2 l then 1%nat else 0%nat) neighbor.

Definition _get_num_mines (s : MineModelBoard) (x y : Z) : nat :=
  let neighbor := _get_neighbors s x y in
  count_in mine_marks neighbor.

Definition _get_num_flagged_blocks (s : MineModelBoard) (x y : Z) : nat :=
  let neighbor := _get_neighbors s x y in
  count_in flag_marks neighbor.

(** ** Shape and counting *)

(** The board has [h] rows of [w] cells. *)
Definition wf (s : MineModelBoard) : Prop :=
  grid_wf (Z.to_nat (w s)) (Z.to_nat (h s)) (board s).

(** The number of cells whose mark satisfies [p]. *)
Definition count_marks (p : mark -> bool) (s : MineModelBoard) : nat :=
  grid_count p (board s).

(** Every mark on the board is one the game can produce. *)
Definition marks_ok (s : MineModelBoard) : Prop :=
  forall x y m, _get s x y = Some m -> mark_ok m.

(** [curr_mine] is the number of mines minus the number of ["F"] marks. *)
Definition flag_inv (s : MineModelBoard) : Prop :=
  curr_mine s + Z.of_nat (count_marks is_F s) = num_mine s.

(** [curr_eval] is the number of opened cells. *)
Definition eval_inv (s : MineModelBoard) : Prop :=
  curr_eval s = Z.of_nat (count_marks is_revealed s).

(** [num_mine] cells cover a mine. *)
Definition mines_inv (s : MineModelBoard) : Prop :=
  Z.of_nat (count_marks is_mine s) = num_mine s.

(** Two states have the same mines when the same cells cover a mine. *)
Definition mine_at (s : MineModelBoard) (x y : Z) : bool :=
  match _get s x y with Some m => is_mine m | None => false end.

Record same_mines (s s' : MineModelBoard) : Prop := SameMines {
  same_mine_at : forall x y, mine_at s' x y = mine_at s x y;
}.

(** ** Boolean checks *)

(** The coordinates of the board. *)
Definition coords (s : MineModelBoard) : list (Z * Z) :=
  x ← seqZ 0 (w s); y ← seqZ 0 (h s); [(x, y)].

Definition all_cells (s : MineModelBoard) (p : Z -> Z -> mark -> bool) : bool :=
  forallb (fun c => match _get s c.1 c.2 with
                    | Some m => p c.1 c.2 m
                    | None => true
                    end) (coords s).

Definition wf_b (s : MineModelBoard) : bool :=
  bool_decide (length (board s) = Z.to_nat (h s)) &&
  forallb (fun r => bool_decide (length r = Z.to_nat (w s))) (board s).

Definition marks_ok_b (s : MineModelBoard) : bool :=
  all_cells s (fun _ _ m => bool_decide (mark_ok m)).

(** ** Sample states *)

(** A board of three columns and three rows with one mine, in the corner
    (2, 2), before the first click. *)
Definition board_3x3 : MineModelBoard :=
  mkBoard 3 3 1
    [[mSpace; mSpace; mSpace];
     [mSpace; mSpace; mSpace];
     [mSpace; mSpace; mX]] 1 0.

(** The same board after the cell (1, 1) was opened. *)
Definition board_3x3_one : MineModelBoard :=
  mkBoard 3 3 1
    [[mSpace; mSpace; mSpace];
     [mSpace; mNum 1; mSpace];
     [mSpace; mSpace; mX]] 1 1.

(** ... and after a flag was put on the cell (0, 0), which has no mine. *)
Definition board_3x3_wrong : MineModelBoard :=
  mkBoard 3 3 1
    [[mW; mSpace; mSpace];
     [mSpace; mNum 1; mSpace];
     [mSpace; mSpace; mX]] 1 1.

(** The board after the cell (1, 1) was opened and the mine was flagged. *)
Definition board_3x3_flag : MineModelBoard :=
  mkBoard 3 3 1
    [[mSpace; mSpace; mSpace];
     [mSpace; mNum 1; mSpace];
     [mSpace; mSpace; mF]] 0 1.

(** ** Facts about the accessors *)

Section accessors.
Implicit Types (s : MineModelBoard) (x y i j : Z) (m : mark).

Lemma in_board_spec s x y :
  in_board s x y = true <-> 0 <= x < w s /\ 0 <= y < h s.
Proof. unfold in_board. lia. Qed.

Lemma _get_in_board s x y m : _get s x y = Some m -> in_board s x y = true.
Proof. unfold _get. by destruct (in_board s x y). Qed.

Lemma _get_out s x y : in_board s x y = false -> _get s x y = None.
Proof. unfold _get. by intros ->. Qed.

Lemma wf_get s x y : wf s -> in_board s x y = true -> is_Some (_get s x y).
Proof.
  intros Hwf Hin. unfold _get. rewrite Hin.
  apply in_board_spec in Hin. eapply grid_wf_get; [exact Hwf|lia..].
Qed.

(** On a well-formed board [_get] is the lookup in the grid. *)
Lemma _get_nat s (i j : nat) :
  wf s -> _get s (Z.of_nat i) (Z.of_nat j) = grid_get (board s) i j.
Proof.
  intros Hwf. unfold _get. rewrite !Nat2Z.id.
  destruct (in_board s _ _) eqn:Hin; [done|].
  destruct (grid_get (board s) i j) as [a|] eqn:E; [|done].
  destruct (grid_get_wf_lt _ _ _ _ _ _ Hwf E) as [Hi Hj].
  apply not_true_iff_false in Hin. destruct Hin. apply in_board_spec. lia.
Qed.

Lemma _get_None s x y : wf s -> _get s x y = None -> in_board s x y = false.
Proof.
  intros Hwf Hg. destruct (in_board s x y) eqn:Hin; [|done].
  destruct (wf_get s x y Hwf Hin) as [m Hm]. congruence.
Qed.

Lemma _set_fields s x y m :
  h (_set s x y m).2 = h s /\ w (_set s x y m).2 = w s /\
  num_mine (_set s x y m).2 = num_mine s /\
  curr_mine (_set s x y m).2 = curr_mine s /\
  curr_eval (_set s x y m).2 = curr_eval s.
Proof. unfold _set. by destruct (in_board s x y). Qed.

Lemma in_board_set s x y m i j :
  in_board (_set s x y m).2 i j = in_board s i j.
Proof. unfold _set. by destruct (in_board s x y). Qed.

Lemma _set_wf s x y m : wf s -> wf (_set s x y m).2.
Proof.
  unfold wf, _set. destruct (in_board s x y); simpl; [|done].
  apply grid_set_wf.
Qed.

(** Reading the cell that was just written. *)
Lemma _get_set_eq s x y m :
  is_Some (_get s x y) -> _get (_set s x y m).2 x y = Some m.
Proof.
  intros [m0 Hm0]. pose proof (_get_in_board _ _ _ _ Hm0) as Hin.
  unfold _get in *. rewrite in_board_set, Hin in *. unfold _set.
  rewrite Hin; simpl. by apply grid_get_set_eq.
Qed.

(** Reading any other cell. *)
Lemma _get_set_ne s x y m i j :
  (x, y) <> (i, j) -> _get (_set s x y m).2 i j = _get s i j.
Proof.
  intros Hne. unfold _get. rewrite in_board_set.
  destruct (in_board s i j) eqn:Hij; [|done].
  unfold _set. destruct (in_board s x y) eqn:Hxy; simpl; [|done].
  apply grid_get_set_ne. apply in_board_spec in Hij, Hxy.
  intros [=]. apply Hne. f_equal; lia.
Qed.

Lemma _set_set s x y m m' :
  (_set (_set s x y m).2 x y m').2 = (_set s x y m').2.
Proof.
  unfold _set at 1. rewrite in_board_set. unfold _set.
  destruct (in_board s x y); simpl; [|done].
  unfold with_board; simpl. by rewrite grid_set_set.
Qed.

(** Writing the mark that is already there changes nothing. *)
Lemma _set_id s x y m : _get s x y = Some m -> (_set s x y m).2 = s.
Proof.
  unfold _get, _set. destruct (in_board s x y); [|done]. intros Hg; simpl.
  unfold with_board. rewrite (grid_set_id _ _ _ _ Hg). by destruct s.
Qed.

(** Writing outside the board changes nothing. *)
Lemma _set_out s x y m : _get s x y = None -> wf s -> (_set s x y m).2 = s.
Proof.
  intros Hg Hwf. unfold _set. by rewrite (_get_None _ _ _ Hwf Hg).
Qed.

Lemma _get_set s x y m i j :
  _get (_set s x y m).2 i j =
    if decide ((x, y) = (i, j) /\ is_Some (_get s x y)) then Some m
    else _get s i j.
Proof.
  case_decide as Hd.
  - destruct Hd as [[= <- <-] Hs]. by apply _get_set_eq.
  - destruct (decide ((x, y) = (i, j))) as [[= <- <-]|Hne];
      [|by apply _get_set_ne].
    unfold _get in *. rewrite in_board_set. unfold _set.
    destruct (in_board s x y) eqn:Hin; [simpl|done].
    destruct (grid_get (board s) _ _) eqn:E; [naive_solver|].
    by rewrite grid_set_None.
Qed.

(** The count of a class of marks after one write. *)
Lemma count_marks_set p s x y m0 m :
  _get s x y = Some m0 ->
  (count_marks p (_set s x y m).2 + b2n (p m0) = count_marks p s + b2n (p m))%nat.
Proof.
  intros Hg. pose proof (_get_in_board _ _ _ _ Hg) as Hin.
  unfold count_marks, _set, _get in *. rewrite Hin in *; simpl.
  by apply grid_count_set.
Qed.

Lemma count_marks_pos p s x y m :
  _get s x y = Some m -> p m = true -> (0 < count_marks p s)%nat.
Proof.
  unfold _get, count_marks. destruct (in_board s x y); [|done].
  apply grid_count_pos.
Qed.
End accessors.

(** A positive count of marks has a cell with such a mark. *)
Lemma count_marks_exists p (s : MineModelBoard) :
  wf s -> (0 < count_marks p s)%nat ->
  exists x y m, _get s x y = Some m /\ p m = true.
Proof.
  intros Hwf (i & j & m & Hg & Hp)%grid_count_exists.
  exists (Z.of_nat i), (Z.of_nat j), m. by rewrite _get_nat.
Qed.

(** ** Soundness of the boolean checks *)

Section checks.
Implicit Types (s : MineModelBoard) (x y i j : Z) (m : mark).

Lemma elem_of_coords s x y : (x, y) ∈ coords s <-> in_board s x y = true.
Proof.
  unfold coords. rewrite in_board_spec, list_elem_of_bind. split.
  - intros (x' & (y' & Hxy & Hy)%list_elem_of_bind & Hx).
    apply list_elem_of_singleton in Hxy as [= -> ->].
    apply elem_of_seqZ in Hx, Hy. lia.
  - intros [? ?]. exists x. split; [|apply elem_of_seqZ; lia].
    apply list_elem_of_bind. exists y.
    split; [by apply list_elem_of_singleton|apply elem_of_seqZ; lia].
Qed.

Lemma all_cells_spec s p :
  all_cells s p = true ->
  forall x y m, _get s x y = Some m -> p x y m = true.
Proof.
  unfold all_cells. rewrite forallb_forall. intros Hall x y m Hg.
  specialize (Hall (x, y)). simpl in Hall. rewrite Hg in Hall. apply Hall.
  apply list_elem_of_In, elem_of_coords. by eapply _get_in_board.
Qed.

Lemma wf_b_sound s : wf_b s = true -> wf s.
Proof.
  unfold wf_b, wf, grid_wf. rewrite andb_true_iff, forallb_forall.
  intros [Hl Hr]. split; [by apply bool_decide_eq_true in Hl|].
  apply Forall_forall. intros r Hin. apply list_elem_of_In in Hin.
  by apply Hr, bool_decide_eq_true in Hin.
Qed.

Lemma marks_ok_b_sound s : marks_ok_b s = true -> marks_ok s.
Proof.
  intros Hok x y m Hg. by apply (all_cells_spec _ _ Hok), bool_decide_eq_true in Hg.
Qed.
End checks.

(** ** Facts about neighbours *)

Section neighbors.
Implicit Types (s : MineModelBoard) (x y i j : Z) (m : mark).

Lemma neighbor_coords_spec x y i j :
  (i, j) ∈ neighbor_coords x y <->
  (x, y) <> (i, j) /\ -1 <= i - x <= 1 /\ -1 <= j - y <= 1.
Proof.
  unfold neighbor_coords. rewrite !elem_of_cons, elem_of_nil.
  split.
  - intros H. repeat destruct H as [H|H]; simplify_eq; try done;
      (split; [intros [=]; lia|lia]).
  - intros (Hne & Hi & Hj).
    assert (i = x - 1 \/ i = x \/ i = x + 1) as Ei by lia.
    assert (j = y - 1 \/ j = y \/ j = y + 1) as Ej by lia.
    destruct Ei as [-> | [-> | ->]], Ej as [-> | [-> | ->]]; tauto.
Qed.

Lemma neighbor_coords_sym x y i j :
  (i, j) ∈ neighbor_coords x y -> (x, y) ∈ neighbor_coords i j.
Proof.
  rewrite !neighbor_coords_spec. intros (Hne & ? & ?).
  split; [congruence|lia].
Qed.

Lemma neighbor_coords_irrefl x y : (x, y) ∉ neighbor_coords x y.
Proof. rewrite neighbor_coords_spec. tauto. Qed.

(** The neighbours are the cells around [(x, y)] that are on the board,
    each with its current mark. *)
Lemma elem_of_neighbors s x y i j m :
  (i, j, m) ∈ _get_neighbors s x y <->
  (i, j) ∈ neighbor_coords x y /\ _get s i j = Some m.
Proof.
  unfold _get_neighbors. rewrite list_elem_of_In, in_flat_map.
  setoid_rewrite <- list_elem_of_In. split.
  - intros ([i' j'] & Hin & Hm).
    destruct (_get s i' j') as [m'|] eqn:E; [|by apply elem_of_nil in Hm].
    rewrite mark_truthy in Hm. apply list_elem_of_singleton in Hm.
    by simplify_eq.
  - intros [Hin Hm]. exists (i, j). split; [done|].
    rewrite Hm, mark_truthy. by apply list_elem_of_singleton.
Qed.

Lemma neighbors_length s x y : (length (_get_neighbors s x y) <= 8)%nat.
Proof.
  unfold _get_neighbors. change 8%nat with (length (neighbor_coords x y)).
  induction (neighbor_coords x y) as [|[i j] l IH]; simpl; [done|].
  rewrite length_app. destruct (_get s i j) as [m|]; simpl; [|lia].
  rewrite mark_truthy; simpl. lia.
Qed.

Lemma count_in_le l nb : (count_in l nb <= length nb)%nat.
Proof.
  unfold count_in. induction nb as [|b nb IH]; simpl; [done|].
  destruct (mark_in b.2 l); lia.
Qed.

Lemma _get_num_mines_le s x y : (_get_num_mines s x y <= 8)%nat.
Proof.
  unfold _get_num_mines. etrans; [apply count_in_le|apply neighbors_length].
Qed.

(** A count is zero exactly when no neighbour is in the class. *)
Lemma count_in_zero l nb :
  count_in l nb = 0%nat <-> forall b, b ∈ nb -> mark_in b.2 l = false.
Proof.
  unfold count_in. induction nb as [|b nb IH]; simpl.
  - split; [|done]. intros _ b Hb. by apply elem_of_nil in Hb.
  - setoid_rewrite elem_of_cons. destruct (mark_in b.2 l) eqn:E.
    + split; [lia|]. intros H. specialize (H b (or_introl eq_refl)). congruence.
    + rewrite IH. split; intros H b0; [intros [->|?]; auto|].
      intros ?; apply H; auto.
Qed.

(** The neighbour list depends only on the marks around the cell. *)
Lemma neighbors_ext s s' x y :
  (forall i j, (i, j) ∈ neighbor_coords x y -> _get s' i j = _get s i j) ->
  _get_neighbors s' x y = _get_neighbors s x y.
Proof.
  intros H. unfold _get_neighbors.
  induction (neighbor_coords x y) as [|[i j] l IH]; simpl; [done|].
  rewrite H by (by left). f_equal. apply IH.
  intros i' j' Hin. apply H. by right.
Qed.
(** The number of mines around a cell, read off the cells themselves. *)
Lemma _get_num_mines_mine_at s x y :
  _get_num_mines s x y =
    sum_list_with (fun c => b2n (mine_at s c.1 c.2)) (neighbor_coords x y).
Proof.
  unfold _get_num_mines, _get_neighbors, count_in.
  induction (neighbor_coords x y) as [|[i j] l IH]; simpl; [done|].
  rewrite sum_list_with_app, IH. f_equal. unfold mine_at.
  destruct (_get s i j) as [m|]; simpl; [|done].
  rewrite mark_truthy; simpl. unfold is_mine. destruct (mark_in m mine_marks); simpl; lia.
Qed.

Lemma _get_num_mines_same s s' x y :
  same_mines s s' -> _get_num_mines s' x y = _get_num_mines s x y.
Proof.
  intros Hs. rewrite !_get_num_mines_mine_at.
  induction (neighbor_coords x y) as [|c l IH]; simpl; [done|].
  by rewrite IH, (same_mine_at _ _ Hs).
Qed.

(** No mine around a cell: no neighbour covers a mine. *)
Lemma _get_num_mines_zero s x y i j :
  _get_num_mines s x y = 0%nat -> (i, j) ∈ neighbor_coords x y ->
  mine_at s i j = false.
Proof.
  rewrite _get_num_mines_mine_at. intros H0 Hin.
  pose proof (sum_list_with_in _ (fun c => b2n (mine_at s c.1 c.2)) _ Hin) as Hle.
  rewrite H0 in Hle. simpl in Hle. destruct (mine_at s i j); [simpl in Hle; lia|done].
Qed.
End neighbors.

(** ** [same_mines] is an equivalence *)

#[export] Instance same_mines_refl : Reflexive same_mines.
Proof. by intros s. Qed.

#[export] Instance same_mines_trans : Transitive same_mines.
Proof. intros s1 s2 s3 [H12] [H23]. split. intros x y. by rewrite H23, H12. Qed.

#[export] Instance same_mines_sym : Symmetric same_mines.
Proof. intros s1 s2 [H12]. split. intros x y. by rewrite H12. Qed.

#[export] Instance same_mines_equiv : Equivalence same_mines.
Proof. split; apply _. Qed.

(** The functions that only look at the mines respect it, so that
    [rewrite] works with a proof of [same_mines]. *)
#[export] Instance mine_at_proper :
  Proper (same_mines ==> eq ==> eq ==> eq) mine_at.
Proof. intros s s' [H] x ? <- y ? <-. symmetry. apply H. Qed.

#[export] Instance _get_num_mines_proper :
  Proper (same_mines ==> eq ==> eq ==> eq) _get_num_mines.
Proof. intros s s' H x ? <- y ? <-. symmetry. by apply _get_num_mines_same. Qed.
