(* ===== verification/Flag.v ===== *)
(** * Flag: [right_click]

    [right_click] (src/mineSweeper.py, lines 145-158) moves the mark of a
    cell one step along its track, [" " -> "W" -> "!" -> " "] for a cell
    without a mine and ["X" -> "F" -> "?" -> "X"] for a cell with one, and
    keeps [curr_mine] equal to the number of mines minus the number of
    cells marked ["F"].  Opened cells and cells outside the board are left
    alone: [dct.get(mark, mark)] returns the mark itself for a mark that is
    not a key, and [_set] refuses coordinates outside the board. *)

From stdpp Require Import base tactics option list numbers.
From Stdlib Require Import ZArith Lia.
From S2P Require Import Prelude Text Marks Board.

#[local] Open Scope Z_scope.

(** ** The operation *)

(** The dictionary literal of [right_click]. *)
Definition dct : list (mark * mark) :=
  [(mSpace, mW);
   (mX, mF);
   (mW, mBang);
   (mF, mQ);
   (mBang, mSpace);
   (mQ, mX)].

Definition right_click (s : MineModelBoard) (x y : Z) : MineModelBoard :=
  let mark := _get s x y in
  let s1 := if decide (mark = Some mF)
            then with_curr_mine s (curr_mine s + 1) else s in
  let s2 := match mark with
            | Some m => (_set s1 x y (dict_get dct m m)).2
            | None => s1 (* [_set(x, y, None)] outside the board: no write *)
            end in
  if decide (_get s2 x y = Some mF)
  then with_curr_mine s2 (curr_mine s2 - 1) else s2.

(** ** The step along the track *)

Definition next_mark (m : mark) : mark := dict_get dct m m.

Lemma next_mark_cases m :
  next_mark m =
    match m with
    | mSpace => mW | mW => mBang | mBang => mSpace
    | mX => mF | mF => mQ | mQ => mX
    | mB => mB | mNum n => mNum n
    end.
Proof. by destruct m. Qed.

Lemma next_mark_3 m : next_mark (next_mark (next_mark m)) = m.
Proof. by destruct m. Qed.

Lemma next_mark_mine m : is_mine (next_mark m) = is_mine m.
Proof. by destruct m. Qed.

Lemma next_mark_revealed m : is_revealed (next_mark m) = is_revealed m.
Proof. by destruct m. Qed.

Lemma next_mark_closed m : is_closed (next_mark m) = is_closed m.
Proof. by destruct m. Qed.

Lemma next_mark_ok m : mark_ok m -> mark_ok (next_mark m).
Proof. by destruct m. Qed.

(** ** What [right_click] does to the state *)

Section right_click.
Implicit Types (s : MineModelBoard) (x y i j : Z) (m : mark).

Lemma _set_with_curr_mine s x y m c :
  (_set (with_curr_mine s c) x y m).2 = with_curr_mine (_set s x y m).2 c.
Proof. unfold _set, in_board; simpl. by case_match. Qed.

Lemma with_curr_mine_twice s c c' :
  with_curr_mine (with_curr_mine s c) c' = with_curr_mine s c'.
Proof. done. Qed.

Lemma with_curr_mine_id s c : c = curr_mine s -> with_curr_mine s c = s.
Proof. intros ->. by destruct s. Qed.

(** The cell and the counter after a click on a cell of the board. *)
Lemma right_click_in s x y m :
  _get s x y = Some m ->
  right_click s x y =
    with_curr_mine (_set s x y (next_mark m)).2
      (curr_mine s + Z.of_nat (b2n (is_F m)) - Z.of_nat (b2n (is_F (next_mark m)))).
Proof.
  intros Hm. unfold right_click. rewrite Hm. fold (next_mark m).
  set (s' := (_set s x y (next_mark m)).2).
  assert (_get s' x y = Some (next_mark m)) as Hget
    by (apply _get_set_eq; by rewrite Hm).
  assert (curr_mine s' = curr_mine s) as Hc by apply _set_fields.
  destruct (decide (Some m = Some mF)) as [[= ->]|Hne].
  - rewrite _set_with_curr_mine. fold s'.
    change (_get (with_curr_mine s' ?c) x y) with (_get s' x y).
    rewrite Hget, decide_False by done. f_equal.
    change (is_F mF) with true. change (is_F (next_mark mF)) with false.
    simpl. lia.
  - fold s'. rewrite Hget. assert (is_F m = false) as ->
      by (apply bool_decide_eq_false; congruence).
    case_decide as Hn.
    + injection Hn as ->. rewrite Hc. f_equal. change (is_F mF) with true.
      simpl. lia.
    + rewrite (with_curr_mine_id s'); [done|].
      assert (is_F (next_mark m) = false) as ->
        by (apply bool_decide_eq_false; congruence).
      simpl. lia.
Qed.

(** A click outside the board is a no-op. *)
Lemma right_click_out s x y : _get s x y = None -> right_click s x y = s.
Proof.
  intros Hm. unfold right_click. rewrite Hm. simpl. by rewrite Hm.
Qed.

Lemma right_click_fields s x y :
  h (right_click s x y) = h s /\ w (right_click s x y) = w s /\
  num_mine (right_click s x y) = num_mine s /\
  curr_eval (right_click s x y) = curr_eval s.
Proof.
  destruct (_get s x y) as [m|] eqn:E;
    [rewrite (right_click_in _ _ _ _ E)|by rewrite right_click_out].
  simpl. by destruct (_set_fields s x y (next_mark m)) as (?&?&?&?&?).
Qed.

Lemma right_click_get s x y i j :
  _get (right_click s x y) i j =
    if decide ((x, y) = (i, j)) then next_mark <$> _get s x y
    else _get s i j.
Proof.
  destruct (_get s x y) as [m|] eqn:E.
  - rewrite (right_click_in _ _ _ _ E).
    change (_get (with_curr_mine ?s' _) i j) with (_get s' i j).
    rewrite _get_set, E. repeat case_decide; try done; [tauto|].
    exfalso; eauto.
  - rewrite right_click_out by done. case_decide; [|done].
    by simplify_eq.
Qed.

Lemma right_click_wf s x y : wf s -> wf (right_click s x y).
Proof.
  intros Hwf. destruct (_get s x y) as [m|] eqn:E;
    [rewrite (right_click_in _ _ _ _ E)|by rewrite right_click_out].
  by apply (_set_wf s x y (next_mark m)).
Qed.

(** The count of a class of marks that the track respects is unchanged. *)
Lemma right_click_count p s x y :
  (forall m, p (next_mark m) = p m) ->
  count_marks p (right_click s x y) = count_marks p s.
Proof.
  intros Hp. destruct (_get s x y) as [m|] eqn:E;
    [rewrite (right_click_in _ _ _ _ E)|by rewrite right_click_out].
  change (count_marks p (with_curr_mine ?s' _)) with (count_marks p s').
  pose proof (count_marks_set p s x y m (next_mark m) E) as H.
  rewrite Hp in H. lia.
Qed.

Lemma right_click_same_mines s x y : same_mines s (right_click s x y).
Proof.
  split. intros i j. unfold mine_at. rewrite right_click_get.
  case_decide; [simplify_eq|done].
  destruct (_get s i j); simpl; [apply next_mark_mine|done].
Qed.

Lemma right_click_marks_ok s x y : marks_ok s -> marks_ok (right_click s x y).
Proof.
  intros Hok i j m. rewrite right_click_get. case_decide; [|apply Hok].
  destruct (_get s x y) as [m0|] eqn:E; simpl; [|done].
  intros [= <-]. apply next_mark_ok. eauto.
Qed.
Lemma right_click_flag_inv s x y : flag_inv s -> flag_inv (right_click s x y).
Proof.
  unfold flag_inv. intros Hinv. destruct (_get s x y) as [m|] eqn:E;
    [rewrite (right_click_in _ _ _ _ E)|by rewrite right_click_out].
  change (count_marks is_F (with_curr_mine ?s' _)) with (count_marks is_F s').
  pose proof (count_marks_set is_F s x y m (next_mark m) E) as H.
  destruct (_set_fields s x y (next_mark m)) as (_&_&Hn&_&_).
  simpl. rewrite Hn. lia.
Qed.

Lemma right_click_eval_inv s x y : eval_inv s -> eval_inv (right_click s x y).
Proof.
  unfold eval_inv. rewrite (right_click_count is_revealed) by apply next_mark_revealed.
  by destruct (right_click_fields s x y) as (_&_&_&->).
Qed.

Lemma right_click_mines_inv s x y : mines_inv s -> mines_inv (right_click s x y).
Proof.
  unfold mines_inv. rewrite (right_click_count is_mine) by apply next_mark_mine.
  by destruct (right_click_fields s x y) as (_&_&->&_).
Qed.
End right_click.

(** ** The ring and the counter *)

(** C27.  Three right clicks on the same coordinates restore the whole
    state: the mark has gone once around its track, [curr_mine] is back to
    its value and nothing else was touched.  This holds for every state and
    all coordinates, on or off the board. *)
Theorem right_click_ring3 (s : MineModelBoard) (x y : Z) :
  right_click (right_click (right_click s x y) x y) x y = s.
Proof.
  destruct (_get s x y) as [m|] eqn:E; [|by rewrite !(right_click_out s x y E)].
  assert (_get (right_click s x y) x y = Some (next_mark m)) as E1
    by (rewrite right_click_get, E; by case_decide).
  assert (_get (right_click (right_click s x y) x y) x y
          = Some (next_mark (next_mark m))) as E2
    by (rewrite right_click_get, E1; by case_decide).
  rewrite (right_click_in _ _ _ _ E2), (right_click_in _ _ _ _ E1),
    (right_click_in _ _ _ _ E).
  repeat first [rewrite _set_with_curr_mine | rewrite with_curr_mine_twice
               | rewrite _set_set].
  rewrite next_mark_3, (_set_id _ _ _ _ E).
  apply with_curr_mine_id. simpl. lia.
Qed.

