(* ===== verification/Output.v ===== *)
(** * Output: the picture of the board

    [output] (src/mineSweeper.py, lines 196-206) renders the board as
    text: one line [|c|c|...|c|] per row, the rows separated by a line of
    dashes.  Its local function [hidden] replaces the marks that would
    tell the player where the mines are: a hidden mine is printed as an
    unrevealed cell, a wrong flag as a flag, a wrong question mark as a
    question mark.

    The theorems say that the text is a faithful picture of what the
    player may see and of nothing else: the character of every cell sits
    at a position computed from its coordinates ([output_cell]), and two
    boards have the same text exactly when their cells look alike
    ([output_faithful]). *)

From stdpp Require Import base tactics option list numbers strings.
From Stdlib Require Import ZArith Lia Ascii.
From S2P Require Import Prelude Text Marks Board Flag.

#[local] Open Scope Z_scope.

(** ** The operations *)

(** The dictionary of [hidden]. *)
Definition hidden_dct : list (mark * mark) :=
  [(mX, mSpace); (mW, mF); (mBang, mQ)].

(** [dct.get(c, c)]: what the player sees of a mark. *)
Definition view (c : mark) : mark := dict_get hidden_dct c c.

Definition hidden (row : list mark) : list mark :=
  foldl (fun res c => res ++ [view c]) [] row.

Definition col_separator (s : MineModelBoard) : string :=
  nl +:+ py_mul "-" (2 * w s + 1) +:+ nl.

(** ['|'.join([''] + hidden(row) + [''])]. *)
Definition row_str (row : list mark) : string :=
  py_join "|" ([""] ++ (mark_str <$> hidden row) ++ [""]).

Definition output (s : MineModelBoard) : string :=
  py_join (col_separator s) (row_str <$> board s).

(** ** What the theorems are stated with *)

(** The character a mark of the game is printed as. *)
Definition glyph (m : mark) : ascii :=
  match mark_str m with
  | String c _ => c
  | EmptyString => " "%char
  end.

(** Two states look alike: they have the same dimensions and the player
    sees the same on every cell. *)
Definition same_view (s s' : MineModelBoard) : Prop :=
  w s = w s' /\ h s = h s' /\
  forall x y, view <$> _get s x y = view <$> _get s' x y.

(** The position of the cell [(x, y)] in the text. *)
Definition cell_pos (s : MineModelBoard) (x y : Z) : nat :=
  Z.to_nat (y * (4 * w s + 4) + 2 * x + 1).

(** ** Marks and their characters *)

Section glyphs.
Implicit Types (m c : mark) (row : list mark).

Lemma view_cases m :
  view m = match m with mX => mSpace | mW => mF | mBang => mQ | _ => m end.
Proof. by destruct m. Qed.

Lemma view_ok m : mark_ok m -> mark_ok (view m).
Proof. by destruct m. Qed.

Lemma view_idemp m : view (view m) = view m.
Proof. by destruct m. Qed.

(** A mark of the game is one character. *)
Lemma mark_chars m : mark_ok m -> chars (mark_str m) = [glyph m].
Proof.
  destruct m; try reflexivity. simpl. intros [H1 H8].
  do 9 (destruct n as [|n]; [first [lia | reflexivity]|]). lia.
Qed.

Lemma glyph_inj m m' : mark_ok m -> mark_ok m' -> glyph m = glyph m' -> m = m'.
Proof.
  intros Hm Hm' E. apply mark_str_inj, chars_inj.
  by rewrite !mark_chars, E.
Qed.

Lemma hidden_fmap row : hidden row = view <$> row.
Proof. apply (foldl_snoc_fmap view row []). Qed.

(** What the player sees after a right click depends on what was seen
    before it, not on the mine under the mark. *)
Lemma view_next_mark m m' :
  view m = view m' -> view (next_mark m) = view (next_mark m').
Proof. destruct m, m'; simpl; intros E; by simplify_eq. Qed.
End glyphs.

(** ** One row *)

Section rows.
Implicit Types (m c : mark) (row : list mark) (l : list string).

Lemma join_bar_chars l :
  chars (py_join "|" (l ++ [""])) = flat_map (fun s => chars s ++ ["|"%char]) l.
Proof.
  induction l as [|a l IH]; [done|].
  change ((a :: l) ++ [""]) with (a :: (l ++ [""])).
  rewrite py_join_cons by (by destruct l). rewrite !chars_app, IH. simpl.
  by rewrite <- (assoc_L (++)).
Qed.

(** A row is printed as a bar followed by a character and a bar for every
    cell. *)
Lemma row_chars row :
  Forall mark_ok row ->
  chars (row_str row) =
    "|"%char :: flat_map (fun m => [glyph (view m); "|"%char]) row.
Proof.
  intros Hok. unfold row_str. change ([""] ++ ?l) with ("" :: l).
  rewrite py_join_cons by (by destruct (mark_str <$> hidden row)).
  rewrite !chars_app, join_bar_chars, hidden_fmap. simpl. f_equal.
  induction Hok as [|m row Hm _ IH]; [done|].
  rewrite !fmap_cons. cbn [flat_map]. rewrite IH.
  by rewrite mark_chars by (by apply view_ok).
Qed.

Lemma pairs_length {A B} (f g : A -> B) (l : list A) :
  length (flat_map (fun a => [f a; g a]) l) = (2 * length l)%nat.
Proof. induction l as [|a l IH]; simpl; lia. Qed.

Lemma pairs_lookup {A B} (f g : A -> B) (l : list A) (i : nat) :
  flat_map (fun a => [f a; g a]) l !! (2 * i)%nat = f <$> l !! i.
Proof.
  revert i. induction l as [|a l IH]; intros [|i]; try done.
  replace (2 * S i)%nat with (S (S (2 * i))) by lia. apply IH.
Qed.

Lemma row_length row :
  Forall mark_ok row -> String.length (row_str row) = (2 * length row + 1)%nat.
Proof.
  intros Hok. rewrite <- chars_length, row_chars by done. simpl.
  rewrite (pairs_length _ (fun _ => "|"%char)). lia.
Qed.

Lemma row_lookup row (x : nat) m :
  Forall mark_ok row -> row !! x = Some m ->
  chars (row_str row) !! (2 * x + 1)%nat = Some (glyph (view m)).
Proof.
  intros Hok Hx. rewrite row_chars, lookup_cons_ne_0 by (done || lia).
  replace (Nat.pred (2 * x + 1)) with (2 * x)%nat by lia.
  by rewrite (pairs_lookup _ (fun _ => "|"%char)), Hx.
Qed.
End rows.

(** ** The whole board *)

Section board.
Implicit Types (s : MineModelBoard) (x y : Z) (m : mark).

Lemma col_separator_length s :
  String.length (col_separator s) = Z.to_nat (Z.max 0 (2 * w s + 1) + 2).
Proof.
  unfold col_separator, py_mul. rewrite !str_app_length, str_repeat_length.
  simpl. lia.
Qed.

Lemma marks_ok_rows s : wf s -> marks_ok s -> Forall (Forall mark_ok) (board s).
Proof.
  intros Hwf Hok. apply grid_Forall. intros i j m Hg.
  apply (Hok (Z.of_nat i) (Z.of_nat j)). by rewrite _get_nat.
Qed.

(** Every line of the picture has [2 * w + 1] characters. *)
Lemma rows_length s :
  wf s -> marks_ok s ->
  Forall (fun l => String.length l = (2 * Z.to_nat (w s) + 1)%nat)
    (row_str <$> board s).
Proof.
  intros Hwf Hok. apply Forall_fmap. pose proof Hwf as [_ Hrows].
  pose proof (marks_ok_rows s Hwf Hok) as Hall.
  rewrite Forall_lookup in *. intros j r Hr. simpl.
  rewrite row_length by eauto. by rewrite (Hrows j r Hr).
Qed.

(** The picture is empty or begins with a bar. *)
Lemma output_head s : output s = "" \/ exists rest, output s = String "|" rest.
Proof.
  unfold output. destruct (board s) as [|row rows]; [by left|right].
  assert (exists rest, row_str row = String "|" rest) as [rest Hr].
  { unfold row_str. change ([""] ++ ?l) with ("" :: l).
    rewrite py_join_cons by (by destruct (mark_str <$> hidden row)). eauto. }
  rewrite fmap_cons, Hr. destruct (row_str <$> rows) as [|r rs]; [by eauto|].
  rewrite py_join_cons by done. eauto.
Qed.

(** Boards whose rows look alike look alike. *)
Lemma same_view_boards s s' :
  w s = w s' -> h s = h s' ->
  fmap (M:=list) view <$> board s = fmap (M:=list) view <$> board s' ->
  same_view s s'.
Proof.
  intros Ew Eh E. split_and!; [done..|]. intros x y. unfold _get, in_board.
  rewrite <- Ew, <- Eh. case_match; [|done]. by rewrite <- !grid_get_fmap, E.
Qed.

(** Boards that look alike have the same picture. *)
Lemma same_view_output s s' :
  wf s -> wf s' -> same_view s s' -> output s = output s'.
Proof.
  intros Hwf Hwf' (Ew & Eh & Hv). unfold output, col_separator. rewrite Ew.
  f_equal. unfold wf in *. rewrite Ew, Eh in Hwf.
  assert (hidden <$> board s = hidden <$> board s') as E.
  { erewrite !(list_fmap_ext hidden (fmap view)) by (intros; apply hidden_fmap).
    eapply grid_fmap_ext; [exact Hwf|exact Hwf'|]. intros i j.
    specialize (Hv (Z.of_nat i) (Z.of_nat j)).
    by rewrite !_get_nat in Hv by (unfold wf; by rewrite ?Ew, ?Eh). }
  unfold row_str.
  change (fun row => py_join "|" ([""] ++ (mark_str <$> hidden row) ++ [""]))
    with ((fun l => py_join "|" ([""] ++ (mark_str <$> l) ++ [""])) ∘ hidden).
  by rewrite !list_fmap_compose, E.
Qed.
End board.

(** ** The picture is faithful *)

Section faithful.
Implicit Types (s : MineModelBoard) (x y : Z) (m : mark).

(** The character of a cell, at its position. *)
Lemma output_lookup s x y m :
  wf s -> marks_ok s -> _get s x y = Some m ->
  chars (output s) !! cell_pos s x y = Some (glyph (view m)).
Proof.
  intros Hwf Hok Hg. pose proof (_get_in_board _ _ _ _ Hg) as Hin.
  apply in_board_spec in Hin. unfold _get in Hg.
  rewrite (proj2 (in_board_spec s x y) Hin) in Hg.
  destruct (grid_get_inv _ _ _ _ Hg) as (r & Hr & Hm).
  pose proof (marks_ok_rows s Hwf Hok) as Hall. rewrite Forall_lookup in Hall.
  rewrite <- (row_lookup r (Z.to_nat x) m) by eauto.
  rewrite <- (py_join_lookup (col_separator s) (row_str <$> board s)
               (2 * Z.to_nat (w s) + 1) (Z.to_nat y) (2 * Z.to_nat x + 1) (row_str r));
    [|by apply rows_length|by rewrite list_lookup_fmap, Hr|lia].
  f_equal. unfold cell_pos. rewrite col_separator_length. nia.
Qed.

(** The length of the picture of a board with at least one row. *)
Lemma output_length s :
  wf s -> marks_ok s -> 0 <= w s -> 0 < h s ->
  Z.of_nat (String.length (output s)) = h s * (4 * w s + 4) - (2 * w s + 3).
Proof.
  intros Hwf Hok Hw Hh. pose proof Hwf as [Hlen _].
  pose proof (py_join_length (col_separator s) _ _ (rows_length s Hwf Hok)) as Hj.
  rewrite length_fmap, Hlen, col_separator_length in Hj.
  unfold output. destruct (board s); [simpl in Hlen; lia|].
  specialize (Hj ltac:(done)). nia.
Qed.
End faithful.

(** C29.  On a well-formed board whose marks are marks of the game, the
    text that [output] returns shows every cell at the position
    [y * (4 * w + 4) + 2 * x + 1], as the character of what the player
    may see of it: a hidden mine as an unrevealed cell, a wrong flag as a
    flag, a wrong question mark as a question mark, any other mark as
    itself. *)
Theorem output_cell (s : MineModelBoard) (x y : Z) (m : mark) :
  wf s -> marks_ok s -> _get s x y = Some m ->
  String.get (cell_pos s x y) (output s) = Some (glyph (view m)) /\
  view m = match m with mX => mSpace | mW => mF | mBang => mQ | _ => m end.
Proof.
  intros Hwf Hok Hg. split; [|apply view_cases].
  rewrite <- (output_lookup s x y m Hwf Hok Hg). generalize (cell_pos s x y).
  generalize (output s). clear. intros t. induction t as [|c t IH]; intros [|n]; simpl; auto.
Qed.

Lemma output_cell_witness :
  String.get 19 (output board_3x3_wrong) = Some "1"%char /\
  view (mNum 1) = mNum 1.
Proof.
  apply (output_cell board_3x3_wrong 1 1 (mNum 1));
    [by apply wf_b_sound|by apply marks_ok_b_sound|reflexivity].
Defined.

(** C38.  A right click does not tell the player where a mine is: when two
    boards look alike, they look alike after a right click on the same
    coordinates, and so their texts stay equal. *)
Theorem right_click_blind (s s' : MineModelBoard) (x y : Z) :
  wf s -> wf s' -> same_view s s' ->
  same_view (right_click s x y) (right_click s' x y) /\
  output (right_click s x y) = output (right_click s' x y).
Proof.
  intros Hwf Hwf' (Ew & Eh & Hv).
  assert (same_view (right_click s x y) (right_click s' x y)) as Hsame.
  { unfold same_view. destruct (right_click_fields s x y) as (-> & -> & _).
    destruct (right_click_fields s' x y) as (-> & -> & _).
    split_and!; [done..|]. intros i j. rewrite !right_click_get.
    case_decide; [|done]. specialize (Hv x y).
    destruct (_get s x y), (_get s' x y); simplify_eq/=; [|done].
    f_equal. by apply view_next_mark. }
  split; [done|]. by apply same_view_output; [apply right_click_wf..|].
Qed.

Lemma right_click_blind_witness :
  let s' := with_board board_3x3 (replicate 3 (replicate 3 mSpace)) in
  same_view (right_click board_3x3 2 2) (right_click s' 2 2) /\
  output (right_click board_3x3 2 2) = output (right_click s' 2 2).
Proof.
  apply right_click_blind; [by apply wf_b_sound..|].
  by apply same_view_boards.
Defined.

(** C17.  Two well-formed boards of the same dimensions whose marks are
    marks of the game have the same text exactly when the player sees the
    same on every cell: [output] shows all of the player's view, and it
    does not tell a hidden mine from an unrevealed cell, a flag on a mine
    from a wrong flag, or a question mark on a mine from a wrong one. *)
Theorem output_faithful (s s' : MineModelBoard) :
  wf s -> wf s' -> marks_ok s -> marks_ok s' -> w s = w s' -> h s = h s' ->
  output s = output s' <->
  forall x y, view <$> _get s x y = view <$> _get s' x y.
Proof.
  intros Hwf Hwf' Hok Hok' Ew Eh. split; [|by intros; apply same_view_output].
  intros Eo x y. destruct (in_board s x y) eqn:Hin.
  - assert (in_board s' x y = true) as Hin'
      by (apply in_board_spec; apply in_board_spec in Hin; lia).
    destruct (wf_get s x y Hwf Hin) as [m Hm], (wf_get s' x y Hwf' Hin') as [m' Hm'].
    pose proof (output_lookup s x y m Hwf Hok Hm) as H1.
    pose proof (output_lookup s' x y m' Hwf' Hok' Hm') as H2.
    unfold cell_pos in *. rewrite Eo, Ew, H2 in H1. rewrite Hm, Hm'. simpl.
    f_equal. symmetry. injection H1. apply glyph_inj; apply view_ok; eauto.
  - assert (in_board s' x y = false) as Hin'.
    { apply not_true_iff_false. rewrite in_board_spec, <- Ew, <- Eh, <- in_board_spec.
      by rewrite Hin. }
    by rewrite !_get_out.
Qed.

Lemma output_faithful_witness :
  output board_3x3 = output (with_board board_3x3 (replicate 3 (replicate 3 mSpace)))
  <-> forall x y, view <$> _get board_3x3 x y =
        view <$> _get (with_board board_3x3 (replicate 3 (replicate 3 mSpace))) x y.
Proof.
  apply output_faithful;
    solve [by apply wf_b_sound | by apply marks_ok_b_sound | reflexivity].
Defined.
