(* ===== verification/Sweep.v ===== *)
(** * Sweep: [one_block_sweep] and [left_click]

    [one_block_sweep] (src/mineSweeper.py, lines 209-223) opens one
    unrevealed cell.  A cell with mines around it gets their number; a
    cell with none becomes ["B"] and the procedure calls itself on every
    neighbour, in the order of [_get_neighbors].  [left_click] (lines
    132-143) is the player's entry to it.

    The recursion is modelled with a bound on its depth (see the header of
    [Prelude]).  Every change the procedure makes to the state is one
    [open_step]: an unrevealed cell without a mine receives ["B"] or its
    number and [curr_eval] grows by one.  A run of the procedure is a
    sequence of such steps ([sweep_steps]), so whatever [open_step]
    preserves, the procedure preserves. *)

From stdpp Require Import base tactics option list numbers relations.
From Stdlib Require Import ZArith Lia.
From S2P Require Import Prelude Text Marks Board.

#[local] Open Scope Z_scope.

(** ** The operations *)

Fixpoint one_block_sweep (fuel : nat) (s : MineModelBoard) (x y : Z)
    : result (bool * MineModelBoard) :=
  match fuel with
  | O => OutOfFuel
  | S fuel' =>
      if decide (_get s x y = Some mX) then Ok (true, s)
      else if decide (_get s x y <> Some mSpace) then Ok (false, s)
      else if decide (_get_num_mines s x y = 0%nat) then
        let s := (_set s x y mB).2 in
        let s := with_curr_eval s (curr_eval s + 1) in
        for_until
          (fun '(new_x, new_y, _) s => one_block_sweep fuel' s new_x new_y)
          (_get_neighbors s x y) s
      else
        let s := (_set s x y (mNum (_get_num_mines s x y))).2 in
        Ok (false, with_curr_eval s (curr_eval s + 1))
  end.

Definition left_click (fuel : nat) (s : MineModelBoard) (x y : Z)
    : result (bool * MineModelBoard) :=
  if decide (_get s x y = None) then Ok (false, s)
  else if decide (_get s x y = Some mX) then Ok (true, s)
  else if decide (_get s x y <> Some mSpace) then Ok (false, s)
  else
    (let* (is_lose, s) := one_block_sweep fuel s x y in
     if is_lose then Ok (true, s) else Ok (false, s))%py.

(** ** One opened cell *)

(** The mark an opened cell receives. *)
Definition open_mark (s : MineModelBoard) (x y : Z) : mark :=
  if decide (_get_num_mines s x y = 0%nat) then mB
  else mNum (_get_num_mines s x y).

Definition open_cell (s : MineModelBoard) (x y : Z) : MineModelBoard :=
  let s' := (_set s x y (open_mark s x y)).2 in
  with_curr_eval s' (curr_eval s' + 1).

(** The only way the procedure changes the state. *)
Inductive open_step (s : MineModelBoard) : MineModelBoard -> Prop :=
| OpenStep x y :
    _get s x y = Some mSpace -> open_step s (open_cell s x y).

(** Every opened cell shows the number of mines around it. *)
Definition digits_inv (s : MineModelBoard) : Prop :=
  forall x y m, _get s x y = Some m -> is_revealed m = true -> m = open_mark s x y.

(** The number of unrevealed cells. *)
Definition unrevealed (s : MineModelBoard) : nat := count_marks is_space s.

(** ** Facts about one opened cell *)

Section open_step.
Implicit Types (s : MineModelBoard) (x y i j : Z) (m : mark).

Lemma open_mark_revealed s x y : is_revealed (open_mark s x y) = true.
Proof. unfold open_mark. by case_decide. Qed.

Lemma open_mark_ok s x y : mark_ok (open_mark s x y).
Proof.
  unfold open_mark. case_decide; simpl; [done|].
  pose proof (_get_num_mines_le s x y). lia.
Qed.

Lemma open_cell_get s x y i j :
  _get s x y = Some mSpace ->
  _get (open_cell s x y) i j =
    if decide ((x, y) = (i, j)) then Some (open_mark s x y) else _get s i j.
Proof.
  intros Hs. unfold open_cell.
  change (_get (with_curr_eval ?s' _) i j) with (_get s' i j).
  rewrite _get_set, Hs. repeat case_decide; try done; [tauto|].
  exfalso; eauto.
Qed.

Lemma open_cell_fields s x y :
  h (open_cell s x y) = h s /\ w (open_cell s x y) = w s /\
  num_mine (open_cell s x y) = num_mine s /\
  curr_mine (open_cell s x y) = curr_mine s /\
  curr_eval (open_cell s x y) = curr_eval s + 1.
Proof.
  unfold open_cell; simpl.
  destruct (_set_fields s x y (open_mark s x y)) as (?&?&?&?&->). done.
Qed.

Lemma open_cell_count p s x y :
  _get s x y = Some mSpace ->
  (count_marks p (open_cell s x y) + b2n (p mSpace)
   = count_marks p s + b2n (p (open_mark s x y)))%nat.
Proof. intros Hs. by apply (count_marks_set p s x y mSpace). Qed.

Lemma open_step_same_mines s s' : open_step s s' -> same_mines s s'.
Proof.
  intros [x y Hs]. split. intros i j. unfold mine_at. rewrite open_cell_get by done.
  case_decide; [simplify_eq|done]. rewrite Hs.
  by rewrite (is_revealed_not_mine _ (open_mark_revealed s i j)).
Qed.

Lemma open_step_wf s s' : open_step s s' -> wf s -> wf s'.
Proof. intros [x y Hs] Hwf. by apply (_set_wf s x y (open_mark s x y)). Qed.

Lemma open_step_unrevealed s s' :
  open_step s s' -> S (unrevealed s') = unrevealed s.
Proof.
  intros [x y Hs]. pose proof (open_cell_count is_space s x y Hs) as H.
  unfold unrevealed. destruct (open_mark s x y) eqn:E;
    pose proof (open_mark_revealed s x y) as Hr; rewrite E in Hr;
    try done; simpl in H; lia.
Qed.

(** A cell that is not unrevealed keeps its mark. *)
Lemma open_step_keeps s s' i j :
  open_step s s' -> _get s i j <> Some mSpace -> _get s' i j = _get s i j.
Proof.
  intros [x y Hs] Hne. rewrite open_cell_get by done.
  case_decide; [simplify_eq|done].
Qed.

(** A cell either keeps its mark or was unrevealed and is now open. *)
Lemma open_step_get s s' i j :
  open_step s s' ->
  _get s' i j = _get s i j \/
  (_get s i j = Some mSpace /\ _get s' i j = Some (open_mark s i j)).
Proof.
  intros [x y Hs]. rewrite open_cell_get by done.
  case_decide; [simplify_eq; by right|by left].
Qed.
End open_step.

(** ** A run is a sequence of opened cells *)

Section run.
Implicit Types (s : MineModelBoard) (x y i j : Z) (m : mark).

Lemma one_block_sweep_S fuel s x y :
  one_block_sweep (S fuel) s x y =
    if decide (_get s x y = Some mX) then Ok (true, s)
    else if decide (_get s x y <> Some mSpace) then Ok (false, s)
    else if decide (_get_num_mines s x y = 0%nat) then
      for_until
        (fun '(new_x, new_y, _) s => one_block_sweep fuel s new_x new_y)
        (_get_neighbors (open_cell s x y) x y) (open_cell s x y)
    else Ok (false, open_cell s x y).
Proof.
  simpl. unfold open_cell, open_mark. by repeat case_decide.
Qed.

(** A loop over calls that each open cells one at a time does so too. *)
Lemma loop_steps (f : MineModelBoard -> Z -> Z -> result (bool * MineModelBoard))
    (l : list (Z * Z * mark)) s r s' :
  (forall s x y r s', f s x y = Ok (r, s') -> rtc open_step s s') ->
  for_until (fun '(new_x, new_y, _) s => f s new_x new_y) l s = Ok (r, s') ->
  rtc open_step s s'.
Proof.
  intros Hf Hl.
  eapply (for_until_inv _ (rtc open_step s) (fun _ => True)); [done|done| |exact Hl].
  intros [[i j] m] s1 r1 s2 _ Hs1 Hb. split; [|done].
  etrans; [exact Hs1|]. by eapply Hf.
Qed.

(** Whatever the procedure returns, the state it leaves was reached by
    opening unrevealed cells one at a time. *)
Lemma sweep_steps fuel s x y r s' :
  one_block_sweep fuel s x y = Ok (r, s') -> rtc open_step s s'.
Proof.
  revert s x y r s'. induction fuel as [|fuel IH]; intros s x y r s'; [done|].
  rewrite one_block_sweep_S. repeat case_decide; try (by intros [= <- <-]).
  - intros Hf. eapply rtc_l; [by constructor|]. by eapply loop_steps.
  - intros [= <- <-]. apply rtc_once. by constructor.
Qed.

(** *** What a sequence of opened cells preserves *)

Lemma steps_same_mines s s' : rtc open_step s s' -> same_mines s s'.
Proof.
  induction 1 as [|s1 s2 s3 H12 _ IH]; [done|].
  etrans; [by apply open_step_same_mines|done].
Qed.

Lemma steps_wf s s' : rtc open_step s s' -> wf s -> wf s'.
Proof. induction 1; eauto using open_step_wf. Qed.

Lemma steps_fields s s' :
  rtc open_step s s' ->
  h s' = h s /\ w s' = w s /\ num_mine s' = num_mine s /\
  curr_mine s' = curr_mine s.
Proof.
  induction 1 as [|s1 s2 s3 [x y Hs] _ (->&->&->&->)]; [done|].
  by destruct (open_cell_fields s1 x y) as (?&?&?&?&_).
Qed.

Lemma steps_unrevealed s s' :
  rtc open_step s s' -> (unrevealed s' <= unrevealed s)%nat.
Proof.
  induction 1 as [|s1 s2 s3 H12 _ IH]; [done|].
  apply open_step_unrevealed in H12. lia.
Qed.

(** [curr_eval] grows by the number of cells opened. *)
Lemma steps_eval s s' :
  rtc open_step s s' ->
  curr_eval s' + Z.of_nat (unrevealed s') = curr_eval s + Z.of_nat (unrevealed s).
Proof.
  induction 1 as [|s1 s2 s3 H12 _ IH]; [done|].
  pose proof (open_step_unrevealed _ _ H12). destruct H12 as [x y Hs].
  destruct (open_cell_fields s1 x y) as (_&_&_&_&He). lia.
Qed.

Lemma steps_keeps s s' i j :
  rtc open_step s s' -> _get s i j <> Some mSpace -> _get s' i j = _get s i j.
Proof.
  induction 1 as [|s1 s2 s3 H12 _ IH]; [done|]. intros Hne.
  pose proof (open_step_keeps _ _ i j H12 Hne) as E. rewrite <- E.
  apply IH. congruence.
Qed.

(** The cells that a sequence of steps has opened: each once, as many as
    [curr_eval] has grown and the unrevealed cells have become fewer. *)
Lemma steps_opened s s' :
  rtc open_step s s' ->
  exists cells : list (Z * Z),
    NoDup cells /\
    (forall i j, (i, j) ∈ cells <-> _get s' i j <> _get s i j) /\
    curr_eval s' = curr_eval s + Z.of_nat (length cells) /\
    unrevealed s = (unrevealed s' + length cells)%nat.
Proof.
  induction 1 as [s|s s1 s' H1 Hst (cells & Hnd & Hin & He & Hu)].
  { exists []. split_and!; [constructor| |simpl; lia|simpl; lia].
    intros i j. by rewrite elem_of_nil. }
  pose proof (open_step_unrevealed _ _ H1) as Hu1. destruct H1 as [x y Hs].
  destruct (open_cell_fields s x y) as (_ & _ & _ & _ & He1).
  pose proof (open_cell_get s x y) as Hget.
  assert (_get s' x y = Some (open_mark s x y)) as Hxy.
  { rewrite (steps_keeps _ _ x y Hst); rewrite Hget, decide_True by done; [done|].
    intros [= E]. by apply (is_revealed_not_space _ (open_mark_revealed s x y)). }
  exists ((x, y) :: cells). split_and!; [constructor; [|done]| |simpl; lia|simpl; lia].
  - rewrite Hin, Hget, decide_True, Hxy by done. tauto.
  - intros i j. rewrite elem_of_cons, Hin, Hget by done.
    case_decide as Hd; [injection Hd as <- <-|].
    + split; [intros _|by left]. rewrite Hxy, Hs. intros [= E].
      by apply (is_revealed_not_space _ (open_mark_revealed s x y)).
    + split; [by intros [?|?]|by right].
Qed.

#[export] Instance open_mark_proper :
  Proper (same_mines ==> eq ==> eq ==> eq) open_mark.
Proof.
  intros s s' H x ? <- y ? <-. unfold open_mark.
  by rewrite (_get_num_mines_same s s').
Qed.

Lemma open_mark_same s s' i j :
  same_mines s s' -> open_mark s' i j = open_mark s i j.
Proof. by intros ->. Qed.

(** A cell either keeps its mark, or it was unrevealed and now shows the
    number of mines around it. *)
Lemma steps_get s s' i j :
  rtc open_step s s' ->
  _get s' i j = _get s i j \/
  (_get s i j = Some mSpace /\ _get s' i j = Some (open_mark s i j)).
Proof.
  induction 1 as [|s1 s2 s3 H12 H23 IH]; [by left|].
  destruct (open_step_get _ _ i j H12) as [E|[E1 E2]].
  - rewrite <- E. destruct IH as [IH|[IH1 IH2]]; [by left|right].
    split; [done|]. rewrite IH2. f_equal.
    by apply open_mark_same, open_step_same_mines.
  - right. split; [done|]. rewrite <- E2. apply steps_keeps; [done|].
    rewrite E2. intros [= E]. by apply (is_revealed_not_space _ (open_mark_revealed s1 i j)).
Qed.

(** The count of a class of marks that contains neither the unrevealed
    mark nor an opened one does not change. *)
Lemma steps_count p s s' :
  p mSpace = false -> (forall m, is_revealed m = true -> p m = false) ->
  rtc open_step s s' -> count_marks p s' = count_marks p s.
Proof.
  intros Hsp Hrev. induction 1 as [|s1 s2 s3 [x y Hs] _ IH]; [done|].
  pose proof (open_cell_count p s1 x y Hs) as H.
  rewrite Hsp, (Hrev _ (open_mark_revealed s1 x y)) in H. simpl in H. lia.
Qed.

Lemma steps_revealed s s' :
  rtc open_step s s' ->
  (count_marks is_revealed s' + unrevealed s'
   = count_marks is_revealed s + unrevealed s)%nat.
Proof.
  induction 1 as [|s1 s2 s3 H12 _ IH]; [done|].
  pose proof (open_step_unrevealed _ _ H12). destruct H12 as [x y Hs].
  pose proof (open_cell_count is_revealed s1 x y Hs) as H'.
  rewrite open_mark_revealed in H'. simpl in H'. lia.
Qed.

Lemma steps_marks_ok s s' : rtc open_step s s' -> marks_ok s -> marks_ok s'.
Proof.
  intros Hst Hok i j m Hm.
  destruct (steps_get _ _ i j Hst) as [E|[_ E]]; rewrite E in Hm.
  - by eapply Hok.
  - injection Hm as <-. apply open_mark_ok.
Qed.

Lemma steps_flag_inv s s' : rtc open_step s s' -> flag_inv s -> flag_inv s'.
Proof.
  intros Hst. unfold flag_inv. destruct (steps_fields _ _ Hst) as (_&_&->&->).
  by rewrite (steps_count is_F s s' eq_refl is_revealed_not_F Hst).
Qed.

Lemma steps_mines_inv s s' : rtc open_step s s' -> mines_inv s -> mines_inv s'.
Proof.
  intros Hst. unfold mines_inv. destruct (steps_fields _ _ Hst) as (_&_&->&_).
  by rewrite (steps_count is_mine s s' eq_refl is_revealed_not_mine Hst).
Qed.

Lemma steps_digits_inv s s' : rtc open_step s s' -> digits_inv s -> digits_inv s'.
Proof.
  intros Hst Hd i j m Hm Hr.
  rewrite <- (steps_same_mines _ _ Hst).
  destruct (steps_get _ _ i j Hst) as [E|[_ E]]; rewrite E in Hm;
    [by apply Hd|congruence].
Qed.

Lemma steps_eval_inv s s' : rtc open_step s s' -> eval_inv s -> eval_inv s'.
Proof.
  intros Hst. unfold eval_inv. pose proof (steps_eval _ _ Hst).
  pose proof (steps_revealed _ _ Hst). lia.
Qed.
End run.

(** ** Termination and the role of the fuel *)

Section fuel.
Implicit Types (s : MineModelBoard) (x y i j : Z) (m : mark).

(** A budget above the number of unrevealed cells is never exhausted. *)
Lemma sweep_total fuel s x y :
  (unrevealed s < fuel)%nat ->
  exists r s', one_block_sweep fuel s x y = Ok (r, s').
Proof.
  revert s x y. induction fuel as [|fuel IH]; intros s x y Hf; [lia|].
  rewrite one_block_sweep_S. repeat case_decide; eauto.
  assert (_get s x y = Some mSpace) as Hs
    by (by destruct (decide (_get s x y = Some mSpace))).
  pose proof (open_step_unrevealed _ _ (OpenStep s x y Hs)) as Hu.
  apply (for_until_returns _ (fun s2 => (unrevealed s2 < fuel)%nat)); [lia|].
  intros [[i j] m] s2 _ H2. destruct (IH s2 i j H2) as (r & s3 & E).
  exists r, s3. split; [done|].
  apply sweep_steps, steps_unrevealed in E. lia.
Qed.

(** The procedure raises no exception. *)
Lemma sweep_no_raise fuel s x y e : one_block_sweep fuel s x y <> Raise e.
Proof.
  revert s x y. induction fuel as [|fuel IH]; intros s x y; [done|].
  rewrite one_block_sweep_S. repeat case_decide; try done.
  apply for_until_no_raise. by intros [[i j] m] s1 _.
Qed.

(** More fuel does not change an answer. *)
Lemma sweep_fuel_mono fuel fuel' s x y r :
  (fuel <= fuel')%nat ->
  one_block_sweep fuel s x y = Ok r -> one_block_sweep fuel' s x y = Ok r.
Proof.
  revert fuel' s x y r. induction fuel as [|fuel IH]; intros fuel' s x y r Hle; [done|].
  destruct fuel' as [|fuel']; [lia|]. rewrite !one_block_sweep_S.
  repeat case_decide; try done. apply for_until_ext.
  intros [[i j] m] s2 r2 _. apply IH. lia.
Qed.
End fuel.


(** ** What a run answers and where it stops *)

Section answer.
Implicit Types (s : MineModelBoard) (x y i j : Z) (m : mark).

Lemma mine_at_false_not_X s i j : mine_at s i j = false -> _get s i j <> Some mX.
Proof. unfold mine_at. intros H E. by rewrite E in H. Qed.

(** Started on anything but an unflagged mine, the procedure never reports
    a loss: the recursion only enters neighbours of a cell with no mine
    around it. *)
Lemma sweep_never_loses fuel s x y r s' :
  _get s x y <> Some mX ->
  one_block_sweep fuel s x y = Ok (r, s') -> r = false.
Proof.
  revert s x y r s'. induction fuel as [|fuel IH]; intros s x y r s' HX; [done|].
  rewrite one_block_sweep_S. repeat case_decide; try (by intros [= <- <-]).
  pose proof (OpenStep s x y ltac:(done)) as Hstep. intros Hf.
  eapply (for_until_inv _ (rtc open_step (open_cell s x y)) (fun r => r = false));
    [done|done| |exact Hf].
  intros [[i j] m] s1 r1 s2 Hin Hs1 Hb. apply elem_of_neighbors in Hin as [Hin _].
  split; [etrans; [exact Hs1|by eapply sweep_steps]|].
  eapply IH; [|exact Hb]. apply mine_at_false_not_X.
  rewrite <- (steps_same_mines _ _ Hs1), <- (open_step_same_mines _ _ Hstep).
  by eapply _get_num_mines_zero.
Qed.

(** When the procedure returns, the cell it was called on is no longer
    unrevealed. *)
Lemma sweep_target fuel s x y r s' :
  one_block_sweep fuel s x y = Ok (r, s') -> _get s' x y <> Some mSpace.
Proof.
  destruct fuel as [|fuel]; [done|]. intros Hf.
  pose proof (sweep_steps _ _ _ _ _ _ Hf) as Hst. revert Hf.
  rewrite one_block_sweep_S. repeat case_decide; try (intros [= <- <-]; congruence).
  - intros Hf. eapply loop_steps in Hf; [|apply sweep_steps].
    rewrite (steps_keeps _ _ x y Hf); rewrite open_cell_get by done;
      rewrite decide_True by done; intros [= E];
      by apply (is_revealed_not_space _ (open_mark_revealed s x y)).
  - intros [= <- <-]. rewrite open_cell_get, decide_True by done. intros [= E].
    by apply (is_revealed_not_space _ (open_mark_revealed s x y)).
Qed.
End answer.

(** ** [left_click] *)

Section left_click.
Implicit Types (s : MineModelBoard) (x y i j : Z) (m : mark).

Lemma left_click_steps fuel s x y r s' :
  left_click fuel s x y = Ok (r, s') -> rtc open_step s s'.
Proof.
  unfold left_click. repeat case_decide; try (by intros [= <- <-]).
  destruct (one_block_sweep fuel s x y) as [[[] s1]| |] eqn:E; simpl; try done;
    intros [= <- <-]; by eapply sweep_steps.
Qed.

Lemma left_click_total fuel s x y :
  (unrevealed s < fuel)%nat -> exists r s', left_click fuel s x y = Ok (r, s').
Proof.
  intros Hf. unfold left_click. repeat case_decide; eauto.
  destruct (sweep_total fuel s x y Hf) as ([] & s' & ->); simpl; eauto.
Qed.

Lemma left_click_no_raise fuel s x y e : left_click fuel s x y <> Raise e.
Proof.
  unfold left_click. repeat case_decide; try done.
  pose proof (sweep_no_raise fuel s x y e).
  by destruct (one_block_sweep fuel s x y) as [[[] ?]| |].
Qed.

Lemma left_click_fuel_mono fuel fuel' s x y r :
  (fuel <= fuel')%nat ->
  left_click fuel s x y = Ok r -> left_click fuel' s x y = Ok r.
Proof.
  intros Hle. unfold left_click. repeat case_decide; try done.
  destruct (one_block_sweep fuel s x y) as [r1| |] eqn:E; simpl; try done.
  by rewrite (sweep_fuel_mono _ _ _ _ _ _ Hle E).
Qed.
End left_click.

(** ** Fuel, loss and the counter *)

(** With any two budgets above the number of unrevealed cells the
    procedure computes the same answer and the same state: the fuel of the
    model is not observable. *)
Theorem sweep_fuel_indep (fuel fuel' : nat) (s : MineModelBoard) (x y : Z) :
  (unrevealed s < fuel)%nat -> (unrevealed s < fuel')%nat ->
  one_block_sweep fuel s x y = one_block_sweep fuel' s x y.
Proof.
  intros Hf Hf'. destruct (sweep_total _ s x y Hf) as (r & s' & E).
  destruct (sweep_total _ s x y Hf') as (r' & s'' & E').
  destruct (decide (fuel <= fuel')%nat).
  - rewrite E. symmetry. by eapply sweep_fuel_mono.
  - rewrite E'. eapply sweep_fuel_mono; [|done]. lia.
Qed.

Lemma sweep_fuel_indep_witness :
  one_block_sweep 9 board_3x3 0 0 = one_block_sweep 20 board_3x3 0 0.
Proof. apply sweep_fuel_indep; vm_compute; lia. Defined.

(** C10.  [left_click] reports a loss exactly when the cell holds an
    unflagged mine, and then it has changed nothing; on a flagged or
    question-marked mine, on an opened cell and outside the board it
    reports no loss. *)
Theorem left_click_lose (fuel : nat) (s : MineModelBoard) (x y : Z)
    (r : bool) (s' : MineModelBoard) :
  left_click fuel s x y = Ok (r, s') ->
  (r = true <-> _get s x y = Some mX) /\ (r = true -> s' = s).
Proof.
  unfold left_click. repeat case_decide; try (intros [= <- <-]; split; [split|]; congruence).
  destruct (one_block_sweep fuel s x y) as [[r1 s1]| |] eqn:E; simpl; [|done..].
  rewrite (sweep_never_loses _ _ _ _ _ _ ltac:(done) E). intros [= <- <-].
  split; [split|]; congruence.
Qed.

Lemma left_click_lose_witness :
  (true = true <-> _get board_3x3 2 2 = Some mX) /\ (true = true -> board_3x3 = board_3x3).
Proof. by apply (left_click_lose 1 board_3x3 2 2). Defined.

(** [curr_eval] grows by the number of cells a run has opened:
    the cells that were unrevealed before and are not after. *)
Theorem sweep_eval (fuel : nat) (s : MineModelBoard) (x y : Z)
    (r : bool) (s' : MineModelBoard) :
  one_block_sweep fuel s x y = Ok (r, s') ->
  curr_eval s' = curr_eval s + (Z.of_nat (unrevealed s) - Z.of_nat (unrevealed s')) /\
  (unrevealed s' <= unrevealed s)%nat.
Proof.
  intros Hrun%sweep_steps. pose proof (steps_eval _ _ Hrun).
  pose proof (steps_unrevealed _ _ Hrun). lia.
Qed.

Lemma sweep_eval_witness :
  curr_eval (open_cell board_3x3 1 1)
  = curr_eval board_3x3
    + (Z.of_nat (unrevealed board_3x3) - Z.of_nat (unrevealed (open_cell board_3x3 1 1))) /\
  (unrevealed (open_cell board_3x3 1 1) <= unrevealed board_3x3)%nat.
Proof. by apply (sweep_eval 1 board_3x3 1 1 false). Defined.
