(* ===== verification/Depth.v ===== *)
(** * Depth: how deep [one_block_sweep] recurses

    [Sweep] shows that a recursion budget above the number of unrevealed
    cells is enough for [one_block_sweep].  This file shows that nothing
    less is enough in general: on a board of one row without mines the
    sweep started at one end opens the cells one inside the other, and
    the call on the last cell still visits the cell before it, so that
    the nested calls are one more than the cells.  The depth of the
    recursion is thus linear in the size of the board (src/mineSweeper.py,
    line 218). *)

From stdpp Require Import base tactics option list numbers relations.
From Stdlib Require Import ZArith Lia.
From S2P Require Import Prelude Text Marks Board Sweep.

#[local] Open Scope Z_scope.

(** ** Strips *)

(** A board of one row of [n] unrevealed cells without a mine. *)
Definition strip (n : nat) : MineModelBoard :=
  mkBoard 1 (Z.of_nat n) 0 [replicate n mSpace] 0 0.

(** A state that looks like a strip of [n] cells whose first [k] cells are
    opened. *)
Definition strip_like (n k : Z) (s : MineModelBoard) : Prop :=
  forall i j,
    _get s i j =
      if decide (0 <= i < n /\ j = 0)
      then Some (if decide (i < k) then mB else mSpace)
      else None.

Section strips.
Implicit Types (s : MineModelBoard) (n k a : Z) (fuel : nat).

Lemma strip_strip_like (m : nat) : strip_like (Z.of_nat m) 0 (strip m).
Proof.
  intros i j. unfold _get, in_board, strip. simpl.
  destruct (decide (0 <= i < Z.of_nat m /\ j = 0)) as [[Hi ->]|Hn].
  - rewrite !(proj2 (Z.leb_le _ _)), !(proj2 (Z.ltb_lt _ _)) by lia. simpl.
    unfold grid_get. simpl. rewrite lookup_replicate_2 by lia.
    by rewrite decide_False by lia.
  - destruct (_ && _) eqn:E; [|done]. exfalso. apply Hn.
    rewrite !andb_true_iff, !Z.leb_le, !Z.ltb_lt in E. lia.
Qed.

Lemma strip_get_off n k s i j : strip_like n k s -> j <> 0 -> _get s i j = None.
Proof. intros Hs Hj. rewrite Hs. by rewrite decide_False by tauto. Qed.

Lemma strip_get_row n k s i :
  strip_like n k s ->
  _get s i 0 =
    if decide (0 <= i < n) then Some (if decide (i < k) then mB else mSpace)
    else None.
Proof. intros Hs. rewrite Hs. repeat case_decide; (done || tauto). Qed.

(** The neighbours of a cell of a strip: the cell before and the cell
    after it. *)
Lemma strip_neighbors n k s a :
  strip_like n k s ->
  _get_neighbors s a 0 =
    (if decide (0 <= a - 1 < n)
     then [(a - 1, 0, if decide (a - 1 < k) then mB else mSpace)] else []) ++
    (if decide (0 <= a + 1 < n)
     then [(a + 1, 0, if decide (a + 1 < k) then mB else mSpace)] else []).
Proof.
  intros Hs. unfold _get_neighbors, neighbor_coords. cbn [flat_map].
  rewrite !(strip_get_off n k s _ (0 - 1)), !(strip_get_off n k s _ (0 + 1)) by done.
  rewrite !(strip_get_row n k s) by done.
  repeat case_decide; reflexivity.
Qed.

Lemma strip_no_mines n k s a : strip_like n k s -> _get_num_mines s a 0 = 0%nat.
Proof.
  intros Hs. unfold _get_num_mines. rewrite (strip_neighbors n k s a Hs).
  repeat case_decide; reflexivity.
Qed.

(** Opening the first unrevealed cell of a strip. *)
Lemma strip_open n k s :
  strip_like n k s -> 0 <= k < n -> strip_like n (k + 1) (open_cell s k 0).
Proof.
  intros Hs Hk i j.
  assert (_get s k 0 = Some mSpace) as Hg
    by (rewrite (strip_get_row n k s), decide_True, decide_False by (done || lia); done).
  rewrite open_cell_get by done.
  replace (open_mark s k 0) with mB
    by (unfold open_mark; by rewrite (strip_no_mines n k s k Hs)).
  rewrite Hs. repeat case_decide; simplify_eq; try (done || lia || tauto).
  match goal with
  | Hne : (k, 0) <> _, Hin : _ /\ _ = 0 |- _ =>
      destruct Hin as [? ->]; destruct Hne; f_equal; lia
  end.
Qed.
End strips.

(** ** The depth of the sweep on a strip *)

Section depth.
Implicit Types (s : MineModelBoard) (n k a : Z) (fuel : nat).

(** A call on an opened cell returns at once, if it has any budget. *)
Lemma sweep_opened n k s a fuel :
  strip_like n k s -> 0 <= a < k -> a < n ->
  one_block_sweep fuel s a 0 =
    match fuel with O => OutOfFuel | S _ => Ok (false, s) end.
Proof.
  intros Hs Ha Hn. destruct fuel as [|fuel]; [done|].
  assert (_get s a 0 = Some mB) as Hg
    by (rewrite (strip_get_row n k s), !decide_True by (done || lia); done).
  rewrite one_block_sweep_S, Hg. by rewrite decide_False, decide_True.
Qed.

(** With a budget of no more than the unrevealed cells, the sweep of the
    rest of a strip runs out of it. *)
Lemma sweep_strip_out fuel : forall n k s,
  strip_like n k s -> 0 <= k < n -> 2 <= n -> Z.of_nat fuel <= n - k ->
  one_block_sweep fuel s k 0 = OutOfFuel.
Proof.
  induction fuel as [|fuel IH]; intros n k s Hs Hk Hn Hf; [done|].
  assert (_get s k 0 = Some mSpace) as Hg
    by (rewrite (strip_get_row n k s), decide_True, decide_False by (done || lia); done).
  rewrite one_block_sweep_S, Hg, decide_False, decide_False by (done || tauto).
  rewrite (strip_no_mines n k s k Hs), decide_True by done.
  pose proof (strip_open n k s Hs Hk) as Hs1.
  rewrite (strip_neighbors n (k + 1) _ k Hs1).
  assert (forall s1, strip_like n (k + 1) s1 -> k + 1 < n ->
            one_block_sweep fuel s1 (k + 1) 0 = OutOfFuel) as Hnext
    by (intros s1 H1 Hlt; apply (IH n (k + 1)); (done || lia)).
  destruct (decide (0 <= k - 1 < n)) as [Hl|Hl];
    destruct (decide (0 <= k + 1 < n)) as [Hr|Hr]; simpl; try lia.
  - rewrite (sweep_opened n (k + 1)) by (done || lia).
    destruct fuel; [done|]. by rewrite Hnext by (done || lia).
  - rewrite (sweep_opened n (k + 1)) by (done || lia).
    destruct fuel; [done|lia].
  - by rewrite Hnext by (done || lia).
Qed.
End depth.

(** C22.  The recursion of [one_block_sweep] is as deep as the board is
    large: on a strip of [n >= 2] unrevealed cells without a mine, the
    sweep started on the first cell exhausts a budget of [n] nested calls
    and returns with a budget of [n + 1], the bound that [Sweep] proves
    sufficient on every board. *)
Theorem sweep_depth_tight (n : nat) :
  (2 <= n)%nat ->
  unrevealed (strip n) = n /\
  one_block_sweep n (strip n) 0 0 = OutOfFuel /\
  exists s', one_block_sweep (S n) (strip n) 0 0 = Ok (false, s').
Proof.
  intros Hn.
  assert (unrevealed (strip n) = n) as Hu.
  { unfold unrevealed, count_marks, strip, grid_count. simpl.
    rewrite Nat.add_0_r. clear. unfold row_count.
    induction n as [|n IH]; simpl; [done|]. by rewrite IH. }
  split_and!; [done| |].
  - apply (sweep_strip_out n (Z.of_nat n) 0); [apply strip_strip_like|lia..].
  - destruct (sweep_total (S n) (strip n) 0 0 ltac:(lia)) as (r & s' & E).
    exists s'. rewrite E. f_equal. f_equal.
    eapply sweep_never_loses; [|exact E].
    by rewrite (strip_strip_like n 0 0), decide_True by lia.
Qed.

Lemma sweep_depth_tight_witness :
  unrevealed (strip 1000) = 1000%nat /\
  one_block_sweep 1000 (strip 1000) 0 0 = OutOfFuel /\
  exists s', one_block_sweep 1001 (strip 1000) 0 0 = Ok (false, s').
Proof. apply (sweep_depth_tight 1000). lia. Defined.
