(* ===== verification/Flood.v ===== *)
(** * Flood: what [one_block_sweep] opens

    The specification of the flood fill and the proof that the procedure
    of [Sweep] implements it.  The fill started on an unrevealed cell
    [(x, y)] is meant to open the [region] of that cell: the cell itself
    and, from every cell of the region that has no mine around it, the
    unrevealed neighbours.  Cells that carry a flag or a question mark are
    not unrevealed, so the region stops at them.

    [sweep_region] is the refinement theorem: in the state the procedure
    returns, the cells of the region show the number of mines around them
    (["B"] for none) and every other cell has the mark it had.  It rests on
    two facts about the recursion: everything it opens is in the region
    ([sweep_sound]), and a cell it has made ["B"] has no unrevealed
    neighbour left when it returns ([sweep_closed]). *)

From stdpp Require Import base tactics option list numbers relations.
From Stdlib Require Import ZArith Lia.
From S2P Require Import Prelude Text Marks Board Sweep.

#[local] Open Scope Z_scope.

(** ** The specification *)

(** The cells that a fill started on [(x, y)] in state [s] has to open. *)
Inductive region (s : MineModelBoard) (x y : Z) : Z -> Z -> Prop :=
| region_start :
    _get s x y = Some mSpace -> region s x y x y
| region_step i j i' j' :
    region s x y i j ->
    _get_num_mines s i j = 0%nat ->
    (i', j') ∈ neighbor_coords i j ->
    _get s i' j' = Some mSpace ->
    region s x y i' j'.

(** No neighbour of the cell is unrevealed. *)
Definition closed (s : MineModelBoard) (i j : Z) : Prop :=
  forall i' j', (i', j') ∈ neighbor_coords i j -> _get s i' j' <> Some mSpace.

(** The state a fill of the region of [(x, y)] leaves. *)
Definition flood_spec (s : MineModelBoard) (x y : Z) (s' : MineModelBoard) : Prop :=
  forall i j,
    (region s x y i j -> _get s' i j = Some (open_mark s i j)) /\
    (~ region s x y i j -> _get s' i j = _get s i j).

(** ** Regions *)

Section region.
Implicit Types (s : MineModelBoard) (x y i j : Z) (m : mark).

Lemma region_space s x y i j : region s x y i j -> _get s i j = Some mSpace.
Proof. by destruct 1. Qed.

Lemma region_origin s x y i j : region s x y i j -> _get s x y = Some mSpace.
Proof. by induction 1. Qed.

(** An unrevealed cell of a later state was unrevealed before. *)
Lemma steps_space s s' i j :
  rtc open_step s s' -> _get s' i j = Some mSpace -> _get s i j = Some mSpace.
Proof.
  intros Hst Hs'. destruct (steps_get _ _ i j Hst) as [E|[E _]]; congruence.
Qed.

(** The region of a neighbour, taken in a later state, lies in the region
    of a cell with no mine around it. *)
Lemma region_of_neighbor s s2 x y i j a c :
  rtc open_step s s2 ->
  region s x y x y -> _get_num_mines s x y = 0%nat ->
  (i, j) ∈ neighbor_coords x y ->
  region s2 i j a c -> region s x y a c.
Proof.
  intros Hst Hxy H0 Hin. pose proof (steps_same_mines _ _ Hst) as Hm.
  induction 1 as [Hs|a0 c0 a c _ IH Hz Hn Hs].
  - eapply region_step; eauto using steps_space.
  - eapply region_step; [exact IH| |done|by eapply steps_space].
    by rewrite Hm.
Qed.

Lemma closed_steps s s' i j : rtc open_step s s' -> closed s i j -> closed s' i j.
Proof.
  intros Hst Hc i' j' Hin. rewrite (steps_keeps _ _ i' j' Hst); by apply Hc.
Qed.
End region.

(** ** The procedure opens nothing outside the region *)

Section sound.
Implicit Types (s : MineModelBoard) (x y i j : Z) (m : mark).

Lemma sweep_sound fuel s x y r s' i j :
  one_block_sweep fuel s x y = Ok (r, s') ->
  _get s' i j <> _get s i j -> region s x y i j.
Proof.
  revert s x y r s' i j.
  induction fuel as [|fuel IH]; intros s x y r s' i j; [done|].
  rewrite one_block_sweep_S. repeat case_decide; try (by intros [= <- <-]).
  - pose proof (OpenStep s x y ltac:(done)) as Hstep.
    pose proof (region_start s x y ltac:(done)) as Hxy. intros Hf.
    eapply (for_until_inv _
      (fun s2 => rtc open_step s s2 /\
                 forall i j, _get s2 i j <> _get s i j -> region s x y i j)
      (fun _ => True)) in Hf as [[_ Hall] _]; [by apply Hall| |done|].
    + split; [by apply rtc_once|]. intros a c. rewrite open_cell_get by done.
      case_decide; [by simplify_eq|done].
    + intros [[a c] m] s1 r1 s2 Hin [Hs1 Hreg] Hb.
      apply elem_of_neighbors in Hin as [Hin _].
      split; [|done]. split; [etrans; [done|by eapply sweep_steps]|].
      intros a' c' Hne. destruct (decide (_get s1 a' c' = _get s a' c')) as [E|];
        [|by apply Hreg].
      eapply region_of_neighbor; [exact Hs1|done..|].
      eapply IH; [exact Hb|congruence].
  - intros [= <- <-]. rewrite open_cell_get by done.
    case_decide; [simplify_eq|done]. intros _. by constructor.
Qed.
End sound.

(** ** The procedure leaves no unrevealed cell beside a new blank *)

Section closed.
Implicit Types (s : MineModelBoard) (x y i j : Z) (m : mark).

(** What holds while the loop over the neighbours of [(x, y)] runs from
    state [s1]: the blanks made so far are closed, and the neighbours
    already visited are no longer unrevealed. *)
Definition loop_inv (s1 : MineModelBoard) (pre : list (Z * Z * mark))
    (s2 : MineModelBoard) : Prop :=
  rtc open_step s1 s2 /\
  (forall i j, _get s2 i j = Some mB -> _get s1 i j <> Some mB -> closed s2 i j) /\
  (forall b, b ∈ pre -> _get s2 b.1.1 b.1.2 <> Some mSpace).

Lemma loop_inv_step (f : MineModelBoard -> Z -> Z -> result (bool * MineModelBoard))
    s1 pre i j m s2 r s3 :
  (forall s x y r s' i j, f s x y = Ok (r, s') ->
     _get s' i j = Some mB -> _get s i j <> Some mB -> closed s' i j) ->
  (forall s x y r s', f s x y = Ok (r, s') ->
     rtc open_step s s' /\ _get s' x y <> Some mSpace) ->
  loop_inv s1 pre s2 -> f s2 i j = Ok (r, s3) ->
  loop_inv s1 (pre ++ [(i, j, m)]) s3.
Proof.
  intros Hclosed Hf (Hst & Hcl & Hpre) Hb.
  destruct (Hf _ _ _ _ _ Hb) as [Hst3 Htarget].
  split; [by etrans|]. split.
  - intros a c HB Hn1. destruct (decide (_get s2 a c = Some mB)) as [E|E].
    + eapply closed_steps; [done|]. by apply Hcl.
    + by eapply Hclosed.
  - intros b [Hin| ->%list_elem_of_singleton]%elem_of_app; [|done].
    rewrite (steps_keeps _ _ _ _ Hst3); by apply Hpre.
Qed.

Lemma sweep_closed fuel s x y r s' i j :
  one_block_sweep fuel s x y = Ok (r, s') ->
  _get s' i j = Some mB -> _get s i j <> Some mB -> closed s' i j.
Proof.
  revert s x y r s' i j.
  induction fuel as [|fuel IH]; intros s x y r s' i j; [done|]. intros Hrun.
  assert (_get s x y <> Some mX -> r = false) as Hr
    by (intros ?; by eapply sweep_never_loses).
  revert Hrun. rewrite one_block_sweep_S.
  repeat case_decide; try (by intros [= <- <-]).
  - rewrite Hr by done. intros Hf.
    pose proof (open_cell_get s x y) as Hget.
    apply (for_until_all _ (loop_inv (open_cell s x y))) in Hf
      as (Hst & Hcl & Hvis).
    + intros HB HnB. destruct (decide ((x, y) = (i, j))) as [[= <- <-]|Hne];
        [|apply Hcl; [done|]; by rewrite Hget, decide_False].
      intros i' j' Hin.
      destruct (_get (open_cell s x y) i' j') as [m|] eqn:E.
      * apply (Hvis (i', j', m)). by apply elem_of_neighbors.
      * rewrite (steps_keeps _ _ _ _ Hst); by rewrite E.
    + by split_and!; [|intros ? ? ? []|intros ? ?%elem_of_nil].
    + intros pre [[a c] m] s2 s3 _. apply loop_inv_step; [exact IH|].
      intros; split; [by eapply sweep_steps|by eapply sweep_target].
  - intros [= <- <-]. rewrite open_cell_get by done.
    case_decide; [|done]. unfold open_mark. by rewrite decide_False.
Qed.
End closed.

(** ** The refinement theorem *)

Section refinement.
Implicit Types (s : MineModelBoard) (x y i j : Z) (m : mark).

Lemma sweep_complete fuel s x y r s' i j :
  one_block_sweep fuel s x y = Ok (r, s') ->
  region s x y i j -> _get s' i j = Some (open_mark s i j).
Proof.
  intros Hrun. pose proof (sweep_steps _ _ _ _ _ _ Hrun) as Hst.
  assert (forall a c, _get s a c = Some mSpace -> _get s' a c <> Some mSpace ->
                      _get s' a c = Some (open_mark s a c)) as Hopen.
  { intros a c Hs Hn. destruct (steps_get _ _ a c Hst) as [E|[_ E]]; congruence. }
  induction 1 as [Hs|i j i' j' Hreg IH Hz Hin Hs].
  - apply Hopen; [done|]. by eapply sweep_target.
  - apply Hopen; [done|].
    eapply (sweep_closed _ _ _ _ _ _ i j Hrun); [| |done].
    + rewrite IH. unfold open_mark. by rewrite decide_True.
    + by rewrite (region_space _ _ _ _ _ Hreg).
Qed.

(** The procedure implements the specification of the fill, whatever the
    fuel it returned with. *)
Lemma sweep_region fuel s x y r s' :
  one_block_sweep fuel s x y = Ok (r, s') -> flood_spec s x y s'.
Proof.
  intros Hrun i j. split; [by eapply sweep_complete|].
  intros Hn. destruct (decide (_get s' i j = _get s i j)) as [|Hne]; [done|].
  destruct Hn. by eapply sweep_sound.
Qed.
End refinement.

(** ** The flood fill: termination and functional correctness *)

(** C1.  Called with a recursion budget above the number of unrevealed
    cells, [one_block_sweep] returns.  It answers [True] exactly when the
    cell it was called on is an unflagged mine, and the board it leaves is
    the one the specification of the fill describes: every cell of the
    region of the start cell shows the number of mines around it, every
    other cell is unchanged. *)
Theorem sweep_flood (fuel : nat) (s : MineModelBoard) (x y : Z) :
  (unrevealed s < fuel)%nat ->
  exists r s',
    one_block_sweep fuel s x y = Ok (r, s') /\
    (r = true <-> _get s x y = Some mX) /\
    flood_spec s x y s'.
Proof.
  intros Hfuel. destruct (sweep_total fuel s x y Hfuel) as (r & s' & Hrun).
  exists r, s'. split_and!; [done| |by eapply sweep_region].
  destruct fuel as [|fuel]; [done|]. split.
  - intros ->. destruct (decide (_get s x y = Some mX)) as [|Hn]; [done|].
    by pose proof (sweep_never_loses _ _ _ _ _ _ Hn Hrun).
  - intros HX. rewrite one_block_sweep_S, decide_True in Hrun by done. congruence.
Qed.


Lemma sweep_flood_witness :
  exists r s',
    one_block_sweep 9 board_3x3 0 0 = Ok (r, s') /\
    (r = true <-> _get board_3x3 0 0 = Some mX) /\
    flood_spec board_3x3 0 0 s'.
Proof. apply sweep_flood. vm_compute. lia. Defined.

(** C7.  The sweep opens every cell of the region once and counts it:
    with a budget above the number of unrevealed cells, the cells of the
    region of the start cell form a list without repetition, and
    [curr_eval] grows by its length. *)
Theorem sweep_region_size (fuel : nat) (s : MineModelBoard) (x y : Z) :
  (unrevealed s < fuel)%nat ->
  exists r s' (cells : list (Z * Z)),
    one_block_sweep fuel s x y = Ok (r, s') /\
    NoDup cells /\
    (forall i j, (i, j) ∈ cells <-> region s x y i j) /\
    curr_eval s' = curr_eval s + Z.of_nat (length cells).
Proof.
  intros Hfuel. destruct (sweep_total fuel s x y Hfuel) as (r & s' & Hrun).
  destruct (steps_opened _ _ (sweep_steps _ _ _ _ _ _ Hrun))
    as (cells & Hnd & Hin & He & _).
  exists r, s', cells. split_and!; [done..| |done].
  intros i j. rewrite Hin. split; [by eapply sweep_sound|].
  intros Hreg. rewrite (sweep_complete _ _ _ _ _ _ _ _ Hrun Hreg),
    (region_space _ _ _ _ _ Hreg). intros [= E].
  by apply (is_revealed_not_space _ (open_mark_revealed s i j)).
Qed.

Lemma sweep_region_size_witness :
  exists r s' (cells : list (Z * Z)),
    one_block_sweep 9 board_3x3 0 0 = Ok (r, s') /\
    NoDup cells /\
    (forall i j, (i, j) ∈ cells <-> region board_3x3 0 0 i j) /\
    curr_eval s' = curr_eval board_3x3 + Z.of_nat (length cells).
Proof. apply sweep_region_size. vm_compute. lia. Defined.
