(* ===== verification/Invariant.v ===== *)
(** * Invariant: what every state of a game satisfies

    [inv] collects the facts that tie the attributes of [MineModelBoard]
    together: the board has [h] rows of [w] cells, its marks are marks of
    the game, [num_mine] cells cover a mine, [curr_mine] is [num_mine]
    minus the number of ["F"] marks, [curr_eval] is the number of opened
    cells, and every opened cell shows the number of mines around it.
    [inv_b] is a boolean check of it, for concrete states.  [frame] is
    what no operation changes (the dimensions, the number of mines, the
    cells that cover a mine), and [budget] the recursion depth that is
    enough for every sweep on a state of the game.

    Opening cells and flagging preserve [inv] and [frame].  The class
    [Move] is the interface between the operations and what drives the
    game: a relation between states is a move when it preserves both, the
    operations are instances, and so is every sequence of moves.  Under
    [inv] the win test of
    [operation_onestep] is the absence of closed cells without a mine
    ([win_test_closed]) and the counters stay in their ranges
    ([counters_bounds]). *)

From stdpp Require Import base tactics option list numbers relations.
From Stdlib Require Import ZArith Lia.
From S2P Require Import Prelude Text Marks Board Flag Sweep.

#[local] Open Scope Z_scope.

(** The dimensions are not negative. *)
Definition dims_ok (s : MineModelBoard) : Prop := 0 <= w s /\ 0 <= h s.

(** What every state of a game satisfies. *)
Record inv (s : MineModelBoard) : Prop := {
  inv_dims : dims_ok s;
  inv_wf : wf s;
  inv_marks : marks_ok s;
  inv_mines : mines_inv s;
  inv_flag : flag_inv s;
  inv_eval : eval_inv s;
  inv_digits : digits_inv s;
}.

(** What no operation changes: the dimensions, the number of mines and
    the cells that cover a mine. *)
Definition frame (s s' : MineModelBoard) : Prop :=
  h s' = h s /\ w s' = w s /\ num_mine s' = num_mine s /\ same_mines s s'.

#[export] Instance frame_preorder : PreOrder frame.
Proof.
  split; [by intros s|].
  intros s1 s2 s3 (?&?&?&?) (?&?&?&?). split_and!; [congruence..|by etrans].
Qed.

(** The recursion budget covers every sweep on the state: it exceeds the
    number of cells without a mine. *)
Definition budget (fuel : nat) (s : MineModelBoard) : Prop :=
  h s * w s - num_mine s < Z.of_nat fuel.

(** ** The counters of a state that satisfies the invariant *)

Section counters.
Implicit Types (s : MineModelBoard) (x y i j : Z) (m : mark).

(** The cells of the board are its mines, its opened cells and its closed
    cells without a mine. *)
Lemma count_cells s :
  dims_ok s -> wf s ->
  Z.of_nat (count_marks is_mine s) + Z.of_nat (count_marks is_revealed s)
  + Z.of_nat (count_marks is_closed s) = h s * w s.
Proof.
  intros [Hw Hh] Hwf. pose proof (grid_count_true _ _ _ Hwf) as Hall.
  unfold count_marks.
  rewrite (grid_count_split _ (fun m => is_mine m || is_revealed m) is_closed) in Hall
    by (by intros []).
  rewrite (grid_count_split _ is_mine is_revealed) in Hall by (by intros []).
  nia.
Qed.

(** The closed cells without a mine are the cells that are neither mines
    nor opened. *)
Lemma inv_closed s :
  inv s ->
  Z.of_nat (count_marks is_closed s) = h s * w s - num_mine s - curr_eval s.
Proof.
  intros [Hd Hwf _ Hm _ He _]. pose proof (count_cells s Hd Hwf).
  unfold mines_inv, eval_inv in *. lia.
Qed.

Lemma win_test_count s :
  inv s ->
  curr_eval s + num_mine s = h s * w s <-> count_marks is_closed s = 0%nat.
Proof.
  intros [Hd Hwf _ Hm _ He _]. pose proof (count_cells s Hd Hwf).
  unfold mines_inv, eval_inv in *. lia.
Qed.

(** The unrevealed cells are among the cells without a mine that are not
    opened: their number bounds the depth of the recursion of a sweep. *)
Lemma inv_unrevealed s :
  inv s -> Z.of_nat (unrevealed s) <= h s * w s - num_mine s - curr_eval s.
Proof.
  intros [Hd Hwf _ Hm _ He _]. pose proof (count_cells s Hd Hwf).
  assert (unrevealed s <= count_marks is_closed s)%nat
    by (apply grid_count_mono; by intros []).
  unfold mines_inv, eval_inv in *. lia.
Qed.

Lemma budget_frame fuel s s' : frame s s' -> budget fuel s -> budget fuel s'.
Proof. intros (Eh & Ew & En & _). unfold budget. by rewrite Eh, Ew, En. Qed.

Lemma budget_unrevealed fuel s : inv s -> budget fuel s -> (unrevealed s < fuel)%nat.
Proof.
  intros Hinv Hb. pose proof (inv_unrevealed s Hinv).
  assert (0 <= curr_eval s) by (rewrite (inv_eval s Hinv); lia).
  unfold budget in Hb. lia.
Qed.
End counters.

(** ** Opening cells and flagging preserve the invariant *)

Section preserved.
Implicit Types (s : MineModelBoard) (x y i j : Z) (m : mark).

Lemma steps_inv s s' : rtc open_step s s' -> inv s -> inv s'.
Proof.
  intros Hst [[Hw Hh] ? ? ? ? ? ?].
  destruct (steps_fields _ _ Hst) as (Eh & Ew & _).
  split; eauto using steps_wf, steps_marks_ok, steps_mines_inv,
    steps_flag_inv, steps_eval_inv, steps_digits_inv.
  unfold dims_ok. by rewrite Eh, Ew.
Qed.

Lemma right_click_digits_inv s x y : digits_inv s -> digits_inv (right_click s x y).
Proof.
  intros Hd i j m Hm Hr.
  rewrite <- (right_click_same_mines s x y).
  rewrite right_click_get in Hm. case_decide as E; [|by apply Hd].
  injection E as <- <-. destruct (_get s x y) as [m0|] eqn:E0; [|done].
  injection Hm as <-. rewrite next_mark_revealed in Hr.
  rewrite <- (Hd _ _ _ E0 Hr). by destruct m0.
Qed.

Lemma right_click_inv s x y : inv s -> inv (right_click s x y).
Proof.
  intros [[Hw Hh] ? ? ? ? ? ?].
  destruct (right_click_fields s x y) as (Eh & Ew & _).
  split; eauto using right_click_wf, right_click_marks_ok,
    right_click_mines_inv, right_click_flag_inv, right_click_eval_inv,
    right_click_digits_inv.
  unfold dims_ok. by rewrite Eh, Ew.
Qed.

Lemma steps_frame s s' : rtc open_step s s' -> frame s s'.
Proof.
  intros Hst. destruct (steps_fields _ _ Hst) as (? & ? & ? & _).
  by split_and!; [..|apply steps_same_mines].
Qed.

Lemma right_click_frame s x y : frame s (right_click s x y).
Proof.
  destruct (right_click_fields s x y) as (? & ? & ? & _).
  by split_and!; [..|apply right_click_same_mines].
Qed.
End preserved.

(** ** Moves *)

(** A relation between states is a move of the game when it preserves the
    invariant and the frame.  The operations are moves; what drives the
    game (the dispatcher, the console loop, the event loop) is proved for
    moves. *)
Class Move (R : relation MineModelBoard) : Prop :=
  move : forall s s', inv s -> R s s' -> inv s' /\ frame s s'.

Section moves.
Context (R : relation MineModelBoard) `{!Move R}.
Implicit Types (s : MineModelBoard).

Lemma move_inv s s' : inv s -> R s s' -> inv s'.
Proof. intros Hinv HR. by apply (move s s'). Qed.

Lemma move_frame s s' : inv s -> R s s' -> frame s s'.
Proof. intros Hinv HR. by apply (move s s'). Qed.

Lemma move_budget fuel s s' : inv s -> R s s' -> budget fuel s -> budget fuel s'.
Proof. intros Hinv HR. apply budget_frame. by apply move_frame. Qed.

(** A sequence of moves is a move. *)
#[export] Instance rtc_move : Move (rtc R).
Proof.
  intros s s' Hinv Hst. induction Hst as [s|s s1 s2 H1 _ IH]; [done|].
  destruct (move _ _ Hinv H1) as [Hinv1 Hf1].
  destruct (IH Hinv1) as [Hinv2 Hf2]. split; [done|by etrans].
Qed.
End moves.

(** Opening cells is a move, and so is a right click. *)
#[export] Instance open_steps_move : Move (rtc open_step).
Proof. intros s s' Hinv Hst. split; [by eapply steps_inv|by apply steps_frame]. Qed.

#[export] Instance right_click_move :
  Move (fun s s' => exists x y, s' = right_click s x y).
Proof.
  intros s s' Hinv (x & y & ->). split; [by apply right_click_inv|apply right_click_frame].
Qed.

(** ** Deciding the invariant *)

Definition inv_b (s : MineModelBoard) : bool :=
  bool_decide (0 <= w s) && bool_decide (0 <= h s) && wf_b s &&
  marks_ok_b s &&
  bool_decide (Z.of_nat (count_marks is_mine s) = num_mine s) &&
  bool_decide (curr_mine s + Z.of_nat (count_marks is_F s) = num_mine s) &&
  bool_decide (curr_eval s = Z.of_nat (count_marks is_revealed s)) &&
  all_cells s (fun x y m => implb (is_revealed m) (bool_decide (m = open_mark s x y))).

Section decide.
Implicit Types (s : MineModelBoard) (x y i j : Z) (m : mark).

(** The boolean check establishes the invariant. *)
Lemma inv_b_sound s : inv_b s = true -> inv s.
Proof.
  unfold inv_b. rewrite !andb_true_iff, !bool_decide_eq_true.
  intros [[[[[[[Hw Hh] Hwf] Hok] Hm] Hf] He] Hd].
  split; [done|by apply wf_b_sound|by apply marks_ok_b_sound|done..|].
  intros x y m Hg Hr. apply (all_cells_spec _ _ Hd) in Hg.
    rewrite Hr in Hg. by apply bool_decide_eq_true in Hg.
Qed.
End decide.

(** ** The win test and the counters *)

(** In a state that satisfies the invariant the win test of
    [operation_onestep] succeeds exactly when no cell without a mine is
    left closed (unrevealed, wrongly flagged or wrongly question-marked). *)
Theorem win_test_closed (s : MineModelBoard) :
  inv s ->
  curr_eval s + num_mine s = h s * w s <-> count_marks is_closed s = 0%nat.
Proof. apply win_test_count. Qed.

Lemma win_test_closed_witness :
  curr_eval board_3x3 + num_mine board_3x3 = h board_3x3 * w board_3x3
  <-> count_marks is_closed board_3x3 = 0%nat.
Proof. apply win_test_closed. by apply inv_b_sound. Defined.

(** [curr_mine] stays between 0 and the configured number of mines,
    and [curr_eval] between 0 and the number of cells without a mine. *)
Theorem counters_bounds (s : MineModelBoard) :
  inv s ->
  0 <= curr_mine s <= num_mine s /\
  0 <= curr_eval s <= h s * w s - num_mine s.
Proof.
  intros [Hd Hwf _ Hm Hf He _]. pose proof (count_cells s Hd Hwf).
  assert (count_marks is_F s <= count_marks is_mine s)%nat
    by (apply grid_count_mono; by intros []).
  unfold mines_inv, flag_inv, eval_inv in *. lia.
Qed.

Lemma counters_bounds_witness :
  0 <= curr_mine board_3x3_wrong <= num_mine board_3x3_wrong /\
  0 <= curr_eval board_3x3_wrong
    <= h board_3x3_wrong * w board_3x3_wrong - num_mine board_3x3_wrong.
Proof. apply counters_bounds. by apply inv_b_sound. Defined.
