(* ===== verification/Reset.v ===== *)
(** * Reset: construction of a board

    [__init__] (src/mineSweeper.py, lines 76-80) stores the dimensions and
    the number of mines and calls [_reset] (lines 82-89), which builds
    [h] rows of [w] unrevealed cells, draws [num_mine] distinct indices
    below [h * w] with [random.sample] and writes a mine at the cell
    [(idx // h, idx % h)] of each.

    The random source is not modelled: the list that [random.sample]
    returned is an argument of the model, and the theorems assume of it
    what the library promises ([is_sample]: the requested length, no
    repetition, members of the population).  [random.sample] raises
    [ValueError] when the sample is larger than the population or
    negative; this is the only validation the constructor performs. *)

From stdpp Require Import base tactics option list numbers relations.
From Stdlib Require Import ZArith Lia.
From S2P Require Import Prelude Text Marks Board Sweep Invariant.

#[local] Open Scope Z_scope.

(** ** The operations *)

(** What [random.sample(list(range(n)), k)] returns. *)
Definition is_sample (n k : Z) (l : list Z) : Prop :=
  Z.of_nat (length l) = k /\ NoDup l /\ forall idx, idx ∈ l -> 0 <= idx < n.

(** One iteration of [for idx in mines]. *)
Definition place_mine (s : MineModelBoard) (idx : Z) : MineModelBoard :=
  let x := idx `div` h s in
  let y := idx `mod` h s in
  (_set s x y mX).2.

Definition _reset (s : MineModelBoard) (sample : list Z) : result MineModelBoard :=
  let s := with_board s
             (replicate (Z.to_nat (h s)) (replicate (Z.to_nat (w s)) mSpace)) in
  if decide (0 <= num_mine s <= Z.max 0 (h s * w s)) then
    let mines := sample in
    let s := foldl place_mine s mines in
    let s := with_curr_mine s (num_mine s) in
    Ok (with_curr_eval s 0)
  else Raise ValueError.

(** The attributes [board], [curr_mine] and [curr_eval] do not exist before
    [_reset] assigns them; the record holds placeholders until then. *)
Definition __init__ (width height num_mine : Z) (sample : list Z)
    : result MineModelBoard :=
  _reset (mkBoard height width num_mine [] 0 0) sample.

(** ** Placing the mines *)

Section place.
Implicit Types (s : MineModelBoard) (x y i j idx : Z) (m : mark).

(** The state while the mines of [pre] have been placed on a board of
    unrevealed cells: every cell of the board holds a mine or is
    unrevealed, according to its index. *)
Record placed (wd ht : Z) (pre : list Z) (s : MineModelBoard) : Prop := {
  placed_w : w s = wd;
  placed_h : h s = ht;
  placed_wf : wf s;
  placed_get : forall x y, in_board s x y = true ->
    _get s x y = Some (if decide (x * ht + y ∈ pre) then mX else mSpace);
  placed_mines : count_marks is_mine s = length pre;
  placed_F : count_marks is_F s = 0%nat;
  placed_revealed : count_marks is_revealed s = 0%nat;
}.

Lemma place_mine_fields s idx :
  h (place_mine s idx) = h s /\ w (place_mine s idx) = w s /\
  num_mine (place_mine s idx) = num_mine s.
Proof.
  unfold place_mine. by destruct (_set_fields s (idx `div` h s) (idx `mod` h s) mX)
    as (?&?&?&_).
Qed.

(** The cell of an index of the population is on the board, and it is the
    only cell with that index. *)
Lemma index_cell wd ht idx :
  0 <= wd -> 0 <= idx < ht * wd ->
  0 <= idx `div` ht < wd /\ 0 <= idx `mod` ht < ht /\
  forall x y, 0 <= y < ht -> (x * ht + y = idx <-> x = idx `div` ht /\ y = idx `mod` ht).
Proof.
  intros Hw Hidx. assert (0 < ht) as Hh by nia.
  pose proof (Z.mod_pos_bound idx ht Hh). pose proof (Z.div_mod idx ht ltac:(lia)) as Hdm.
  split_and!; try lia.
  - apply Z.div_pos; lia.
  - apply Z.div_lt_upper_bound; lia.
  - intros x y Hy. split.
    + intros <-. rewrite Z.div_add_l, Z.div_small, (Z.add_comm (x * ht)),
        Z.mod_add, Z.mod_small by lia. lia.
    + intros [-> ->]. lia.
Qed.

Lemma placed_step wd ht pre s idx :
  0 <= wd -> 0 <= idx < ht * wd -> idx ∉ pre ->
  placed wd ht pre s -> placed wd ht (pre ++ [idx]) (place_mine s idx).
Proof.
  intros Hw Hidx Hnew [Ew Eh Hwf Hget Hm HF Hr]. subst wd ht.
  destruct (index_cell (w s) (h s) idx Hw Hidx) as (Hx & Hy & Huniq).
  destruct (place_mine_fields s idx) as (Eh' & Ew' & _).
  assert (in_board s (idx `div` h s) (idx `mod` h s) = true) as Hin
    by (apply in_board_spec; lia).
  assert (_get s (idx `div` h s) (idx `mod` h s) = Some mSpace) as Hcell.
  { rewrite Hget by done. rewrite decide_False; [done|].
    by rewrite (proj2 (Huniq _ _ Hy) (conj eq_refl eq_refl)). }
  unfold place_mine in *.
  split; try congruence.
  - by apply _set_wf.
  - intros x y Hxy. rewrite in_board_set in Hxy. rewrite _get_set, Hcell.
    pose proof (proj1 (in_board_spec _ _ _) Hxy) as [_ Hyb].
    rewrite Hget by done. pose proof (Huniq x y Hyb) as Hu.
    assert ((idx `div` h s, idx `mod` h s) = (x, y) /\ is_Some (Some mSpace)
            <-> x * h s + y = idx) as HA.
    { rewrite Hu. split; [by intros [[= <- <-] _]|by intros [-> ->]]. }
    destruct (decide (x * h s + y ∈ pre ++ [idx])) as [Hi|Hi];
      rewrite elem_of_app, list_elem_of_singleton in Hi;
      repeat case_decide; tauto.
  - pose proof (count_marks_set is_mine _ _ _ _ mX Hcell) as Hc.
    rewrite length_app. simpl in *. lia.
  - pose proof (count_marks_set is_F _ _ _ _ mX Hcell) as Hc. simpl in Hc. lia.
  - pose proof (count_marks_set is_revealed _ _ _ _ mX Hcell) as Hc. simpl in Hc. lia.
Qed.

Lemma placed_fold wd ht l : forall pre s,
  0 <= wd -> NoDup (pre ++ l) -> (forall idx, idx ∈ l -> 0 <= idx < ht * wd) ->
  placed wd ht pre s -> placed wd ht (pre ++ l) (foldl place_mine s l).
Proof.
  induction l as [|idx l IH]; intros pre s Hw Hnd Hl Hp; simpl.
  - by rewrite app_nil_r.
  - replace (pre ++ idx :: l) with ((pre ++ [idx]) ++ l) in *
      by (by rewrite <- (assoc_L (++))).
    apply IH; [done..| |].
    + intros i Hi. apply Hl. by right.
    + apply placed_step; [done|apply Hl; by left| |done].
      apply NoDup_app in Hnd as [Hnd _]. apply NoDup_app in Hnd as (_ & Hnd & _).
      intros Hin. apply (Hnd _ Hin). by left.
Qed.

(** The board of unrevealed cells that [_reset] starts from. *)
Lemma placed_empty s :
  placed (w s) (h s) []
    (with_board s (replicate (Z.to_nat (h s)) (replicate (Z.to_nat (w s)) mSpace))).
Proof.
  split; try done.
  - apply grid_wf_replicate.
  - intros x y [Hx Hy]%in_board_spec. unfold _get. simpl in *.
    rewrite (proj2 (in_board_spec (with_board s _) x y)) by done.
    simpl. by rewrite grid_get_replicate by lia.
  - by apply grid_count_replicate.
  - by apply grid_count_replicate.
  - by apply grid_count_replicate.
Qed.
End place.

(** ** The state that [_reset] returns *)

Section reset.
Implicit Types (s : MineModelBoard) (x y i j idx : Z) (m : mark).

Lemma foldl_place_fields l s :
  num_mine (foldl place_mine s l) = num_mine s.
Proof.
  revert s. induction l as [|idx l IH]; intros s; simpl; [done|].
  rewrite IH. by destruct (place_mine_fields s idx) as (_ & _ & ?).
Qed.

(** Assigning the counters does not touch the board. *)
Lemma placed_counters wd ht pre s n e :
  placed wd ht pre s -> placed wd ht pre (with_curr_eval (with_curr_mine s n) e).
Proof. by intros []. Qed.

(** A board with its mines placed and its counters set is a state of the
    game. *)
Lemma placed_inv pre s :
  0 <= w s -> 0 <= h s -> placed (w s) (h s) pre s ->
  num_mine s = Z.of_nat (length pre) -> curr_mine s = num_mine s -> curr_eval s = 0 ->
  inv s.
Proof.
  intros Hw Hh [_ _ Hwf Hget Hm HF Hr] En Ec Ee.
  assert (forall x y m, _get s x y = Some m -> m = mX \/ m = mSpace) as Hmark.
  { intros x y m Hg. pose proof (_get_in_board _ _ _ _ Hg) as Hin.
    rewrite Hget in Hg by done. case_decide; naive_solver. }
  split; [done|done| |unfold mines_inv|unfold flag_inv|unfold eval_inv|]; try lia.
  - intros x y m Hg. by destruct (Hmark _ _ _ Hg) as [-> | ->].
  - intros x y m Hg. by destruct (Hmark _ _ _ Hg) as [-> | ->].
Qed.

(** A sample is not longer than its population. *)
Lemma placed_length wd ht pre s :
  0 <= wd -> 0 <= ht -> placed wd ht pre s -> Z.of_nat (length pre) <= ht * wd.
Proof.
  intros Hw Hh [Ew Eh Hwf _ Hm _ _]. subst wd ht.
  pose proof (count_cells s (conj Hw Hh) Hwf). lia.
Qed.
End reset.

(** ** Construction *)

Section construction.
Implicit Types (s : MineModelBoard) (x y i j idx : Z) (m : mark).

(** The state [_reset] returns on a sample of the indices of the board. *)
Lemma reset_spec s sample :
  0 <= w s -> 0 <= h s -> is_sample (h s * w s) (num_mine s) sample ->
  exists s',
    _reset s sample = Ok s' /\ inv s' /\
    h s' = h s /\ w s' = w s /\ num_mine s' = num_mine s /\
    curr_mine s' = num_mine s /\ curr_eval s' = 0 /\
    forall x y, in_board s' x y = true ->
      _get s' x y = Some (if decide (x * h s + y ∈ sample) then mX else mSpace).
Proof.
  intros Hw Hh (Hlen & Hnd & Hrange).
  pose proof (placed_fold (w s) (h s) sample [] _ Hw Hnd Hrange (placed_empty s)) as Hp.
  simpl in Hp. pose proof (placed_length _ _ _ _ Hw Hh Hp) as Hle.
  apply (placed_counters _ _ _ _ (num_mine s) 0) in Hp.
  unfold _reset. simpl. rewrite decide_True by lia.
  rewrite foldl_place_fields. simpl. eexists. split; [done|].
  pose proof Hp as [Ew Eh _ Hget _ _ _]. simpl in *.
  split_and!; try done; [|by rewrite foldl_place_fields].
  eapply placed_inv; simpl; rewrite ?Ew, ?Eh, ?foldl_place_fields; simpl; done.
Qed.

(** The mines of a new board are the cells whose index was drawn. *)
Lemma init_mine_at width height n sample s x y :
  0 <= width -> 0 <= height -> is_sample (height * width) n sample ->
  __init__ width height n sample = Ok s ->
  mine_at s x y =
    bool_decide (0 <= x < width /\ 0 <= y < height /\ x * height + y ∈ sample).
Proof.
  intros Hw Hh Hs Hinit.
  destruct (reset_spec (mkBoard height width n [] 0 0) sample Hw Hh Hs)
    as (s' & Hr & _ & Eh & Ew & _ & _ & _ & Hget).
  unfold __init__ in Hinit. simpl in *.
  assert (s' = s) as -> by congruence. unfold mine_at.
  destruct (in_board s x y) eqn:Hin.
  - rewrite Hget by done. apply in_board_spec in Hin. rewrite Eh, Ew in Hin.
    by case_decide; [rewrite bool_decide_eq_true_2 by tauto|
                     rewrite bool_decide_eq_false_2 by tauto].
  - rewrite _get_out by done. symmetry. apply bool_decide_eq_false.
    intros (? & ? & _). apply not_true_iff_false in Hin. apply Hin.
    apply in_board_spec. lia.
Qed.
End construction.

(** C6.  Called with dimensions that are not negative and given a sample
    of [num_mine] distinct indices below [height * width], the constructor
    returns a state of the game: it has the dimensions and the number of
    mines it was given, [curr_mine] is the number of mines, nothing is
    opened, the invariant holds, and the cell [(x, y)] covers a mine
    exactly when its index [x * height + y] was drawn; every other cell is
    unrevealed. *)
Theorem init_initial (width height n : Z) (sample : list Z) :
  0 <= width -> 0 <= height -> is_sample (height * width) n sample ->
  exists s,
    __init__ width height n sample = Ok s /\ inv s /\
    h s = height /\ w s = width /\ num_mine s = n /\
    curr_mine s = n /\ curr_eval s = 0 /\
    forall x y, in_board s x y = true ->
      _get s x y = Some (if decide (x * height + y ∈ sample) then mX else mSpace).
Proof. apply (reset_spec (mkBoard height width n [] 0 0)). Qed.

Lemma init_initial_witness :
  exists s,
    __init__ 3 3 2 [8; 3] = Ok s /\ inv s /\
    h s = 3 /\ w s = 3 /\ num_mine s = 2 /\
    curr_mine s = 2 /\ curr_eval s = 0 /\
    forall x y, in_board s x y = true ->
      _get s x y = Some (if decide (x * 3 + y ∈ [8; 3]) then mX else mSpace).
Proof.
  apply (init_initial 3 3 2 [8; 3]); [lia..|].
  split_and!; [done|by apply (bool_decide_unpack _)|].
  intros idx. rewrite !elem_of_cons, elem_of_nil. lia.
Defined.

(** C39.  [_reset] raises exactly when [random.sample] is asked for a
    negative number of mines or for more mines than [range(h * w)] has
    members, and the exception is a [ValueError]: the dimensions themselves
    are never checked. *)
Theorem reset_raises (s : MineModelBoard) (sample : list Z) (e : py_exn) :
  _reset s sample = Raise e <->
  e = ValueError /\ (num_mine s < 0 \/ Z.max 0 (h s * w s) < num_mine s).
Proof.
  unfold _reset. simpl. case_decide; split; [done|lia| |by intros [-> _]].
  intros [= <-]. split; [done|lia].
Qed.

(** The constructor performs no check of its own: two negative dimensions
    and a positive number of mines give a board with no cell whose counter
    announces three mines. *)
Lemma init_negative_dims :
  exists s', __init__ (-2) (-3) 3 [0; 1; 2] = Ok s' /\
             board s' = [] /\ curr_mine s' = 3 /\ ~ inv s'.
Proof.
  eexists. split; [by vm_compute|]. split_and!; [done..|].
  intros [[Hw _] _ _ _ _ _ _]. simpl in Hw. lia.
Qed.
