(* ===== verification/Control.v ===== *)
(** * Control: from a pointer position to an operation

    [MineControlBoard] (src/mineSweeper.py, lines 291-305) extends the
    board with [click]: the position of the pointer on the canvas is
    turned into the coordinates of a block by [_axis_2_grid], and the
    button decides between [left_click] and [right_click].  The
    horizontal position selects the second coordinate of the board and the
    vertical position the first: [click] calls [left_click(y, x)].  The
    answer of [left_click] is dropped.

    The constants are those of the dictionary [show_cfg] (lines 17-25). *)

From stdpp Require Import base tactics option list numbers relations.
From Stdlib Require Import ZArith Lia.
From S2P Require Import Prelude Text Marks Board Flag Sweep Invariant.

#[local] Open Scope Z_scope.

(** ** The configuration of the canvas *)

Definition show_cfg_width : Z := 1200.
Definition show_cfg_height : Z := 750.
Definition show_cfg_topleft : Z * Z := (50, 50).
Definition show_cfg_block_size : Z := 25.
Definition show_cfg_line_width : Z := 1.

(** ** The operations *)

Definition _axis_2_grid (x y : Z) : Z * Z :=
  let x := (x - show_cfg_topleft.1) `div` show_cfg_block_size in
  let y := (y - show_cfg_topleft.2) `div` show_cfg_block_size in
  (x, y).

Definition click (fuel : nat) (s : MineModelBoard) (x y button : Z)
    : result MineModelBoard :=
  let '(x, y) := _axis_2_grid x y in
  if decide (button = 1) then
    (let* (_, s) := left_click fuel s y x in Ok s)%py
  else if decide (button = 3) then Ok (right_click s y x)
  else Ok s.

(** ** What the theorems are stated with *)

(** The pixels of the block of the cell [(x, y)]: the square of
    [block_size] pixels whose corner is [block_size] times the coordinates
    away from [topleft], the vertical offset taken from [x]. *)
Definition in_block (x y px py : Z) : Prop :=
  show_cfg_topleft.2 + y * show_cfg_block_size <= px
    < show_cfg_topleft.2 + (y + 1) * show_cfg_block_size /\
  show_cfg_topleft.1 + x * show_cfg_block_size <= py
    < show_cfg_topleft.1 + (x + 1) * show_cfg_block_size.

(** ** The grid under the pointer *)

Section control.
Implicit Types (s : MineModelBoard) (x y px py button : Z) (m : mark).

(** The block of a cell, with the constants of [show_cfg]. *)
Lemma in_block_spec x y px py :
  in_block x y px py <->
  50 + 25 * y <= px < 75 + 25 * y /\ 50 + 25 * x <= py < 75 + 25 * x.
Proof.
  unfold in_block, show_cfg_topleft, show_cfg_block_size. simpl. lia.
Qed.

Lemma _axis_2_grid_spec px py x y :
  _axis_2_grid px py = (y, x) <-> in_block x y px py.
Proof.
  rewrite in_block_spec. unfold _axis_2_grid, show_cfg_topleft, show_cfg_block_size.
  simpl.
  pose proof (Z.div_mod (px - 50) 25 ltac:(lia)).
  pose proof (Z.mod_pos_bound (px - 50) 25 ltac:(lia)).
  pose proof (Z.div_mod (py - 50) 25 ltac:(lia)).
  pose proof (Z.mod_pos_bound (py - 50) 25 ltac:(lia)).
  split; [intros [= <- <-]; lia|]. intros [Hx Hy]. f_equal; lia.
Qed.

Lemma click_in_block fuel s x y px py button :
  in_block x y px py ->
  click fuel s px py button =
    if decide (button = 1) then
      (let* (_, s) := left_click fuel s x y in Ok s)%py
    else if decide (button = 3) then Ok (right_click s x y)
    else Ok s.
Proof.
  intros Hin. apply _axis_2_grid_spec in Hin. unfold click. by rewrite Hin.
Qed.

(** Every pixel is in the block of one pair of coordinates. *)
Lemma in_block_grid px py :
  in_block (_axis_2_grid px py).2 (_axis_2_grid px py).1 px py.
Proof. apply _axis_2_grid_spec. by destruct (_axis_2_grid px py). Qed.

(** A click opens cells, is a right click, or does nothing. *)
Lemma click_cases fuel s px py button s' :
  click fuel s px py button = Ok s' ->
  rtc open_step s s' \/
  s' = right_click s (_axis_2_grid px py).2 (_axis_2_grid px py).1.
Proof.
  unfold click. destruct (_axis_2_grid px py) as [gx gy]. simpl.
  repeat case_decide; [|intros [= <-]; by right|intros [= <-]; by left].
  destruct (left_click fuel s gy gx) as [[r s1]| |] eqn:E; simpl; [|done..].
  intros [= <-]. left. by eapply left_click_steps.
Qed.

Lemma click_no_raise fuel s px py button e :
  click fuel s px py button <> Raise e.
Proof.
  unfold click. destruct (_axis_2_grid px py) as [gx gy].
  repeat case_decide; try done.
  pose proof (left_click_no_raise fuel s gy gx e).
  destruct (left_click fuel s gy gx) as [[r s1]|e'|]; simpl; congruence.
Qed.

Lemma click_total fuel s px py button :
  (unrevealed s < fuel)%nat -> exists s', click fuel s px py button = Ok s'.
Proof.
  intros Hf. unfold click. destruct (_axis_2_grid px py) as [gx gy].
  repeat case_decide; eauto.
  destruct (left_click_total fuel s gy gx Hf) as (r & s' & ->). simpl. eauto.
Qed.
End control.

(** ** Clicks and the invariant *)

Section invariant.
Implicit Types (s : MineModelBoard) (x y px py button : Z) (m : mark).

(** A click that returned is a move. *)
#[export] Instance click_move :
  Move (fun s s' => exists fuel px py button, click fuel s px py button = Ok s').
Proof.
  intros s s' Hinv (fuel & px & py & button & [Hst| ->]%click_cases).
  - by apply (move (R := rtc open_step)).
  - apply (move (R := fun s s' => exists x y, s' = right_click s x y)); eauto.
Qed.

Lemma click_inv fuel s px py button s' :
  inv s -> click fuel s px py button = Ok s' -> inv s' /\ frame s s'.
Proof. intros Hinv Hc. apply (move s s' Hinv). eauto 6. Qed.

(** The recursion budget that is enough for every click on a state of the
    game: one more than the number of cells without a mine. *)
Lemma click_returns fuel s px py button :
  inv s -> budget fuel s ->
  exists s', click fuel s px py button = Ok s' /\ inv s' /\ frame s s'.
Proof.
  intros Hinv Hf.
  destruct (click_total fuel s px py button (budget_unrevealed _ _ Hinv Hf)) as [s' E].
  exists s'. split; [done|by eapply click_inv].
Qed.
End invariant.

(** ** The pointer and the board *)

(** C30.  A click on a pixel of the block of the cell [(x, y)] is the
    operation on that cell: the first button is [left_click(x, y)] with
    its answer dropped, the third button is [right_click(x, y)], any
    other button does nothing. *)
Theorem click_cell (fuel : nat) (s : MineModelBoard) (x y px py : Z) :
  in_block x y px py ->
  click fuel s px py 1 = (let* (_, s') := left_click fuel s x y in Ok s')%py /\
  click fuel s px py 3 = Ok (right_click s x y) /\
  forall button, button <> 1 -> button <> 3 -> click fuel s px py button = Ok s.
Proof.
  intros Hin. split_and!; [by rewrite (click_in_block _ _ x y)..|].
  intros button H1 H3. rewrite (click_in_block _ _ x y) by done.
  by rewrite !decide_False.
Qed.

Lemma click_cell_witness :
  click 9 board_3x3 80 55 1 =
    (let* (_, s') := left_click 9 board_3x3 0 1 in Ok s')%py /\
  click 9 board_3x3 80 55 3 = Ok (right_click board_3x3 0 1) /\
  forall button, button <> 1 -> button <> 3 ->
    click 9 board_3x3 80 55 button = Ok board_3x3.
Proof. apply click_cell. apply in_block_spec. lia. Defined.

(** A click beside the board (left of or above the first block,
    right of or below the last one) changes nothing, whatever the
    button. *)
Theorem click_outside (fuel : nat) (s : MineModelBoard) (px py button : Z) :
  px < show_cfg_topleft.2 \/ py < show_cfg_topleft.1 \/
  show_cfg_topleft.2 + h s * show_cfg_block_size <= px \/
  show_cfg_topleft.1 + w s * show_cfg_block_size <= py ->
  click fuel s px py button = Ok s.
Proof.
  intros Hout. pose proof (in_block_grid px py) as Hin.
  rewrite (click_in_block _ _ _ _ _ _ _ Hin).
  destruct (_axis_2_grid px py) as [gy gx]. simpl in *.
  assert (in_board s gx gy = false) as Hb.
  { apply not_true_iff_false. rewrite in_board_spec. apply in_block_spec in Hin.
    unfold show_cfg_topleft, show_cfg_block_size in *. simpl in *. nia. }
  assert (left_click fuel s gx gy = Ok (false, s)) as ->
    by (unfold left_click; rewrite (_get_out s gx gy Hb); by case_decide).
  rewrite (right_click_out s gx gy) by (by apply _get_out).
  by repeat case_decide.
Qed.

Lemma click_outside_witness : click 9 board_3x3 30 60 1 = Ok board_3x3.
Proof. apply click_outside. left. unfold show_cfg_topleft. simpl. lia. Defined.

(** C37.  A click with the first button on a hidden mine returns with the
    state unchanged: the loss that [left_click] reports is dropped, and no
    attribute records it. *)
Theorem click_mine_silent (fuel : nat) (s : MineModelBoard) (x y px py : Z) :
  in_block x y px py -> _get s x y = Some mX ->
  left_click fuel s x y = Ok (true, s) /\ click fuel s px py 1 = Ok s.
Proof.
  intros Hin HX.
  assert (left_click fuel s x y = Ok (true, s)) as E.
  { unfold left_click. rewrite HX, decide_False, decide_True; done. }
  split; [done|]. rewrite (click_in_block _ _ x y) by done. by rewrite E.
Qed.

Lemma click_mine_silent_witness :
  left_click 0 board_3x3 2 2 = Ok (true, board_3x3) /\
  click 0 board_3x3 100 100 1 = Ok board_3x3.
Proof. apply click_mine_silent; [apply in_block_spec; lia|reflexivity]. Defined.
