(* ===== verification/View.v ===== *)
(** * View: the picture on the canvas and the event loop

    [MineViewBoard] (src/mineSweeper.py, lines 308-351) draws every cell
    as a square of the canvas and runs the loop that reads the events of
    the window.  Of the pygame calls the model keeps their arguments:
    [_draw_block] returns the rectangle, the colour and the number it
    would draw, [_draw_board] the list of these for the whole board, and
    [screen_run] takes the events that [pygame.event.get] delivers frame
    by frame and returns the pictures drawn and the last state.  [main]
    is the program entry (lines 355-360) on the configuration
    [game_cfg]; the colours are those of [color_cfg] (lines 27-46). *)

From stdpp Require Import base tactics option list numbers relations strings.
From Stdlib Require Import ZArith Lia.
From S2P Require Import Prelude Text Marks Board Flag Output Sweep Invariant.
From S2P Require Import Reset Control.

#[local] Open Scope Z_scope.

(** ** The configuration *)

Definition game_cfg_width : Z := 40.
Definition game_cfg_height : Z := 25.
Definition game_cfg_num_mine : Z := 200.

Definition color : Type := Z * Z * Z.

Definition color_cfg : list (string * color) :=
  [("psudo", (150, 150, 150));
   (" ", (127, 127, 127));
   ("X", (127, 127, 127));
   ("F", (255, 0, 0));
   ("W", (255, 255, 0));
   ("?", (40, 200, 0));
   ("!", (40, 200, 0));
   ("B", (200, 200, 200));
   ("number", (0, 0, 255));
   ("1", (0, 0, 255));
   ("2", (0, 255, 0));
   ("3", (255, 0, 0));
   ("4", (0, 255, 255));
   ("5", (0, 127, 127));
   ("6", (0, 0, 255));
   ("7", (0, 0, 255));
   ("8", (0, 0, 255))].

(** ** The operations *)

(** What [_draw_block] hands to pygame: the rectangle [(left, top, width,
    height)] with its colour, and the text with its colour and position
    when the cell shows a number. *)
Record drawing : Type := mkDrawing {
  rect : Z * Z * Z * Z;
  fill : color;
  label : option (string * color * (Z * Z));
}.

#[export] Instance drawing_eq_dec : EqDecision drawing.
Proof. solve_decision. Defined.

Definition _draw_block (s : MineModelBoard) (x y : Z) (mark : option string)
    : option drawing :=
  let c := match mark with
           | Some c => Some c
           | None => mark_str <$> _get s x y
           end in
  match c with
  | None => None
  | Some c =>
      let top := show_cfg_topleft.1 + x * show_cfg_block_size in
      let left := show_cfg_topleft.2 + y * show_cfg_block_size in
      let fill_size := show_cfg_block_size - show_cfg_line_width in
      let '(number, c) :=
        if py_str_in c "12345678" then (Some c, "B"%string) else (None, c) in
      let color := dict_get color_cfg c (0, 0, 0) in
      Some {| rect := (left, top, fill_size, fill_size);
              fill := color;
              label :=
                match number with
                | Some number =>
                    if py_truthy number then
                      Some (number,
                            dict_get color_cfg number
                              (dict_get color_cfg "number"%string (0, 0, 0)),
                            (left + 6, top + 6))
                    else None
                | None => None
                end |}
  end.

(** [for x in range(self.w): for y in range(self.h): ...]. *)
Definition _draw_board (s : MineModelBoard) : list drawing :=
  x ← seqZ 0 (w s); y ← seqZ 0 (h s); option_list (_draw_block s x y None).

(** The events the loop looks at. *)
Inductive event : Type :=
| QUIT
| MOUSEBUTTONDOWN (pos : Z * Z) (button : Z)
| OtherEvent.

(** The body of [for event in pygame.event.get()]. *)
Definition handle_event (fuel : nat) (ev : event) (s : MineModelBoard)
    : result (bool * MineModelBoard) :=
  match ev with
  | QUIT => Raise SystemExit
  | MOUSEBUTTONDOWN pos button =>
      (let* s := click fuel s pos.1 pos.2 button in Ok (false, s))%py
  | OtherEvent => Ok (false, s)
  end.

(** [screen_run] on the events of the frames that have elapsed: the
    pictures drawn, one per frame, and the state in which the loop waits
    for the next frame; [sys.exit] ends the loop with [SystemExit].  The
    method is modelled as the program entry calls it, with the default
    [fps = 60], for which [time.sleep(1.0 / fps)] returns; [Screen] has
    the argument and its errors. *)
Fixpoint screen_run (fuel : nat) (s : MineModelBoard)
    (frames : list (list event)) : result (list (list drawing) * MineModelBoard) :=
  match frames with
  | [] => Ok ([], s)
  | events :: frames' =>
      let picture := _draw_board s in
      (let* (_, s) := for_until (handle_event fuel) events s in
       let* (pictures, s) := screen_run fuel s frames' in
       Ok (picture :: pictures, s))%py
  end.

(** The program entry: the board of [game_cfg], with the height passed as
    the width and the width as the height, then the event loop. *)
Definition main (fuel : nat) (sample : list Z) (frames : list (list event))
    : result (list (list drawing) * MineModelBoard) :=
  (let* b := __init__ game_cfg_height game_cfg_width game_cfg_num_mine sample in
   screen_run fuel b frames)%py.

(** ** What the theorems are stated with *)

(** The square of the cell [(x, y)] on the canvas. *)
Definition cell_rect (x y : Z) : Z * Z * Z * Z :=
  (50 + 25 * y, 50 + 25 * x, 24, 24).

(** The colour a mark is drawn in. *)
Definition cell_fill (m : mark) : color :=
  match m with
  | mSpace | mX => (127, 127, 127)
  | mF => (255, 0, 0)
  | mW => (255, 255, 0)
  | mQ | mBang => (40, 200, 0)
  | mB | mNum _ => (200, 200, 200)
  end.

(** The number written on an opened cell. *)
Definition cell_label (x y : Z) (m : mark) : option (string * color * (Z * Z)) :=
  match m with
  | mNum n =>
      Some (py_str n, dict_get color_cfg (py_str n) (0, 0, 255),
            (56 + 25 * y, 56 + 25 * x))
  | _ => None
  end.

(** A pixel of a rectangle, as [Rect.collidepoint] decides it. *)
Definition in_rect (r : Z * Z * Z * Z) (px py : Z) : Prop :=
  let '(rl, rt, rw, rh) := r in
  rl <= px < rl + rw /\ rt <= py < rt + rh.

(** The rectangle lies on a canvas of the given size. *)
Definition on_canvas (width height : Z) (r : Z * Z * Z * Z) : Prop :=
  let '(rl, rt, rw, rh) := r in
  0 <= rl /\ rl + rw <= width /\ 0 <= rt /\ rt + rh <= height.

(** ** One block *)

Section block.
Implicit Types (s : MineModelBoard) (x y px py : Z) (m : mark) (d : drawing).

(** What is drawn for a cell of the board. *)
Lemma draw_block_cell s x y m :
  mark_ok m -> _get s x y = Some m ->
  _draw_block s x y None =
    Some (mkDrawing (cell_rect x y) (cell_fill m) (cell_label x y m)).
Proof.
  intros Hok Hg. unfold _draw_block. rewrite Hg. cbn [fmap option_fmap option_map].
  rewrite (digits_in_revealed m Hok).
  pose proof (mark_truthy m) as Ht.
  unfold cell_rect, show_cfg_topleft, show_cfg_block_size, show_cfg_line_width.
  cbn [fst snd]. replace (50 + y * 25) with (50 + 25 * y) by lia.
  replace (50 + x * 25) with (50 + 25 * x) by lia.
  replace (50 + 25 * y + 6) with (56 + 25 * y) by lia.
  replace (50 + 25 * x + 6) with (56 + 25 * x) by lia.
  destruct m; try reflexivity. cbn [mark_str] in *. by rewrite Ht.
Qed.

(** Nothing is drawn outside the board. *)
Lemma draw_block_None s x y :
  _draw_block s x y None = None <-> _get s x y = None.
Proof. unfold _draw_block. destruct (_get s x y); simpl; [|done]. by case_match. Qed.

(** The pixels of the square of a cell are pixels of its block. *)
Lemma in_rect_block x y px py : in_rect (cell_rect x y) px py -> in_block x y px py.
Proof. rewrite in_block_spec. unfold in_rect, cell_rect. lia. Qed.
End block.

(** ** The whole board *)

Section board.
Implicit Types (s : MineModelBoard) (x y px py : Z) (m : mark) (d : drawing).

Lemma draw_block_rect s x y d :
  _draw_block s x y None = Some d -> is_Some (_get s x y) /\ rect d = cell_rect x y.
Proof.
  unfold _draw_block. destruct (_get s x y) as [m|]; [|done].
  cbn [fmap option_fmap option_map].
  unfold cell_rect, show_cfg_topleft, show_cfg_block_size, show_cfg_line_width.
  case_match. intros [= <-]. cbn [rect fst snd]. split; [done|].
  unfold cell_rect, show_cfg_block_size, show_cfg_line_width.
  by rewrite !(Z.mul_comm _ 25).
Qed.

(** The picture of the board holds what is drawn for its cells. *)
Lemma elem_of_draw_board s d :
  d ∈ _draw_board s <-> exists x y, _draw_block s x y None = Some d.
Proof.
  unfold _draw_board. split.
  - intros (x & (y & Hd & _)%list_elem_of_bind & _)%list_elem_of_bind.
    exists x, y. by apply elem_of_option_list.
  - intros (x & y & Hd). destruct (draw_block_rect _ _ _ _ Hd) as [[m Hm] _].
    apply _get_in_board, in_board_spec in Hm.
    apply list_elem_of_bind. exists x. split; [|apply elem_of_seqZ; lia].
    apply list_elem_of_bind. exists y.
    split; [by apply elem_of_option_list|apply elem_of_seqZ; lia].
Qed.

(** One square per cell. *)
Lemma draw_board_length s :
  wf s -> length (_draw_board s) = (Z.to_nat (w s) * Z.to_nat (h s))%nat.
Proof.
  intros Hwf. unfold _draw_board.
  rewrite (bind_length_const _ _ (Z.to_nat (h s))); [by rewrite length_seqZ|].
  intros x Hx%elem_of_seqZ.
  rewrite (bind_length_const _ _ 1); [rewrite length_seqZ; lia|].
  intros y Hy%elem_of_seqZ.
  destruct (wf_get s x y Hwf) as [m Hm]; [apply in_board_spec; lia|].
  destruct (_draw_block s x y None) as [d|] eqn:E; [done|].
  apply draw_block_None in E. congruence.
Qed.

(** The squares of a board that is small enough lie on the canvas. *)
Lemma draw_board_on_canvas s d width height :
  50 + 25 * h s <= width -> 50 + 25 * w s <= height ->
  d ∈ _draw_board s -> on_canvas width height (rect d).
Proof.
  intros Hw Hh (x & y & Hd)%elem_of_draw_board.
  destruct (draw_block_rect _ _ _ _ Hd) as [[m Hm] ->].
  apply _get_in_board, in_board_spec in Hm. unfold on_canvas, cell_rect. lia.
Qed.
End board.

(** ** The event loop *)

Section loop.
Implicit Types (s : MineModelBoard) (fuel : nat) (events : list event)
  (frames : list (list event)).

(** The events of one frame: the loop goes through all of them, unless one
    of them closes the window. *)
Lemma events_run fuel events s :
  inv s -> budget fuel s ->
  ((QUIT ∉ events) /\
   exists s', for_until (handle_event fuel) events s = Ok (false, s') /\
              inv s' /\ frame s s') \/
  (QUIT ∈ events /\ for_until (handle_event fuel) events s = Raise SystemExit).
Proof.
  revert s. induction events as [|ev events IH]; intros s Hinv Hb.
  { left. split; [apply not_elem_of_nil|by exists s]. }
  destruct ev as [|[px py] button|]; [right; split; [by left|done]|..].
  - destruct (click_returns fuel s px py button Hinv Hb) as (s1 & E & Hinv1 & Hf1).
    simpl. rewrite E. simpl.
    destruct (IH s1 Hinv1 (budget_frame _ _ _ Hf1 Hb))
      as [(Hq & s' & -> & ? & ?)|(Hq & ->)]; [left|right].
    + split; [by intros [?|?]%elem_of_cons|]. exists s'. split_and!; [done..|by etrans].
    + split; [by right|done].
  - simpl. destruct (IH s Hinv Hb) as [(Hq & s' & -> & ? & ?)|(Hq & ->)]; [left|right].
    + split; [by intros [?|?]%elem_of_cons|]. by exists s'.
    + split; [by right|done].
Qed.

(** The pictures of a run are pictures of states of the game. *)
Definition pictures_of (s : MineModelBoard) (pictures : list (list drawing)) : Prop :=
  Forall (fun p => exists s1, inv s1 /\ frame s s1 /\ p = _draw_board s1) pictures.

Lemma pictures_of_frame s s' pictures :
  frame s s' -> pictures_of s' pictures -> pictures_of s pictures.
Proof.
  intros Hf Hp. eapply Forall_impl; [exact Hp|]. intros p (s1 & ? & ? & ?).
  exists s1. split_and!; [done| |done]. by etrans.
Qed.

(** The loop draws one picture per frame until an event closes the
    window. *)
Lemma screen_run_spec fuel frames s :
  inv s -> budget fuel s ->
  ((QUIT ∉ concat frames) /\
   exists pictures s', screen_run fuel s frames = Ok (pictures, s') /\
     inv s' /\ frame s s' /\ length pictures = length frames /\
     pictures_of s pictures) \/
  (QUIT ∈ concat frames /\ screen_run fuel s frames = Raise SystemExit).
Proof.
  revert s. induction frames as [|events frames IH]; intros s Hinv Hb.
  { left. split; [apply not_elem_of_nil|]. exists [], s. by split_and!; [..|constructor]. }
  simpl. rewrite elem_of_app.
  destruct (events_run fuel events s Hinv Hb) as [(Hq & s1 & -> & Hinv1 & Hf1)|(Hq & ->)];
    [|right; by split; [left|]].
  simpl. destruct (IH s1 Hinv1 (budget_frame _ _ _ Hf1 Hb))
    as [(Hq' & pics & s' & -> & ? & ? & ? & Hp)|(Hq' & ->)]; [left|right; by split; [right|]].
  split; [tauto|]. exists (_draw_board s :: pics), s'. simpl.
  split_and!; [done..|by etrans|by f_equal|].
  constructor; [by exists s|by eapply pictures_of_frame].
Qed.
End loop.

(** ** The canvas and the pointer *)

(** C18.  What is drawn is what is clicked: a click on a pixel of the
    square that [_draw_block] draws for the cell [(x, y)] is the operation
    on that cell, [left_click(x, y)] for the first button and
    [right_click(x, y)] for the third, and the pixel lies in the square
    of no other cell. *)
Theorem draw_click_agree (fuel : nat) (s : MineModelBoard) (x y px py : Z)
    (d : drawing) :
  _draw_block s x y None = Some d -> in_rect (rect d) px py ->
  click fuel s px py 1 = (let* (_, s') := left_click fuel s x y in Ok s')%py /\
  click fuel s px py 3 = Ok (right_click s x y) /\
  forall x' y' d', _draw_block s x' y' None = Some d' ->
    in_rect (rect d') px py -> (x', y') = (x, y).
Proof.
  intros [_ Hr]%draw_block_rect Hin. rewrite Hr in Hin.
  apply in_rect_block in Hin.
  split_and!; [by rewrite !(click_in_block _ _ x y)..|].
  intros x' y' d' [_ Hr']%draw_block_rect Hin'. rewrite Hr' in Hin'.
  apply in_rect_block, in_block_spec in Hin'. apply in_block_spec in Hin.
  f_equal; lia.
Qed.

Lemma draw_click_agree_witness :
  click 9 board_3x3 80 55 1 =
    (let* (_, s') := left_click 9 board_3x3 0 1 in Ok s')%py /\
  click 9 board_3x3 80 55 3 = Ok (right_click board_3x3 0 1) /\
  forall x' y' d', _draw_block board_3x3 x' y' None = Some d' ->
    in_rect (rect d') 80 55 -> (x', y') = (0, 1).
Proof.
  apply (draw_click_agree 9 board_3x3 0 1 80 55
           (mkDrawing (75, 50, 24, 24) (127, 127, 127) None));
    [reflexivity|]. unfold in_rect. simpl. lia.
Defined.

(** C36.  Two cells that look alike in the text of [output] are drawn
    alike on the canvas, except a flag: a flag on a mine is drawn red and
    a flag on a cell without a mine yellow, so the canvas tells the player
    which flags are wrong. *)
Theorem draw_tells_flags (s s' : MineModelBoard) (x y : Z) (m m' : mark) :
  mark_ok m -> mark_ok m' ->
  _get s x y = Some m -> _get s' x y = Some m' -> view m = view m' ->
  _draw_block s x y None = _draw_block s' x y None <->
  ~ (m = mF /\ m' = mW) /\ ~ (m = mW /\ m' = mF).
Proof.
  intros Hok Hok' Hg Hg' Hv.
  rewrite (draw_block_cell s x y m), (draw_block_cell s' x y m') by done.
  destruct m, m'; simplify_eq/=; split; (done || intuition congruence).
Qed.

Lemma draw_tells_flags_witness :
  _draw_block (right_click board_3x3 2 2) 2 2 None =
    _draw_block (right_click (with_board board_3x3 (replicate 3 (replicate 3 mSpace))) 2 2)
      2 2 None <->
  ~ (mF = mF /\ mW = mW) /\ ~ (mF = mW /\ mW = mF).
Proof. by apply draw_tells_flags. Defined.

(** ** The program *)

(** C12.  The program on the configuration of the source, given a sample
    of 200 distinct indices below 1000 and a recursion budget above 800:
    it runs through the frames, drawing for each a picture of 1000 squares
    that all lie on the canvas of 1200 by 750 pixels, and leaves a state
    that satisfies the invariant, unless an event closes the window, and
    then it ends with [SystemExit].  No other exception is raised and the
    budget is never exhausted. *)
Theorem main_runs (fuel : nat) (sample : list Z) (frames : list (list event)) :
  is_sample (game_cfg_width * game_cfg_height) game_cfg_num_mine sample ->
  (800 < fuel)%nat ->
  ((QUIT ∉ concat frames) /\
   exists pictures s, main fuel sample frames = Ok (pictures, s) /\
     inv s /\ length pictures = length frames /\
     Forall (fun p => length p = 1000%nat /\
               Forall (fun d => on_canvas show_cfg_width show_cfg_height (rect d)) p)
       pictures) \/
  (QUIT ∈ concat frames /\ main fuel sample frames = Raise SystemExit).
Proof.
  intros Hs Hfuel. unfold main.
  destruct (reset_spec (mkBoard game_cfg_width game_cfg_height game_cfg_num_mine [] 0 0)
              sample ltac:(done) ltac:(done) Hs)
    as (b & Hb & Hinv & Eh & Ew & En & _).
  unfold __init__. rewrite Hb. simpl in *.
  unfold game_cfg_width, game_cfg_height, game_cfg_num_mine in Eh, Ew, En.
  assert (budget fuel b) as Hbud by (unfold budget; rewrite Eh, Ew, En; lia).
  destruct (screen_run_spec fuel frames b Hinv Hbud)
    as [(Hq & pics & s & -> & ? & ? & ? & Hp)|(Hq & ->)]; [left|by right].
  split; [done|]. exists pics, s. split_and!; [done..|].
  eapply Forall_impl; [exact Hp|]. intros p (s1 & Hinv1 & (Eh1 & Ew1 & _) & ->).
  split; [rewrite draw_board_length, Eh1, Ew1, Eh, Ew by apply Hinv1; done|].
  apply Forall_forall. intros d Hd.
  eapply draw_board_on_canvas; [| |exact Hd]; rewrite ?Eh1, ?Ew1, ?Eh, ?Ew; done.
Qed.

Lemma main_runs_witness :
  ((QUIT ∉ concat [[MOUSEBUTTONDOWN (80, 55) 1]; [OtherEvent]]) /\
   exists pictures s,
     main 801 (seqZ 0 200) [[MOUSEBUTTONDOWN (80, 55) 1]; [OtherEvent]] = Ok (pictures, s) /\
     inv s /\ length pictures = 2%nat /\
     Forall (fun p => length p = 1000%nat /\
               Forall (fun d => on_canvas show_cfg_width show_cfg_height (rect d)) p)
       pictures) \/
  (QUIT ∈ concat [[MOUSEBUTTONDOWN (80, 55) 1]; [OtherEvent]] /\
   main 801 (seqZ 0 200) [[MOUSEBUTTONDOWN (80, 55) 1]; [OtherEvent]] = Raise SystemExit).
Proof.
  apply (main_runs 801 (seqZ 0 200)); [|lia].
  split_and!; [by rewrite length_seqZ|apply NoDup_seqZ|].
  intros idx Hidx%elem_of_seqZ. unfold game_cfg_width, game_cfg_height. lia.
Defined.
