(* ===== verification/Chord.v ===== *)
(** * Chord: [both_click]

    [both_click] (src/mineSweeper.py, lines 160-176) acts on an opened
    number.  When at least that many neighbours carry a flag or a question
    mark it sweeps every other neighbour, in the order and with the marks
    of the list [_get_neighbors] returned before the first sweep; otherwise
    it calls [psudo_click] (lines 178-181, logging only) on the neighbours
    that are still untouched.

    The first test of the method is [self._get(x, y) not in "12345678"].
    Outside the board [_get] returns [None], and [None not in "..."] raises
    [TypeError]: the model returns [Raise TypeError] there. *)

From stdpp Require Import base tactics option list numbers relations strings.
From Stdlib Require Import ZArith Lia.
From S2P Require Import Prelude Text Marks Board Sweep Invariant.

#[local] Open Scope Z_scope.

(** ** The operations *)

(** [psudo_click] logs a message and returns. *)
Definition psudo_click (s : MineModelBoard) (x y : Z) : MineModelBoard := s.

Definition both_click (fuel : nat) (s : MineModelBoard) (x y : Z)
    : result (bool * MineModelBoard) :=
  match _get s x y with
  | None => Raise TypeError
  | Some m =>
      if negb (py_str_in (mark_str m) "12345678") then Ok (false, s)
      else
        (let* n := py_int (mark_str m) in
         if n <=? Z.of_nat (_get_num_flagged_blocks s x y) then
           for_until
             (fun '(new_x, new_y, mark) s =>
                if negb (mark_in mark flag_marks)
                then one_block_sweep fuel s new_x new_y
                else Ok (false, s))
             (_get_neighbors s x y) s
         else
           Ok (false,
               foldl (fun s '(new_x, new_y, mark) =>
                        if mark_in mark [mSpace; mX]
                        then psudo_click s new_x new_y else s)
                 s (_get_neighbors s x y)))%py
  end.

(** ** The body of the sweeping loop *)

Definition chord_body (fuel : nat) : Z * Z * mark -> MineModelBoard ->
    result (bool * MineModelBoard) :=
  fun '(new_x, new_y, mark) s =>
    if negb (mark_in mark flag_marks)
    then one_block_sweep fuel s new_x new_y
    else Ok (false, s).

Section chord.
Implicit Types (s : MineModelBoard) (x y i j : Z) (m : mark).

Lemma psudo_loop s (l : list (Z * Z * mark)) :
  foldl (fun s '(new_x, new_y, mark) =>
           if mark_in mark [mSpace; mX] then psudo_click s new_x new_y else s)
    s l = s.
Proof.
  induction l as [|[[i j] m] l IH]; simpl; [done|].
  unfold psudo_click at 2. by destruct (mark_in m _).
Qed.

(** The method on a cell of the board that shows the number [n]. *)
Lemma both_click_num fuel s x y n :
  _get s x y = Some (mNum n) -> (1 <= n <= 8)%nat ->
  both_click fuel s x y =
    if decide (n <= _get_num_flagged_blocks s x y)%nat
    then for_until (chord_body fuel) (_get_neighbors s x y) s
    else Ok (false, s).
Proof.
  intros Hg Hn. unfold both_click. rewrite Hg.
  rewrite (digits_in_revealed (mNum n)) by done. simpl.
  rewrite py_int_str; simpl. rewrite psudo_loop.
  case_decide; [rewrite (proj2 (Z.leb_le _ _)) by lia|
                rewrite (proj2 (Z.leb_gt _ _)) by lia]; done.
Qed.

(** The method on a cell of the board that shows no number. *)
Lemma both_click_other fuel s x y m :
  _get s x y = Some m -> is_revealed m = false \/ m = mB ->
  both_click fuel s x y = Ok (false, s).
Proof.
  intros Hg Hm. unfold both_click. rewrite Hg.
  by destruct Hm as [Hm| ->]; [destruct m|].
Qed.

(** The method on any cell of the board. *)
Lemma both_click_in fuel s x y m :
  _get s x y = Some m -> mark_ok m ->
  both_click fuel s x y =
    match m with
    | mNum n =>
        if decide (n <= _get_num_flagged_blocks s x y)%nat
        then for_until (chord_body fuel) (_get_neighbors s x y) s
        else Ok (false, s)
    | _ => Ok (false, s)
    end.
Proof.
  intros Hg Hm.
  destruct m; try (apply (both_click_other _ _ _ _ _ Hg); by eauto).
  by apply both_click_num.
Qed.

Lemma chord_body_steps fuel b s r s' :
  chord_body fuel b s = Ok (r, s') -> rtc open_step s s'.
Proof.
  destruct b as [[i j] m]; simpl. destruct (mark_in m flag_marks); simpl.
  - by intros [= <- <-].
  - apply sweep_steps.
Qed.

Lemma chord_loop_steps fuel l s r s' :
  for_until (chord_body fuel) l s = Ok (r, s') -> rtc open_step s s'.
Proof.
  intros Hl.
  eapply (for_until_inv _ (rtc open_step s) (fun _ => True)); [done|done| |exact Hl].
  intros b s1 r1 s2 _ Hs1 Hb. split; [|done].
  etrans; [exact Hs1|]. by eapply chord_body_steps.
Qed.

(** Whatever the method returns, it has only opened unrevealed cells. *)
Lemma both_click_steps fuel s x y r s' :
  marks_ok s -> both_click fuel s x y = Ok (r, s') -> rtc open_step s s'.
Proof.
  intros Hok. destruct (_get s x y) as [m|] eqn:Hg;
    [|unfold both_click; by rewrite Hg].
  rewrite (both_click_in _ _ _ _ _ Hg (Hok _ _ _ Hg)).
  destruct m; try (by intros [= <- <-]).
  case_decide; [apply chord_loop_steps|by intros [= <- <-]].
Qed.

Lemma chord_body_total fuel b s :
  (unrevealed s < fuel)%nat -> exists r s', chord_body fuel b s = Ok (r, s').
Proof.
  intros Hf. destruct b as [[i j] m]; simpl.
  destruct (mark_in m flag_marks); simpl; [eauto|]. by apply sweep_total.
Qed.

(** With a budget above the number of unrevealed cells the method returns
    on every cell of the board. *)
Lemma both_click_total fuel s x y :
  marks_ok s -> is_Some (_get s x y) -> (unrevealed s < fuel)%nat ->
  exists r s', both_click fuel s x y = Ok (r, s').
Proof.
  intros Hok [m Hg] Hf. rewrite (both_click_in _ _ _ _ _ Hg (Hok _ _ _ Hg)).
  destruct m; eauto. case_decide; [|eauto].
  apply (for_until_returns _ (fun s2 => (unrevealed s2 < fuel)%nat)); [done|].
  intros b s2 _ H2. destruct (chord_body_total fuel b s2 H2) as (r & s3 & E).
  exists r, s3. split; [done|].
  apply chord_body_steps, steps_unrevealed in E. lia.
Qed.

Lemma chord_body_fuel_mono fuel fuel' b s r :
  (fuel <= fuel')%nat ->
  chord_body fuel b s = Ok r -> chord_body fuel' b s = Ok r.
Proof.
  intros Hle. destruct b as [[i j] m]; simpl.
  destruct (mark_in m flag_marks); simpl; [done|]. by apply sweep_fuel_mono.
Qed.

Lemma chord_body_no_raise fuel b s e : chord_body fuel b s <> Raise e.
Proof.
  destruct b as [[i j] m]; simpl.
  destruct (mark_in m flag_marks); simpl; [done|]. apply sweep_no_raise.
Qed.

(** *** When the sweeping loop reports a loss *)

(** A loss comes from a neighbour that is an unflagged mine. *)
Lemma chord_loop_lose fuel l s r s' :
  (forall i j m, (i, j, m) ∈ l -> _get s i j = Some m) ->
  for_until (chord_body fuel) l s = Ok (r, s') ->
  r = true -> exists i j, (i, j, mX) ∈ l.
Proof.
  intros Hl Hf.
  eapply (for_until_inv _ (rtc open_step s)
            (fun r => r = true -> exists i j, (i, j, mX) ∈ l)) in Hf as [_ H];
    [exact H|done|done|].
  intros [[i j] m] s1 r1 s2 Hin Hs1 Hb.
  split; [etrans; [done|by eapply chord_body_steps]|]. intros ->.
  simpl in Hb. destruct (mark_in m flag_marks); [done|]. simpl in Hb.
  destruct (decide (_get s1 i j = Some mX)) as [E|E];
    [|by pose proof (sweep_never_loses _ _ _ _ _ _ E Hb)].
  destruct (steps_get _ _ i j Hs1) as [E'|[_ E']].
  - rewrite (Hl _ _ _ Hin) in E'. assert (m = mX) as -> by congruence. eauto.
  - pose proof (open_mark_revealed s i j) as Ho.
    assert (open_mark s i j = mX) as Hx by congruence. by rewrite Hx in Ho.
Qed.

(** A neighbour that is an unflagged mine makes the loop report a loss. *)
Lemma chord_loop_mine fuel l s r s' i j :
  (forall i j m, (i, j, m) ∈ l -> _get s i j = Some m) ->
  (i, j, mX) ∈ l ->
  for_until (chord_body fuel) l s = Ok (r, s') -> r = true.
Proof.
  intros Hl Hin Hf. destruct r; [done|exfalso].
  apply (for_until_all _
    (fun pre s2 => rtc open_step s s2 /\ (i, j, mX) ∉ pre)) in Hf as [_ Hn];
    [done|by split; [|apply not_elem_of_nil]|].
  intros pre [[a c] m] s1 s2 [post Hpre] [Hs1 Hn] Hb.
  split; [etrans; [done|by eapply chord_body_steps]|].
  rewrite not_elem_of_app, not_elem_of_cons. split_and!; [done| |apply not_elem_of_nil].
  intros [= <- <- <-]. simpl in Hb. destruct fuel as [|fuel]; [done|].
  rewrite one_block_sweep_S, decide_True in Hb; [done|].
  rewrite (steps_keeps _ _ _ _ Hs1); by rewrite (Hl _ _ _ Hin).
Qed.
(** *** A chord on a number with enough marked neighbours *)

Lemma both_click_enough fuel s x y (n : nat) :
  _get s x y = Some (mNum n) -> (1 <= n <= 8)%nat ->
  (n <= _get_num_flagged_blocks s x y)%nat ->
  (unrevealed s < fuel)%nat ->
  exists r s',
    both_click fuel s x y = Ok (r, s') /\
    rtc open_step s s' /\
    (r = true <-> exists i j, (i, j) ∈ neighbor_coords x y /\ _get s i j = Some mX).
Proof.
  intros Hg Hn Hle Hf. rewrite (both_click_num _ _ _ _ _ Hg Hn), decide_True by done.
  assert (forall i j m, (i, j, m) ∈ _get_neighbors s x y -> _get s i j = Some m) as Hl
    by (intros i j m Hin; apply elem_of_neighbors in Hin; tauto).
  edestruct (for_until_returns (chord_body fuel)
    (fun s2 => (unrevealed s2 < fuel)%nat)) as (r & s' & E); [exact Hf| |].
  { intros b s2 _ H2. destruct (chord_body_total fuel b s2 H2) as (r & s3 & E).
    exists r, s3. split; [done|].
    apply chord_body_steps, steps_unrevealed in E. lia. }
  exists r, s'. split_and!; [done|by eapply chord_loop_steps|]. split.
  - intros Hr. destruct (chord_loop_lose _ _ _ _ _ Hl E Hr) as (i & j & Hin).
    exists i, j. by apply elem_of_neighbors.
  - intros (i & j & Hin & HX). eapply chord_loop_mine; [exact Hl| |exact E].
    by apply elem_of_neighbors.
Qed.

(** *** A chord whose flags are right *)

(** Among any neighbours, the marked ones and the unflagged mines are as
    many as the mines and the wrongly marked ones. *)
Lemma count_in_balance (nb : list (Z * Z * mark)) :
  (count_in flag_marks nb + count_in [mX] nb =
   count_in mine_marks nb + count_in [mW; mBang] nb)%nat.
Proof.
  unfold count_in.
  rewrite <- !(sum_list_with_ext_add
    (fun b => (if mark_in b.2 flag_marks then 1 else 0) +
              (if mark_in b.2 [mX] then 1 else 0))%nat); [done| |done].
  intros [[i j] []]; reflexivity.
Qed.

(** With no wrong mark around a number and as many marks as the number
    says, no neighbour is an unflagged mine. *)
Lemma flags_right_no_mine s x y (n : nat) i j :
  digits_inv s -> _get s x y = Some (mNum n) ->
  (n <= _get_num_flagged_blocks s x y)%nat ->
  count_in [mW; mBang] (_get_neighbors s x y) = 0%nat ->
  (i, j) ∈ neighbor_coords x y -> _get s i j <> Some mX.
Proof.
  intros Hd Hg Hle Hw Hin HX. pose proof (Hd x y _ Hg eq_refl) as Hn.
  unfold open_mark in Hn. case_decide; [done|]. injection Hn as Hn.
  pose proof (count_in_balance (_get_neighbors s x y)) as Hbal.
  unfold _get_num_flagged_blocks, _get_num_mines in *.
  assert (count_in [mX] (_get_neighbors s x y) = 0%nat) as H0 by lia.
  rewrite count_in_zero in H0.
  by specialize (H0 (i, j, mX) ltac:(by apply elem_of_neighbors)).
Qed.
End chord.

(** ** The branches of [both_click] *)

(** C23.  A chord outside a well-formed board raises [TypeError], and that
    is the only exception [both_click] raises: on the board it returns or,
    in the model, runs out of recursion budget. *)
Theorem both_click_raises (fuel : nat) (s : MineModelBoard) (x y : Z) (e : py_exn) :
  wf s -> marks_ok s ->
  both_click fuel s x y = Raise e <-> in_board s x y = false /\ e = TypeError.
Proof.
  intros Hwf Hok. split.
  - destruct (_get s x y) as [m|] eqn:Hg.
    + rewrite (both_click_in _ _ _ _ _ Hg (Hok _ _ _ Hg)).
      destruct m; try done. case_decide; [|done]. intros Hr.
      by apply for_until_no_raise in Hr; [|intros; apply chord_body_no_raise].
    + unfold both_click. rewrite Hg. intros [= <-]. by rewrite (_get_None s x y).
  - intros [Hout ->]. unfold both_click. by rewrite (_get_out _ _ _ Hout).
Qed.

Lemma both_click_raises_witness :
  both_click 9 board_3x3 (-1) 0 = Raise TypeError
  <-> in_board board_3x3 (-1) 0 = false /\ TypeError = TypeError.
Proof.
  apply both_click_raises;
    [apply wf_b_sound|apply marks_ok_b_sound]; vm_compute; reflexivity.
Defined.

(** A chord on a number with fewer marked neighbours than the number
    changes nothing and reports no loss. *)
Theorem both_click_few_flags (fuel : nat) (s : MineModelBoard) (x y : Z) (n : nat) :
  _get s x y = Some (mNum n) -> (1 <= n <= 8)%nat ->
  (_get_num_flagged_blocks s x y < n)%nat ->
  both_click fuel s x y = Ok (false, s).
Proof.
  intros Hg Hn Hlt. rewrite (both_click_num _ _ _ _ _ Hg Hn).
  by rewrite decide_False by lia.
Qed.

Lemma both_click_few_flags_witness :
  both_click 9 board_3x3_one 1 1 = Ok (false, board_3x3_one).
Proof. apply (both_click_few_flags 9 board_3x3_one 1 1 1); vm_compute; (done || lia). Defined.

(** C9.  A chord on a number with enough marked neighbours returns, given
    a budget above the number of unrevealed cells; it has only opened
    unrevealed cells, and it reports a loss exactly when one of the
    neighbours is an unflagged mine. *)
Theorem both_click_sweeps (fuel : nat) (s : MineModelBoard) (x y : Z) (n : nat) :
  _get s x y = Some (mNum n) -> (1 <= n <= 8)%nat ->
  (n <= _get_num_flagged_blocks s x y)%nat ->
  (unrevealed s < fuel)%nat ->
  exists r s',
    both_click fuel s x y = Ok (r, s') /\
    rtc open_step s s' /\
    (r = true <-> exists i j, (i, j) ∈ neighbor_coords x y /\ _get s i j = Some mX).
Proof. apply both_click_enough. Qed.

Lemma both_click_sweeps_witness :
  exists r s',
    both_click 9 board_3x3_wrong 1 1 = Ok (r, s') /\
    rtc open_step board_3x3_wrong s' /\
    (r = true <->
       exists i j, (i, j) ∈ neighbor_coords 1 1 /\ _get board_3x3_wrong i j = Some mX).
Proof. apply (both_click_sweeps 9 board_3x3_wrong 1 1 1); vm_compute; (done || lia). Defined.

(** C8.  A chord whose marks are right is safe: on a number that shows
    the mines around it, with at least that many marked neighbours and no
    wrong flag or wrong question mark among them, [both_click] returns
    without a loss, having only opened unrevealed cells. *)
Theorem both_click_safe (fuel : nat) (s : MineModelBoard) (x y : Z) (n : nat) :
  marks_ok s -> digits_inv s ->
  _get s x y = Some (mNum n) ->
  (n <= _get_num_flagged_blocks s x y)%nat ->
  count_in [mW; mBang] (_get_neighbors s x y) = 0%nat ->
  (unrevealed s < fuel)%nat ->
  exists s', both_click fuel s x y = Ok (false, s') /\ rtc open_step s s'.
Proof.
  intros Hok Hd Hg Hle Hw Hf.
  destruct (both_click_enough fuel s x y n Hg (Hok _ _ _ Hg) Hle Hf)
    as (r & s' & E & Hst & Hr).
  exists s'. split; [|done]. destruct r; [|done].
  destruct (proj1 Hr eq_refl) as (i & j & Hin & HX).
  by destruct (flags_right_no_mine s x y n i j).
Qed.

Lemma both_click_safe_witness :
  exists s',
    both_click 9 board_3x3_flag 1 1 = Ok (false, s') /\
    rtc open_step board_3x3_flag s'.
Proof.
  apply (both_click_safe 9 board_3x3_flag 1 1 1);
    [apply inv_marks, inv_b_sound|apply inv_digits, inv_b_sound|..];
    vm_compute; (done || lia).
Defined.
