(* ===== verification/Game.v ===== *)
(** * Game: [operation_onestep] and the games it generates

    [operation_onestep] (src/mineSweeper.py, lines 226-243) dispatches an
    operation name and a pair of coordinates to [left_click],
    [right_click] or [both_click] and turns their answer into one of the
    strings ["lose"], ["win"] and [""].  The win test is
    [self.curr_eval + self.num_mine == self.h * self.w].

    A game is a sequence of such operations.  [step] is its transition
    relation and [game] the states reached from a board that the
    constructor built; [inv] (file [Invariant]) is the invariant that
    connects the counters with the board.  [game_inv] shows that every
    operation preserves it, [game_mines_fixed] that the mines stay where
    the constructor put them, [game_counters_bounds] that the counters
    stay in their ranges in every game, [operation_onestep_win] when the
    dispatcher answers ["win"], and [game_winnable] that a state with no
    closed cell left can be reached from every state of a game. *)

From stdpp Require Import base tactics option list numbers relations strings.
From Stdlib Require Import ZArith Lia.
From S2P Require Import Prelude Text Marks Board Flag Sweep Invariant Reset Chord.

#[local] Open Scope Z_scope.

(** ** The dispatcher *)

Definition operation_onestep (fuel : nat) (s : MineModelBoard) (op : string)
    (x y : Z) : result (string * MineModelBoard) :=
  if decide (op = "left_click") then
    (let* (is_lose, s) := left_click fuel s x y in
     if is_lose then Ok ("lose", s)
     else if decide (curr_eval s + num_mine s = h s * w s) then Ok ("win", s)
     else Ok ("", s))%py
  else if decide (op = "right_click") then
    Ok ("", right_click s x y)
  else if decide (op = "both_click") then
    (let* (is_lose, s) := both_click fuel s x y in
     if is_lose then Ok ("lose", s)
     else if decide (curr_eval s + num_mine s = h s * w s) then Ok ("win", s)
     else Ok ("", s))%py
  else Ok ("", s).

(** ** Games *)

(** One operation that returned. *)
Inductive step (s : MineModelBoard) : MineModelBoard -> Prop :=
| Step fuel op x y res s' :
    operation_onestep fuel s op x y = Ok (res, s') -> step s s'.

(** The states of the games played on the board that the constructor
    builds from [sample]. *)
Definition game (width height n : Z) (sample : list Z) (s : MineModelBoard) : Prop :=
  exists s0, __init__ width height n sample = Ok s0 /\ rtc step s0 s.

(** ** The invariant is preserved *)

Section invariant.
Implicit Types (s : MineModelBoard) (x y i j : Z) (m : mark).

(** An operation either opens cells or is a right click. *)
Lemma operation_onestep_cases fuel s op x y res s' :
  marks_ok s ->
  operation_onestep fuel s op x y = Ok (res, s') ->
  rtc open_step s s' \/ s' = right_click s x y.
Proof.
  intros Hok. unfold operation_onestep. repeat case_decide.
  - destruct (left_click fuel s x y) as [[r s1]| |] eqn:E; simpl; [|done..].
    apply left_click_steps in E. intros Hres. left.
    by repeat case_match; simplify_eq.
  - intros [= <- <-]. by right.
  - destruct (both_click fuel s x y) as [[r s1]| |] eqn:E; simpl; [|done..].
    apply both_click_steps in E; [|done]. intros Hres. left.
    by repeat case_match; simplify_eq.
  - intros [= <- <-]. by left.
Qed.

(** An operation that returned is a move. *)
#[export] Instance step_move : Move step.
Proof.
  intros s s' Hinv [fuel op x y res s2 Hop].
  destruct (operation_onestep_cases _ _ _ _ _ _ _ (inv_marks _ Hinv) Hop) as [Hst| ->].
  - by apply (move (R := rtc open_step)).
  - apply (move (R := fun s s' => exists x y, s' = right_click s x y)); eauto.
Qed.

Lemma step_inv s s' : step s s' -> inv s -> inv s'.
Proof. intros Hstep Hinv. by apply (move_inv step s). Qed.

Lemma game_frame s s' : inv s -> rtc step s s' -> inv s' /\ frame s s'.
Proof. apply move. Qed.
End invariant.

(** ** Properties of games *)

(** C3.  Every state of a game satisfies the invariant: the board keeps
    its shape, its marks are marks of the game, [num_mine] cells cover a
    mine, [curr_mine] is [num_mine] minus the number of ["F"] marks,
    [curr_eval] is the number of opened cells and every opened cell shows
    the number of mines around it. *)
Theorem game_inv (s s' : MineModelBoard) :
  inv s -> rtc step s s' -> inv s'.
Proof. intros Hinv Hst. induction Hst; eauto using step_inv. Qed.

Lemma game_inv_witness : inv (right_click board_3x3 2 2).
Proof.
  apply (game_inv board_3x3); [by apply inv_b_sound|].
  apply rtc_once. by apply (Step _ 0%nat "right_click" 2 2 "").
Defined.

(** The states of a game keep what the constructor was given. *)
Lemma game_state (width height n : Z) (sample : list Z) (s : MineModelBoard) :
  0 <= width -> 0 <= height -> is_sample (height * width) n sample ->
  game width height n sample s ->
  inv s /\ h s = height /\ w s = width /\ num_mine s = n.
Proof.
  intros Hw Hh Hs (s0 & Hinit & Hst).
  destruct (reset_spec (mkBoard height width n [] 0 0) sample Hw Hh Hs)
    as (s' & Hr & Hinv & Eh & Ew & En & _).
  assert (s' = s0) as -> by (unfold __init__ in Hinit; congruence).
  destruct (game_frame _ _ Hinv Hst) as (Hinv' & Eh' & Ew' & En' & _).
  simpl in *. split_and!; [done|congruence..].
Qed.

(** C33.  In every state of a game played on a board that the
    constructor built, whatever was clicked and however often,
    [curr_mine] lies between 0 and the number of mines given to the
    constructor, and [curr_eval] between 0 and the number of cells
    without a mine: the counter of flags never runs below zero or above
    the mines, although [right_click] adds and subtracts without a
    test. *)
Theorem game_counters_bounds (width height n : Z) (sample : list Z)
    (s : MineModelBoard) :
  0 <= width -> 0 <= height -> is_sample (height * width) n sample ->
  game width height n sample s ->
  0 <= curr_mine s <= n /\ 0 <= curr_eval s <= height * width - n.
Proof.
  intros Hw Hh Hs Hg.
  destruct (game_state _ _ _ _ _ Hw Hh Hs Hg) as (Hinv & <- & <- & <-).
  by apply counters_bounds.
Qed.

Lemma game_counters_bounds_witness :
  let s := right_click board_3x3 2 2 in
  0 <= curr_mine s <= 1 /\ 0 <= curr_eval s <= 3 * 3 - 1.
Proof.
  apply (game_counters_bounds 3 3 1 [8]); [lia..| |].
  - split_and!; [done|by apply (bool_decide_unpack _)|].
    intros idx. rewrite elem_of_cons, elem_of_nil. lia.
  - exists board_3x3. split; [by vm_compute|].
    apply rtc_once. by apply (Step _ 0%nat "right_click" 2 2 "").
Defined.

(** C4.  In every state of a game played on a board that the constructor
    built from non-negative dimensions and a sample of distinct indices,
    the invariant holds, the dimensions and the number of mines are the
    ones given to the constructor, and the cells that cover a mine are the
    cells whose index was drawn: no operation moves, adds or removes a
    mine. *)
Theorem game_mines_fixed (width height n : Z) (sample : list Z)
    (s : MineModelBoard) :
  0 <= width -> 0 <= height -> is_sample (height * width) n sample ->
  game width height n sample s ->
  inv s /\ h s = height /\ w s = width /\ num_mine s = n /\
  forall x y, mine_at s x y =
    bool_decide (0 <= x < width /\ 0 <= y < height /\ x * height + y ∈ sample).
Proof.
  intros Hw Hh Hs (s0 & Hinit & Hst).
  destruct (reset_spec (mkBoard height width n [] 0 0) sample Hw Hh Hs)
    as (s' & Hr & Hinv & Eh & Ew & En & _).
  assert (s' = s0) as -> by (unfold __init__ in Hinit; congruence).
  destruct (game_frame _ _ Hinv Hst) as (Hinv' & Eh' & Ew' & En' & Hm).
  simpl in *. split_and!; [done|congruence..|].
  intros x y. rewrite <- Hm. by eapply init_mine_at.
Qed.

Lemma game_mines_fixed_witness :
  let s := right_click board_3x3 2 2 in
  inv s /\ h s = 3 /\ w s = 3 /\ num_mine s = 1 /\
  forall x y, mine_at s x y =
    bool_decide (0 <= x < 3 /\ 0 <= y < 3 /\ x * 3 + y ∈ [8]).
Proof.
  apply (game_mines_fixed 3 3 1 [8]); [lia..| |].
  - split_and!; [done|by apply (bool_decide_unpack _)|].
    intros idx. rewrite elem_of_cons, elem_of_nil. lia.
  - exists board_3x3. split; [by vm_compute|].
    apply rtc_once. by apply (Step _ 0%nat "right_click" 2 2 "").
Defined.

(** ** The answers of [operation_onestep] *)

Section answers.
Implicit Types (s : MineModelBoard) (x y i j : Z) (m : mark).

(** The answer after a click that returned [(is_lose, s)]. *)
Definition answer (is_lose : bool) (s : MineModelBoard) : string :=
  if is_lose then "lose"
  else if decide (curr_eval s + num_mine s = h s * w s) then "win" else "".

Lemma operation_onestep_left fuel s x y :
  operation_onestep fuel s "left_click" x y =
    (let* (is_lose, s') := left_click fuel s x y in Ok (answer is_lose s', s'))%py.
Proof.
  unfold operation_onestep, answer. rewrite decide_True by done.
  destruct (left_click fuel s x y) as [[[] s1]| |]; simpl; by repeat case_decide.
Qed.

Lemma operation_onestep_both fuel s x y :
  operation_onestep fuel s "both_click" x y =
    (let* (is_lose, s') := both_click fuel s x y in Ok (answer is_lose s', s'))%py.
Proof.
  unfold operation_onestep, answer.
  rewrite decide_False, decide_False, decide_True by done.
  destruct (both_click fuel s x y) as [[[] s1]| |]; simpl; by repeat case_decide.
Qed.

Lemma operation_onestep_other fuel s op x y :
  op <> "left_click" -> op <> "both_click" ->
  operation_onestep fuel s op x y =
    Ok ("", if decide (op = "right_click") then right_click s x y else s).
Proof. intros. unfold operation_onestep. by repeat case_decide. Qed.

(** The answer ["win"] is given on the win test. *)
Lemma operation_onestep_win_test fuel s op x y s' :
  operation_onestep fuel s op x y = Ok ("win", s') ->
  curr_eval s' + num_mine s' = h s' * w s'.
Proof.
  unfold operation_onestep. repeat case_decide; try done.
  - destruct (left_click fuel s x y) as [[[] s1]| |]; simpl; try done.
    case_decide; by intros [= <-].
  - destruct (both_click fuel s x y) as [[[] s1]| |]; simpl; try done.
    case_decide; by intros [= <-].
Qed.

(** With a budget above the number of cells without a mine an operation
    returns, except a chord outside the board. *)
Lemma operation_onestep_returns fuel s op x y :
  inv s -> budget fuel s ->
  (exists res s', operation_onestep fuel s op x y = Ok (res, s')) \/
  (op = "both_click" /\ _get s x y = None /\
   operation_onestep fuel s op x y = Raise TypeError).
Proof.
  intros Hinv Hb. pose proof (budget_unrevealed _ _ Hinv Hb) as Hf.
  destruct (decide (op = "left_click")) as [->|Hl];
    [|destruct (decide (op = "both_click")) as [->|Hc]].
  - rewrite operation_onestep_left.
    destruct (left_click_total fuel s x y Hf) as (r & s' & ->). simpl. eauto.
  - rewrite operation_onestep_both. destruct (_get s x y) as [m|] eqn:Hg.
    + destruct (both_click_total fuel s x y (inv_marks _ Hinv) ltac:(by rewrite Hg) Hf)
        as (r & s' & ->). simpl. eauto.
    + right. unfold both_click. by rewrite Hg.
  - rewrite operation_onestep_other by done. eauto.
Qed.
End answers.

(** C28.  [operation_onestep] answers ["win"] only for a left click or a
    chord that did not hit a mine, and then exactly when no cell without a
    mine is left closed in the state it returns; a right click and an
    unknown operation answer [""]. *)
Theorem operation_onestep_win (fuel : nat) (s : MineModelBoard) (op : string)
    (x y : Z) (res : string) (s' : MineModelBoard) :
  inv s ->
  operation_onestep fuel s op x y = Ok (res, s') ->
  res = "win" <->
    (op = "left_click" \/ op = "both_click") /\ res <> "lose" /\
    count_marks is_closed s' = 0%nat.
Proof.
  intros Hinv Hop.
  assert (inv s') as Hinv' by (eapply step_inv; [by econstructor|done]).
  pose proof (win_test_count s' Hinv') as Hwin. revert Hop.
  destruct (decide (op = "left_click")) as [->|Hl];
    [rewrite operation_onestep_left|
     destruct (decide (op = "both_click")) as [->|Hb];
     [rewrite operation_onestep_both|rewrite operation_onestep_other by done]].
  - destruct (left_click fuel s x y) as [[[] s1]| |]; simpl; try done;
      intros [= <- <-]; unfold answer; [|case_decide]; intuition congruence.
  - destruct (both_click fuel s x y) as [[[] s1]| |]; simpl; try done;
      intros [= <- <-]; unfold answer; [|case_decide]; intuition congruence.
  - intros [= <- <-]. intuition congruence.
Qed.

Lemma operation_onestep_win_witness :
  "win" = "win" <->
    ("left_click" = "left_click" \/ "left_click" = "both_click") /\
    "win" <> "lose" /\
    count_marks is_closed (default board_3x3
      (snd <$> match operation_onestep 9 board_3x3 "left_click" 0 0 with
               | Ok r => Some r | _ => None end)) = 0%nat.
Proof.
  apply (operation_onestep_win 9 board_3x3 "left_click" 0 0);
    [by apply inv_b_sound|by vm_compute].
Defined.

(** The answers are three strings. *)
Lemma operation_onestep_answer fuel s op x y res s' :
  operation_onestep fuel s op x y = Ok (res, s') -> res ∈ ["lose"; "win"; ""].
Proof.
  destruct (decide (op = "left_click")) as [->|Hl];
    [rewrite operation_onestep_left|
     destruct (decide (op = "both_click")) as [->|Hb];
     [rewrite operation_onestep_both|rewrite operation_onestep_other by done]].
  3: intros [= <- <-]; by repeat constructor.
  all: match goal with |- context [bind ?r _] => destruct r as [[[] s1]| |] end;
    simpl; try done; intros [= <- <-]; unfold answer;
    repeat case_decide; by repeat constructor.
Qed.

(** C19.  The types of [operation_onestep]: in the state it returns the
    board is still [h] rows of [w] cells, each holding one of the marks of
    the game, with the dimensions it had, whatever the counters and the
    mines are; and its answer is one of the three strings ["lose"],
    ["win"] and [""], so the last branch of the loop of [run_input], for
    an unexpected answer, is never taken. *)
Theorem operation_onestep_typed (fuel : nat) (s : MineModelBoard) (op : string)
    (x y : Z) (res : string) (s' : MineModelBoard) :
  wf s -> marks_ok s ->
  operation_onestep fuel s op x y = Ok (res, s') ->
  wf s' /\ marks_ok s' /\ h s' = h s /\ w s' = w s /\
  res ∈ ["lose"; "win"; ""].
Proof.
  intros Hwf Hok Hop. pose proof (operation_onestep_answer _ _ _ _ _ _ _ Hop) as Hres.
  destruct (operation_onestep_cases _ _ _ _ _ _ _ Hok Hop) as [Hst| ->].
  - destruct (steps_fields _ _ Hst) as (? & ? & _).
    split_and!; [by eapply steps_wf|by eapply steps_marks_ok|done..].
  - destruct (right_click_fields s x y) as (? & ? & _).
    split_and!; [by apply right_click_wf|by apply right_click_marks_ok|done..].
Qed.

Lemma operation_onestep_typed_witness :
  wf (right_click board_3x3 2 2) /\ marks_ok (right_click board_3x3 2 2) /\
  h (right_click board_3x3 2 2) = h board_3x3 /\
  w (right_click board_3x3 2 2) = w board_3x3 /\
  "" ∈ ["lose"; "win"; ""].
Proof.
  apply (operation_onestep_typed 9 board_3x3 "right_click" 2 2);
    [by apply wf_b_sound|by apply marks_ok_b_sound|reflexivity].
Defined.

(** ** Every game can be won *)

Section winnable.
Implicit Types (s : MineModelBoard) (x y i j : Z) (m : mark).

Lemma step_right_click s x y : step s (right_click s x y).
Proof. by apply (Step _ 0%nat "right_click" x y ""). Qed.

Lemma step_left_click fuel s x y r s' :
  left_click fuel s x y = Ok (r, s') -> step s s'.
Proof.
  intros E. apply (Step _ fuel "left_click" x y (answer r s')).
  by rewrite operation_onestep_left, E.
Qed.

(** Right clicks take a wrong flag or a wrong question mark off a cell,
    and leave the number of closed cells as it is. *)
Lemma closed_to_space s x y m :
  _get s x y = Some m -> is_closed m = true ->
  exists s1, rtc step s s1 /\ _get s1 x y = Some mSpace /\
             count_marks is_closed s1 = count_marks is_closed s.
Proof.
  intros Hg Hm.
  pose proof (fun s => right_click_count is_closed s x y next_mark_closed) as Hc.
  destruct m; try done.
  - by exists s.
  - exists (right_click (right_click s x y) x y).
    split_and!; [|by rewrite !right_click_get, !decide_True, Hg|by rewrite !Hc].
    eapply rtc_l; [|apply rtc_once]; apply step_right_click.
  - exists (right_click s x y).
    split_and!; [|by rewrite !right_click_get, !decide_True, Hg|by rewrite !Hc].
    apply rtc_once, step_right_click.
Qed.

(** A left click on an unrevealed cell leaves fewer closed cells. *)
Lemma open_space s x y :
  inv s -> _get s x y = Some mSpace ->
  exists s2, step s s2 /\
             (count_marks is_closed s2 < count_marks is_closed s)%nat.
Proof.
  intros Hinv Hg.
  destruct (left_click_total (S (unrevealed s)) s x y ltac:(lia)) as (r & s2 & E).
  pose proof (step_left_click _ _ _ _ _ _ E) as Hstep. exists s2. split; [done|].
  destruct (move s s2 Hinv Hstep) as (Hinv2 & Eh & Ew & En & _).
  pose proof (inv_closed s Hinv). pose proof (inv_closed s2 Hinv2).
  destruct (steps_opened _ _ (left_click_steps _ _ _ _ _ _ E))
    as (cells & _ & Hin & He & _).
  assert ((x, y) ∈ cells) as Hxy.
  { apply Hin. rewrite Hg. revert E. unfold left_click.
    rewrite Hg, !decide_False by done.
    destruct (one_block_sweep _ s x y) as [[r1 s3]| |] eqn:Hsw; simpl; [|done..].
    intros Hs3. assert (s3 = s2) as -> by (by destruct r1; injection Hs3).
    intros Heq. by apply (sweep_target _ _ _ _ _ _ Hsw). }
  destruct cells; [by apply elem_of_nil in Hxy|]. simpl in He. lia.
Qed.
End winnable.

(** C5.  Every game can be won: from a state that satisfies the
    invariant, some sequence of operations leads to a state in which no
    cell without a mine is left closed, and in which the win test of
    [operation_onestep] holds. *)
Theorem game_winnable (s : MineModelBoard) :
  inv s ->
  exists s', rtc step s s' /\ inv s' /\
             count_marks is_closed s' = 0%nat /\
             curr_eval s' + num_mine s' = h s' * w s'.
Proof.
  remember (count_marks is_closed s) as n eqn:En. revert s En.
  induction (lt_wf n) as [n _ IH]. intros s -> Hinv.
  destruct (decide (count_marks is_closed s = 0%nat)) as [E0|Hpos].
  { exists s. split_and!; [done..|]. by apply win_test_count. }
  destruct (count_marks_exists is_closed s (inv_wf _ Hinv) ltac:(lia))
    as (x & y & m & Hg & Hm).
  destruct (closed_to_space s x y m Hg Hm) as (s1 & Hst1 & Hg1 & Ec).
  destruct (game_frame _ _ Hinv Hst1) as [Hinv1 _].
  destruct (open_space s1 x y Hinv1 Hg1) as (s2 & Hst2 & Hlt).
  destruct (IH (count_marks is_closed s2) ltac:(lia) s2 eq_refl
              (step_inv _ _ Hst2 Hinv1)) as (s' & Hst & Hrest).
  exists s'. split; [|done]. etrans; [exact Hst1|by eapply rtc_l].
Qed.

Lemma game_winnable_witness :
  exists s', rtc step board_3x3_wrong s' /\ inv s' /\
             count_marks is_closed s' = 0%nat /\
             curr_eval s' + num_mine s' = h s' * w s'.
Proof. apply game_winnable. by apply inv_b_sound. Defined.
