(* ===== verification/Input.v ===== *)
(** * Input: the console game

    [run_input] (src/mineSweeper.py, lines 245-288) is the loop of the
    console game: it prints the board, reads a line, lets its local
    function [parse_input] turn the line into an operation and two
    coordinates, and hands them to [operation_onestep] until the answer is
    ["win"] or ["lose"] or the player quits.  [win], [loss] and [reset]
    (lines 183-194) print the last board.

    [input] and [print] are modelled by their data: the lines that
    [input] will return are an argument of [run_input], and the lines
    printed are part of its result.  When the lines are used up [input]
    raises [EOFError]. *)

From stdpp Require Import base tactics option list numbers relations strings.
From Stdlib Require Import ZArith Lia.
From S2P Require Import Prelude Text Marks Board Flag Output Sweep Invariant.
From S2P Require Import Chord Game.

#[local] Open Scope Z_scope.

(** ** The operations *)

Definition op_dict : list (string * list string) :=
  [("left_click", ["l"; "lc"; "left"]);
   ("right_click", ["r"; "rc"; "right"]);
   ("both_click", ["b"; "bc"; "both"])]%string.

(** The loop over [op_dict.items()]: the name of the operation that [op]
    is an alias of, [op] itself when it is a name or unknown. *)
Fixpoint resolve_op (d : list (string * list string)) (op : string) : string :=
  match d with
  | [] => op
  | (key, val) :: d' =>
      if decide (key = op) then op
      else if decide (op ∈ val) then key
      else resolve_op d' op
  end.

(** [parse_input]: the line printed and the operation, [None] for a line
    that does not have two or three words. *)
Definition parse_input (s : string)
    : result (list string * option (string * Z * Z)) :=
  let s := py_split s in
  if decide (length s ∉ [2; 3]%nat) then Ok ([], None)
  else
    let '(op, x, y) :=
      if decide (length s = 2%nat) then ("left_click"%string, s !!! 0%nat, s !!! 1%nat)
      else (s !!! 0%nat, s !!! 1%nat, s !!! 2%nat) in
    let op := resolve_op op_dict op in
    let printed := [py_join " " [op; x; y]] in
    (let* x := py_int x in
     let* y := py_int y in
     Ok (printed, Some (op, x - 1, y - 1)))%py.

(** What [win] and [loss] print. *)
Definition win (s : MineModelBoard) : list string := [output s; "win"%string].
Definition loss (s : MineModelBoard) : list string := [output s; "loss"%string].

Definition reset (s : MineModelBoard) : MineModelBoard := s.

(** [run_input] on the lines that [input] returns: the lines printed and
    the state when the loop is left. *)
Fixpoint run_input (fuel : nat) (s : MineModelBoard) (inputs : list string)
    : result (list string * MineModelBoard) :=
  let shown := [output s] in
  match inputs with
  | [] => Raise EOFError
  | line :: inputs' =>
      if decide (line = "q"%string) then Ok (shown, s)
      else if decide (line = "r"%string) then Ok (shown, s)
      else
        (let* (printed, parsed) := parse_input line in
         match parsed with
         | None => Raise TypeError
         | Some (op, x, y) =>
             let* (res, s) := operation_onestep fuel s op x y in
             if decide (res = "win"%string) then
               Ok (shown ++ printed ++ win s, s)
             else if decide (res = "lose"%string) then
               Ok (shown ++ printed ++ loss s, s)
             else
               let* (rest, s) := run_input fuel s inputs' in
               Ok (shown ++ printed ++ rest, s)
         end)%py
  end.

(** ** Parsing a line *)

Section parse.
Implicit Types (s line op a x y : string) (i j : nat).

(** The operation an input names. *)
Lemma resolve_op_spec op :
  resolve_op op_dict op =
    if decide (op ∈ ["l"; "lc"; "left"]%string) then "left_click"%string
    else if decide (op ∈ ["r"; "rc"; "right"]%string) then "right_click"%string
    else if decide (op ∈ ["b"; "bc"; "both"]%string) then "both_click"%string
    else op.
Proof.
  destruct (decide (op = "left_click"%string)) as [->|?]; [done|].
  destruct (decide (op = "right_click"%string)) as [->|?]; [done|].
  destruct (decide (op = "both_click"%string)) as [->|?]; [done|].
  unfold op_dict, resolve_op. by repeat case_decide.
Qed.

(** The names of the operations are not aliases. *)
Lemma resolve_op_idemp op : resolve_op op_dict (resolve_op op_dict op) = resolve_op op_dict op.
Proof.
  rewrite (resolve_op_spec op). repeat case_decide; try done.
  rewrite resolve_op_spec. by rewrite !decide_False.
Qed.

(** A line of three words. *)
Lemma parse_input_3 a x y :
  is_word a -> is_word x -> is_word y ->
  parse_input (py_join " " [a; x; y]) =
    (let* vx := py_int x in
     let* vy := py_int y in
     Ok ([py_join " " [resolve_op op_dict a; x; y]],
         Some (resolve_op op_dict a, vx - 1, vy - 1)))%py.
Proof.
  intros Ha Hx Hy. unfold parse_input.
  by rewrite py_split_join
    by (repeat (apply Forall_cons; split; [done|]); apply Forall_nil_2).
Qed.

(** A line of two words. *)
Lemma parse_input_2 x y :
  is_word x -> is_word y ->
  parse_input (py_join " " [x; y]) =
    (let* vx := py_int x in
     let* vy := py_int y in
     Ok ([py_join " " ["left_click"%string; x; y]],
         Some ("left_click"%string, vx - 1, vy - 1)))%py.
Proof.
  intros Hx Hy. unfold parse_input.
  by rewrite py_split_join
    by (repeat (apply Forall_cons; split; [done|]); apply Forall_nil_2).
Qed.

(** A line that is not an operation. *)
Lemma parse_input_None line :
  length (py_split line) ∉ [2; 3]%nat -> parse_input line = Ok ([], None).
Proof. intros Hn. unfold parse_input. by rewrite decide_True. Qed.

(** [parse_input] returns [None] on such lines only. *)
Lemma parse_input_None_inv line printed :
  parse_input line = Ok (printed, None) -> length (py_split line) ∉ [2; 3]%nat.
Proof.
  unfold parse_input. case_decide; [done|].
  repeat case_match; simplify_eq/=;
    repeat (match goal with
            | |- context [py_int ?t] => destruct (py_int t)
            end; simpl; try done).
Qed.

(** [parse_input] returns, or raises the [ValueError] of [int]. *)
Lemma parse_input_cases line :
  (exists printed parsed, parse_input line = Ok (printed, parsed)) \/
  parse_input line = Raise ValueError.
Proof.
  unfold parse_input. case_decide; [by eauto|].
  destruct (if decide (length (py_split line) = 2%nat) then _ else _) as [[op x] y].
  destruct (py_int_cases x) as [[vx ->]| ->]; simpl; [|by right].
  destruct (py_int_cases y) as [[vy ->]| ->]; simpl; eauto.
Qed.
End parse.

(** ** The loop *)

Section loop.
Implicit Types (s : MineModelBoard) (fuel : nat) (line : string)
  (inputs out : list string).

(** The loop prints the board first. *)
Lemma run_input_shown fuel s inputs out s' :
  run_input fuel s inputs = Ok (out, s') -> exists rest, out = output s :: rest.
Proof.
  destruct inputs as [|line inputs]; [done|]. simpl.
  repeat case_decide; try (intros [= <- <-]; by eauto).
  destruct (parse_input line) as [[printed [[[op x] y]|]]| |]; simpl; try done.
  destruct (operation_onestep fuel s op x y) as [[res s1]| |]; simpl; try done.
  repeat case_decide; try (intros [= <- <-]; by eauto).
  destruct (run_input fuel s1 inputs) as [[rest s2]| |]; simpl; try done.
  intros [= <- <-]. eauto.
Qed.

(** The picture of a board is not a verdict. *)
Lemma output_not_verdict s : output s <> "win"%string /\ output s <> "loss"%string.
Proof. destruct (output_head s) as [->|[rest ->]]; by split. Qed.

(** The last line printed when the rest of the output is known. *)
Lemma last_shown (shown : string) (printed rest : list string) :
  rest <> [] -> last (shown :: printed ++ rest) = last rest.
Proof.
  intros Hne. change (shown :: printed ++ rest) with ([shown] ++ printed ++ rest).
  rewrite !last_app. by destruct rest using rev_ind; [|rewrite last_snoc].
Qed.

(** The console plays a game, and announces a win only on the win
    test. *)
Lemma run_input_steps fuel inputs s out s' :
  inv s -> run_input fuel s inputs = Ok (out, s') ->
  rtc step s s' /\
  (last out = Some "win"%string -> curr_eval s' + num_mine s' = h s' * w s').
Proof.
  revert s out s'. induction inputs as [|line inputs IH]; intros s out s' Hinv; [done|].
  pose proof (output_not_verdict s) as [Hw _]. simpl.
  repeat case_decide; try (intros [= <- <-]; split; [done|]; simpl; congruence).
  destruct (parse_input line) as [[printed [[[op x] y]|]]| |]; simpl; try done.
  destruct (operation_onestep fuel s op x y) as [[res s1]| |] eqn:Hop; simpl; try done.
  pose proof (Step _ _ _ _ _ _ _ Hop) as Hstep.
  pose proof (output_not_verdict s1) as [Hw1 _].
  repeat case_decide; subst.
  - intros [= <- <-]. split; [by apply rtc_once|]. intros _.
    by eapply operation_onestep_win_test.
  - intros [= <- <-]. split; [by apply rtc_once|].
    rewrite (last_shown _ _ (loss s1)) by done. by intros [=].
  - destruct (run_input fuel s1 inputs) as [[rest s2]| |] eqn:Hrun; simpl; try done.
    intros [= <- <-]. destruct (run_input_shown _ _ _ _ _ Hrun) as [tl ->].
    destruct (IH _ _ _ (step_inv _ _ Hstep Hinv) Hrun) as [Hst Hlast].
    split; [by eapply rtc_l|]. by rewrite (last_shown _ _ (_ :: tl)).
Qed.

(** The loop never exhausts a budget above the number of cells without a
    mine, and it leaves through three exceptions only. *)
Lemma run_input_outcome fuel inputs s :
  inv s -> budget fuel s ->
  match run_input fuel s inputs with
  | Ok _ => True
  | Raise e => e = EOFError \/ e = TypeError \/ e = ValueError
  | OutOfFuel => False
  end.
Proof.
  revert s. induction inputs as [|line inputs IH]; intros s Hinv Hb; [simpl; by left|].
  simpl. repeat case_decide; try done.
  destruct (parse_input_cases line) as [(printed & [[[op x] y]|] & ->)| ->];
    simpl; [|by auto..].
  destruct (operation_onestep_returns fuel s op x y Hinv Hb)
    as [(res & s1 & Hop)|(_ & _ & ->)]; [|simpl; by auto]. rewrite Hop. simpl.
  pose proof (Step _ _ _ _ _ _ _ Hop) as Hstep.
  repeat case_decide; try done.
  destruct (game_frame s s1 Hinv (rtc_once _ _ Hstep)) as [Hinv1 Hf].
  specialize (IH s1 Hinv1 (budget_frame _ _ _ Hf Hb)).
  by destruct (run_input fuel s1 inputs) as [[rest s2]| |].
Qed.
End loop.

(** ** The console game *)

(** C11.  A game played on the console is a game of the board: when
    [run_input] returns, the state it leaves is reached from the state it
    started in by operations of [operation_onestep], so it satisfies the
    invariant, and the last line printed is ["win"] only when no cell
    without a mine is left closed.  With a recursion budget above the
    number of cells without a mine the loop never exhausts it, and the
    exceptions it can leave through are [EOFError] (no line left),
    [TypeError] and [ValueError]. *)
Theorem run_input_game (fuel : nat) (s : MineModelBoard) (inputs : list string) :
  inv s -> budget fuel s ->
  match run_input fuel s inputs with
  | Ok (out, s') =>
      rtc step s s' /\ inv s' /\
      (last out = Some "win"%string -> count_marks is_closed s' = 0%nat)
  | Raise e => e = EOFError \/ e = TypeError \/ e = ValueError
  | OutOfFuel => False
  end.
Proof.
  intros Hinv Hb. pose proof (run_input_outcome fuel inputs s Hinv Hb) as Ho.
  destruct (run_input fuel s inputs) as [[out s']|e|] eqn:E; [|done..].
  destruct (run_input_steps _ _ _ _ _ Hinv E) as [Hst Hwin].
  destruct (game_frame _ _ Hinv Hst) as [Hinv' _].
  split_and!; [done..|]. intros Hl. by apply (win_test_count s' Hinv'), Hwin.
Qed.

Lemma run_input_game_witness :
  match run_input 9 board_3x3 ["r 3 3"; "2 2"; "b 2 2"; "q"]%string with
  | Ok (out, s') =>
      rtc step board_3x3 s' /\ inv s' /\
      (last out = Some "win"%string -> count_marks is_closed s' = 0%nat)
  | Raise e => e = EOFError \/ e = TypeError \/ e = ValueError
  | OutOfFuel => False
  end.
Proof.
  apply (run_input_game 9 board_3x3); [by apply inv_b_sound|].
  unfold budget. simpl. lia.
Defined.

(** C31.  A line of an operation word and two numbers is parsed into the
    operation the word names and the coordinates counted from zero, and
    the operation is printed with the numbers as they were typed; a line
    of two numbers is a left click. *)
Theorem parse_input_command (a : string) (i j : nat) :
  is_word a ->
  parse_input (py_join " " [a; py_str i; py_str j]) =
    Ok ([py_join " " [resolve_op op_dict a; py_str i; py_str j]],
        Some (resolve_op op_dict a, Z.of_nat i - 1, Z.of_nat j - 1)) /\
  parse_input (py_join " " [py_str i; py_str j]) =
    Ok ([py_join " " ["left_click"%string; py_str i; py_str j]],
        Some ("left_click"%string, Z.of_nat i - 1, Z.of_nat j - 1)).
Proof.
  intros Ha. pose proof (py_str_word i). pose proof (py_str_word j).
  rewrite parse_input_3, parse_input_2, !py_int_str by done. done.
Qed.

Lemma parse_input_command_witness :
  parse_input (py_join " " ["rc"%string; py_str 3; py_str 12]) =
    Ok ([py_join " " [resolve_op op_dict "rc"; py_str 3; py_str 12]],
        Some (resolve_op op_dict "rc", Z.of_nat 3 - 1, Z.of_nat 12 - 1)) /\
  parse_input (py_join " " [py_str 3; py_str 12]) =
    Ok ([py_join " " ["left_click"%string; py_str 3; py_str 12]],
        Some ("left_click"%string, Z.of_nat 3 - 1, Z.of_nat 12 - 1)).
Proof. by apply parse_input_command. Defined.

(** C34.  The words [l], [lc] and [left] name [left_click], [r], [rc] and
    [right] name [right_click], [b], [bc] and [both] name [both_click];
    every other word, the three names included, is left as it is, so that
    resolving a word twice changes nothing. *)
Theorem resolve_op_aliases (op : string) :
  resolve_op op_dict op =
    (if decide (op ∈ ["l"; "lc"; "left"]%string) then "left_click"%string
     else if decide (op ∈ ["r"; "rc"; "right"]%string) then "right_click"%string
     else if decide (op ∈ ["b"; "bc"; "both"]%string) then "both_click"%string
     else op) /\
  resolve_op op_dict (resolve_op op_dict op) = resolve_op op_dict op.
Proof. split; [apply resolve_op_spec|apply resolve_op_idemp]. Qed.

(** C32.  A line that is neither [q] nor [r] and does not consist of two or
    three words ends the console game with a [TypeError]: [parse_input]
    returns [None] after logging, and the loop unpacks it. *)
Theorem run_input_unsupported (fuel : nat) (s : MineModelBoard)
    (line : string) (inputs : list string) :
  line <> "q"%string -> line <> "r"%string ->
  length (py_split line) ∉ [2; 3]%nat ->
  parse_input line = Ok ([], None) /\
  run_input fuel s (line :: inputs) = Raise TypeError.
Proof.
  intros Hq Hr Hn. pose proof (parse_input_None line Hn) as Hp. split; [done|].
  simpl. by rewrite !decide_False, Hp by done.
Qed.

Lemma run_input_unsupported_witness :
  parse_input "flag the corner please" = Ok ([], None) /\
  run_input 9 board_3x3 ["flag the corner please"; "q"]%string = Raise TypeError.
Proof. apply run_input_unsupported; [done..|]. by apply (bool_decide_unpack _). Defined.
