(* ===== verification/Interact.v ===== *)
(** * Interact: programs that talk to their environment

    The loops of the program ([run_input], [screen_run]) and its entry
    call the console, pygame and the random generator between the steps
    of the game, and the methods call [logging].  Their models in
    [Effects], [Console] and [Screen] are interaction trees: every call
    to the outside is an event of the tree, the [while True] loops are
    [ITree.iter], and an uncaught exception is the event [Throw].  This
    file holds what these models share:

    - the event [failE] of a failure and [lift], which turns a [result]
      of the functional model into a tree;
    - the bind notation [let* x := t in k] for trees, in [tree_scope];
    - [runs], the run of a tree in an environment that answers its events
      from a state of its own, as an inductive relation, and [exec], the
      same run as a function with a bound on the number of steps;
    - the rules that compose runs along [ITree.bind] and [ITree.iter],
      the hint database [runs] and the tactic [run_call];
    - [computes], what a tree returns whatever answers its events, with
      its rules. *)

From stdpp Require Import base tactics option list numbers.
From Stdlib Require Import ZArith Lia.
From ITree Require Import ITree ITreeFacts Events.Exception Props.HasPost.
From S2P Require Import Prelude.

Declare Scope tree_scope.
Delimit Scope tree_scope with tree.

Notation "'let*' x := c1 'in' c2" := (ITree.bind c1 (fun x => c2))
  (at level 10, x pattern, c1 at level 100, c2 at level 200) : tree_scope.
Notation "'do' c1 'then' c2" := (ITree.bind c1 (fun _ => c2))
  (at level 10, c1 at level 100, c2 at level 200) : tree_scope.

(** ** Failures *)

(** How a program stops without returning: an exception that nobody
    catches, or the recursion budget of the model exhausted. *)
Inductive failure : Type :=
| Raised (e : py_exn)
| Exhausted.

#[export] Instance failure_eq_dec : EqDecision failure.
Proof. solve_decision. Defined.

Definition failE : Type -> Type := exceptE failure.

Definition failure_of {A : Type} (r : result A) : option failure :=
  match r with
  | Ok _ => None
  | Raise e => Some (Raised e)
  | OutOfFuel => Some Exhausted
  end.

Section trees.
Context {IO : Type -> Type}.
#[local] Abbreviation E := (failE +' IO).

(** [raise f] in any return type: the answer type of [Throw] is empty. *)
Definition raise {A : Type} (f : failure) : itree E A :=
  Vis (inl1 (Throw f)) (fun v : void => match v with end).

(** A call to the outside. *)
Definition perform {T : Type} (e : IO T) : itree E T :=
  ITree.trigger (inr1 e).

(** A call of the functional model inside a tree. *)
Definition lift {A : Type} (r : result A) : itree E A :=
  match r with
  | Ok a => Ret a
  | Raise e => raise (Raised e)
  | OutOfFuel => raise Exhausted
  end.

(** [for b in l: is_lose = body(b); if is_lose: return True] in a tree:
    [for_until] of [Prelude] with the calls of the body in the tree. *)
Fixpoint for_until_tree {F : Type -> Type} {S B : Type}
    (body : B -> S -> itree F (bool * S)) (l : list B) (s : S)
    : itree F (bool * S) :=
  match l with
  | [] => Ret (false, s)
  | b :: l' =>
      (let* (is_lose, s') := body b s in
       if is_lose then Ret (true, s') else for_until_tree body l' s')%tree
  end.

(** [for b in l: body(b)] in a tree. *)
Fixpoint for_each {B : Type} (body : B -> itree E unit) (l : list B)
    : itree E unit :=
  match l with
  | [] => Ret tt
  | b :: l' => (do body b then for_each body l')%tree
  end.

End trees.

(** ** Runs *)

(** An environment answers the events of a program from its own state;
    [None] is an event it has no answer to yet. *)
Definition environment (IO : Type -> Type) (W : Type) : Type :=
  forall T : Type, IO T -> W -> option (T * W).

(** Why a run ends before the program returns. *)
Inductive stop : Type :=
| Failed (f : failure)
| Blocked.

Inductive outcome (R : Type) : Type :=
| Returned (r : R)
| Stopped (c : stop).

Arguments Returned {R} r.
Arguments Stopped {R} c.

#[export] Instance stop_eq_dec : EqDecision stop.
Proof. solve_decision. Defined.

Definition outcome_of {A : Type} (r : result A) : outcome A :=
  match r with
  | Ok a => Returned a
  | Raise e => Stopped (Failed (Raised e))
  | OutOfFuel => Stopped (Failed Exhausted)
  end.

Section runs.
Context {IO : Type -> Type} {W : Type}.
Variable answer : environment IO W.
#[local] Abbreviation E := (failE +' IO).

(** [runs t w o w']: from the state [w] of the environment the program
    [t] ends with [o], leaving the environment in [w']. *)
Inductive runs {R : Type} : itree E R -> W -> outcome R -> W -> Prop :=
| runs_ret t r w :
    observe t = RetF r -> runs t w (Returned r) w
| runs_tau t u w o w' :
    observe t = TauF u -> runs u w o w' -> runs t w o w'
| runs_throw t f k w :
    observe t = VisF (inl1 (Throw f)) k -> runs t w (Stopped (Failed f)) w
| runs_blocked t T (e : IO T) k w :
    observe t = VisF (inr1 e) k -> answer T e w = None ->
    runs t w (Stopped Blocked) w
| runs_vis t T (e : IO T) k w x w1 o w' :
    observe t = VisF (inr1 e) k -> answer T e w = Some (x, w1) ->
    runs (k x) w1 o w' -> runs t w o w'.

(** The same run as a function, with a bound on the number of steps. *)
Fixpoint exec {R : Type} (n : nat) (t : itree E R) (w : W)
    : option (outcome R * W) :=
  match n with
  | O => None
  | S n' =>
      match observe t with
      | RetF r => Some (Returned r, w)
      | TauF u => exec n' u w
      | VisF (inl1 e) _ =>
          match e with Throw f => Some (Stopped (Failed f), w) end
      | VisF (inr1 e) k =>
          match answer _ e w with
          | None => Some (Stopped Blocked, w)
          | Some (x, w1) => exec n' (k x) w1
          end
      end
  end.

Lemma exec_runs {R} n (t : itree E R) w o w' :
  exec n t w = Some (o, w') -> runs t w o w'.
Proof.
  revert t w. induction n as [|n IH]; intros t w; [done|]. simpl.
  destruct (observe t) as [r|u|T [e|e] k] eqn:Ht.
  - intros [= <- <-]. by apply runs_ret.
  - intros H. eapply runs_tau; eauto.
  - destruct e. intros [= <- <-]. by eapply runs_throw.
  - destruct (answer T e w) as [[x w1]|] eqn:Ha.
    + intros H. eapply runs_vis; eauto.
    + intros [= <- <-]. by eapply runs_blocked.
Qed.

Lemma exec_mono {R} n m (t : itree E R) w r :
  (n <= m)%nat -> exec n t w = Some r -> exec m t w = Some r.
Proof.
  revert m t w. induction n as [|n IH]; intros m t w Hle; [done|].
  destruct m as [|m]; [lia|]. simpl.
  destruct (observe t) as [?|u|T [e|e] k]; try done.
  - apply IH. lia.
  - destruct (answer T e w) as [[x w1]|]; [apply IH; lia|done].
Qed.

Lemma runs_exec {R} (t : itree E R) w o w' :
  runs t w o w' -> exists n, exec n t w = Some (o, w').
Proof.
  induction 1 as [t r w Ht|t u w o w' Ht _ [n IH]|t f k w Ht
                 |t T e k w Ht Ha|t T e k w x w1 o w' Ht Ha _ [n IH]].
  - exists 1%nat. simpl. by rewrite Ht.
  - exists (S n). simpl. by rewrite Ht.
  - exists 1%nat. simpl. by rewrite Ht.
  - exists 1%nat. simpl. by rewrite Ht, Ha.
  - exists (S n). simpl. by rewrite Ht, Ha.
Qed.

(** A run is determined by the program and the environment. *)
Lemma runs_det {R} (t : itree E R) w o1 w1 o2 w2 :
  runs t w o1 w1 -> runs t w o2 w2 -> o1 = o2 /\ w1 = w2.
Proof.
  intros [n1 H1]%runs_exec [n2 H2]%runs_exec.
  apply (exec_mono n1 (n1 `max` n2)) in H1; [|lia].
  apply (exec_mono n2 (n1 `max` n2)) in H2; [|lia].
  rewrite H1 in H2. by injection H2.
Qed.

(** A run looks at a tree through [observe] only. *)
Lemma runs_observe {R} (t u : itree E R) w o w' :
  observe t = observe u -> runs t w o w' -> runs u w o w'.
Proof.
  intros Heq. destruct 1; rewrite Heq in *;
    eauto using @runs_ret, @runs_tau, @runs_throw, @runs_blocked, @runs_vis.
Qed.

(** *** Rules *)

Lemma runs_Ret {R} (r : R) w : runs (Ret r) w (Returned r) w.
Proof. by apply runs_ret. Qed.

Lemma runs_raise {R} f w : runs (raise f : itree E R) w (Stopped (Failed f)) w.
Proof. by eapply runs_throw. Qed.

Lemma runs_lift {A} (r : result A) w : runs (lift r) w (outcome_of r) w.
Proof. destruct r; [apply runs_Ret|apply runs_raise..]. Qed.

Lemma runs_perform {T} (e : IO T) w x w' :
  answer T e w = Some (x, w') -> runs (perform e) w (Returned x) w'.
Proof. intros Ha. eapply runs_vis; [done|exact Ha|apply runs_Ret]. Qed.

Lemma runs_perform_blocked {T} (e : IO T) w :
  answer T e w = None -> runs (perform e) w (Stopped Blocked) w.
Proof. intros Ha. by eapply runs_blocked. Qed.

Lemma runs_bind {R S} (t : itree E R) (k : R -> itree E S) w r w1 o w' :
  runs t w (Returned r) w1 -> runs (k r) w1 o w' ->
  runs (ITree.bind t k) w o w'.
Proof.
  intros Ht Hk. remember (Returned r) as o1 eqn:Ho.
  induction Ht as [t r' w Hobs|t u w o1 w1 Hobs _ IH| |
                  |t T e k' w x w2 o1 w1 Hobs Ha _ IH]; try done.
  - injection Ho as ->. eapply runs_observe; [|exact Hk].
    by rewrite observe_bind, Hobs.
  - eapply runs_tau; [by rewrite observe_bind, Hobs|]. by apply IH.
  - eapply runs_vis; [by rewrite observe_bind, Hobs|exact Ha|]. by apply IH.
Qed.

Lemma runs_bind_stop {R S} (t : itree E R) (k : R -> itree E S) w c w' :
  runs t w (Stopped c) w' -> runs (ITree.bind t k) w (Stopped c) w'.
Proof.
  intros Ht. remember (Stopped c) as o1 eqn:Ho.
  induction Ht as [|t u w o1 w1 Hobs _ IH|t f k' w Hobs
                  |t T e k' w Hobs Ha|t T e k' w x w2 o1 w1 Hobs Ha _ IH];
    try done.
  - eapply runs_tau; [by rewrite observe_bind, Hobs|]. by apply IH.
  - injection Ho as <-. eapply runs_throw. by rewrite observe_bind, Hobs.
  - injection Ho as <-. eapply runs_blocked; [|exact Ha].
    by rewrite observe_bind, Hobs.
  - eapply runs_vis; [by rewrite observe_bind, Hobs|exact Ha|]. by apply IH.
Qed.

(** A call of the functional model that returns, and one that fails. *)
Lemma runs_lift_Ok {A R} (r : result A) a (k : A -> itree E R) w o w' :
  r = Ok a -> runs (k a) w o w' -> runs (ITree.bind (lift r) k) w o w'.
Proof. intros -> Hk. eapply runs_bind; [apply runs_Ret|done]. Qed.

Lemma runs_lift_stop {A R} (r : result A) (k : A -> itree E R) w c :
  outcome_of r = Stopped c -> runs (ITree.bind (lift r) k) w (Stopped c) w.
Proof. intros Hr. apply runs_bind_stop. rewrite <- Hr. apply runs_lift. Qed.

(** One more turn of a loop. *)
Lemma runs_iter_again {I R} (body : I -> itree E (I + R)) i w i' w1 o w' :
  runs (body i) w (Returned (inl i')) w1 ->
  runs (ITree.iter body i') w1 o w' ->
  runs (ITree.iter body i) w o w'.
Proof.
  intros Hb Hi. eapply runs_observe; [symmetry; apply unfold_aloop_|].
  eapply runs_bind; [exact Hb|]. by eapply runs_tau.
Qed.

Lemma runs_iter_done {I R} (body : I -> itree E (I + R)) i w r w' :
  runs (body i) w (Returned (inr r)) w' ->
  runs (ITree.iter body i) w (Returned r) w'.
Proof.
  intros Hb. eapply runs_observe; [symmetry; apply unfold_aloop_|].
  eapply runs_bind; [exact Hb|]. apply runs_Ret.
Qed.

Lemma runs_iter_stop {I R} (body : I -> itree E (I + R)) i w c w' :
  runs (body i) w (Stopped c) w' ->
  runs (ITree.iter body i : itree E R) w (Stopped c) w'.
Proof.
  intros Hb. eapply runs_observe; [symmetry; apply unfold_aloop_|].
  by apply runs_bind_stop.
Qed.

End runs.

(** ** What a program returns, in every environment *)

(** [has_post t Q] of the library: whatever the environment answers, a
    value that [t] returns satisfies [Q]. *)
Section post.
Context {IO : Type -> Type}.
#[local] Abbreviation E := (failE +' IO).

Lemma has_post_Ret {R} (r : R) (Q : R -> Prop) :
  Q r -> has_post (Ret r : itree E R) Q.
Proof. intros Hq. by apply eqit_Ret. Qed.

Lemma has_post_raise {R} f (Q : R -> Prop) : has_post (raise f : itree E R) Q.
Proof. apply eqit_Vis. intros []. Qed.

Lemma has_post_lift {A} (r : result A) :
  has_post (lift r : itree E A) (fun a => r = Ok a).
Proof. destruct r; [by apply has_post_Ret|apply has_post_raise..]. Qed.

Lemma has_post_perform {T} (e : IO T) (Q : T -> Prop) :
  (forall x, Q x) -> has_post (perform e : itree E T) Q.
Proof. intros Hq. eapply has_post_weaken; [apply has_post_True|done]. Qed.

(** [computes t r]: a value that [t] returns is the value of [r]. *)
Definition computes {A} (t : itree E A) (r : result A) : Prop :=
  has_post t (fun a => r = Ok a).

Lemma computes_Ret {A} (a : A) : computes (Ret a) (Ok a).
Proof. by apply has_post_Ret. Qed.

Lemma computes_lift {A} (r : result A) : computes (lift r) r.
Proof. apply has_post_lift. Qed.

Lemma computes_raise {A} f (r : result A) : computes (raise f) r.
Proof. apply has_post_raise. Qed.

Lemma computes_perform (e : IO unit) : computes (perform e) (Ok tt).
Proof. apply has_post_perform. by intros []. Qed.

Lemma computes_bind {A B} (t : itree E A) (k : A -> itree E B) r k' :
  computes t r -> (forall a, r = Ok a -> computes (k a) (k' a)) ->
  computes (ITree.bind t k) (Prelude.bind r k').
Proof.
  intros Ht Hk. eapply has_post_bind; [exact Ht|].
  intros a ->. by apply Hk.
Qed.

End post.

Create HintDb runs discriminated.
#[export] Hint Resolve runs_Ret runs_raise runs_lift : runs.
#[export] Hint Extern 1 (runs _ (perform _) _ (Returned _) _) =>
  (by apply runs_perform) : runs.

(** [run_call] passes the next call of a tree, when a hint of [runs]
    states how it runs. *)
Ltac run_call := eapply runs_bind; [solve [eauto 2 with runs]|].
