(* ===== verification/Logging.v ===== *)
(** * Logging: the diagnostics of the program

    The methods of the program report what they do with [logging.debug]
    and [logging.info].  In the interactive models every such call is the
    event [Log] with its level and message.  What the calls write is
    decided by the logging library: line 5 of src/mineSweeper.py
    configures the root logger at the level [INFO], so a call at [DEBUG]
    writes nothing and a call at [INFO] writes one line,
    [INFO:root:<message>], to the standard error stream.

    This file holds the event, the two calls, and the interface between
    the operations that log and the environments that collect the lines:
    the class [Logger] states what an environment does with a [Log]
    event, the judgement [implements] states of a tree over such an
    environment which result of the functional model it computes and
    which lines it writes, and the rules compose such judgements along
    bind and the loops (hint database [implements], tactics [quiet],
    [loud] and [implemented]).  [with_stderr] adds the standard error
    stream to any environment and is a [Logger]. *)

From stdpp Require Import base tactics option list numbers strings.
From Stdlib Require Import ZArith Lia.
From ITree Require Import ITree ITreeFacts.
From S2P Require Import Prelude Interact Text.

#[local] Open Scope Z_scope.
#[local] Open Scope tree_scope.

(** ** The calls *)

Inductive log_level : Type :=
| DEBUG
| INFO.

Definition level_no (level : log_level) : Z :=
  match level with
  | DEBUG => 10
  | INFO => 20
  end.

Definition level_name (level : log_level) : string :=
  match level with
  | DEBUG => "DEBUG"
  | INFO => "INFO"
  end.

(** [logging.basicConfig(level=logging.INFO)]. *)
Definition basicConfig_level : log_level := INFO.

Variant logE : Type -> Type :=
| Log (level : log_level) (msg : string) : logE unit.

(** What the root logger writes for a call. *)
Definition emitted (level : log_level) (msg : string) : list string :=
  if decide (level_no basicConfig_level <= level_no level)
  then [level_name level +:+ ":root:" +:+ msg]
  else [].

Section calls.
Context {IO : Type -> Type} `{logE -< IO}.

Definition logging_debug (msg : string) : itree (failE +' IO) unit :=
  perform (subevent unit (Log DEBUG msg)).

Definition logging_info (msg : string) : itree (failE +' IO) unit :=
  perform (subevent unit (Log INFO msg)).

End calls.

(** ** Environments that collect the lines *)

(** An environment with a standard error stream: it answers every [Log]
    event by appending what the root logger writes for it. *)
Class Logger {IO : Type -> Type} {W : Type} `{logE -< IO}
    (answer : environment IO W) : Type := {
  stderr : W -> list string -> W;
  stderr_nil w : stderr w [] = w;
  stderr_app w l l' : stderr (stderr w l) l' = stderr w (l ++ l');
  answer_log level msg w :
    answer unit (subevent unit (Log level msg)) w =
      Some (tt, stderr w (emitted level msg));
}.

(** The lines of the loop [for_until f l s] whose passes write [g]. *)
Fixpoint for_until_log {S B : Type} (f : B -> S -> result (bool * S))
    (g : B -> S -> list string) (l : list B) (s : S) : list string :=
  match l with
  | [] => []
  | b :: l' =>
      g b s ++
      match f b s with
      | Ok (false, s') => for_until_log f g l' s'
      | _ => []
      end
  end.

(** ** Trees that implement a function of the model *)

Section implements.
Context {IO : Type -> Type} {W : Type} `{logE -< IO}.
Context (answer : environment IO W) `{!Logger answer}.

(** [implements t r lines]: a value that the tree [t] returns is the
    value of the result [r], whatever answers its events; and in every
    state of the logging environment [t] ends the way [r] says, having
    written [lines] and made no other call. *)
Definition implements {A : Type} (t : itree (failE +' IO) A) (r : result A)
    (lines : list string) : Prop :=
  computes t r /\
  forall w, runs answer t w (outcome_of r) (stderr w lines).

Lemma implements_computes {A} (t : itree (failE +' IO) A) r l :
  implements t r l -> computes t r.
Proof. by intros [??]. Qed.

Lemma implements_runs {A} (t : itree (failE +' IO) A) r l w :
  implements t r l -> runs answer t w (outcome_of r) (stderr w l).
Proof. by intros [??]. Qed.

Lemma implements_Ret {A} (a : A) : implements (Ret a) (Ok a) [].
Proof.
  split; [apply computes_Ret|]. intros w. rewrite stderr_nil. apply runs_Ret.
Qed.

Lemma implements_lift {A} (r : result A) : implements (lift r) r [].
Proof.
  split; [apply computes_lift|]. intros w. rewrite stderr_nil.
  apply runs_lift.
Qed.

Lemma implements_raise {A} e :
  implements (raise (Raised e) : itree _ A) (Raise e) [].
Proof.
  split; [apply computes_raise|]. intros w. rewrite stderr_nil.
  apply runs_raise.
Qed.

Lemma implements_exhausted {A} :
  implements (raise Exhausted : itree _ A) OutOfFuel [].
Proof.
  split; [apply computes_raise|]. intros w. rewrite stderr_nil.
  apply runs_raise.
Qed.

Lemma implements_log level msg :
  implements (perform (subevent unit (Log level msg))) (Ok tt)
    (emitted level msg).
Proof.
  split; [apply computes_perform|]. intros w. apply runs_perform.
  by rewrite answer_log.
Qed.

Lemma implements_debug msg : implements (logging_debug msg) (Ok tt) [].
Proof. apply (implements_log DEBUG). Qed.

Lemma implements_info msg :
  implements (logging_info msg) (Ok tt) (emitted INFO msg).
Proof. apply implements_log. Qed.

(** The lines of a call that returned, followed by those of what comes
    after it. *)
Lemma implements_bind {A B} (t : itree (failE +' IO) A)
    (k : A -> itree (failE +' IO) B) a l r l' :
  implements t (Ok a) l -> implements (k a) r l' ->
  implements (ITree.bind t k) r (l ++ l').
Proof.
  intros [Ht Hw] [Hk Hw']. split.
  - apply (computes_bind t k (Ok a) (fun _ => r)); [done|].
    by intros a' [= <-].
  - intros w. rewrite <- stderr_app. eapply runs_bind; [apply Hw|apply Hw'].
Qed.

(** A call that failed ends the tree. *)
Lemma implements_bind_fail {A B} (t : itree (failE +' IO) A)
    (k : A -> itree (failE +' IO) B) (r : result A) (r' : result B) l :
  implements t r l -> (forall a, r <> Ok a) ->
  r' = Prelude.bind r (fun _ => r') ->
  implements (ITree.bind t k) r' l.
Proof.
  intros [Ht Hw] Hr Hr'. split.
  - rewrite Hr'. apply computes_bind; [done|]. intros a Ha. by destruct (Hr a).
  - intros w. specialize (Hw w). rewrite Hr'.
    destruct r as [a| |]; [by destruct (Hr a)|by apply runs_bind_stop..].
Qed.

(** A call of the model and what follows it, in one rule. *)
Lemma implements_let {A B} (t : itree (failE +' IO) A)
    (k : A -> itree (failE +' IO) B) (r : result A) (k' : A -> result B)
    (l : list string) (l' : A -> list string) :
  implements t r l ->
  (forall a, r = Ok a -> implements (k a) (k' a) (l' a)) ->
  implements (ITree.bind t k) (Prelude.bind r k')
    (l ++ match r with Ok a => l' a | _ => [] end).
Proof.
  intros Ht Hk. destruct r as [a| |]; simpl.
  - eapply implements_bind; [exact Ht|by apply Hk].
  - rewrite app_nil_r. by eapply implements_bind_fail.
  - rewrite app_nil_r. by eapply implements_bind_fail.
Qed.

(** A call that writes nothing, then a tree that implements [r]. *)
Lemma implements_then {A B} (t : itree (failE +' IO) A)
    (k : A -> itree (failE +' IO) B) a r l :
  implements t (Ok a) [] -> implements (k a) r l ->
  implements (ITree.bind t k) r l.
Proof. intros Ht Hk. by apply (implements_bind t k a [] r l). Qed.

(** A call that writes, then a tree that writes nothing. *)
Lemma implements_last {A B} (t : itree (failE +' IO) A)
    (k : A -> itree (failE +' IO) B) a r l :
  implements t (Ok a) l -> implements (k a) r [] ->
  implements (ITree.bind t k) r l.
Proof.
  intros Ht Hk. rewrite <- (app_nil_r l). by apply (implements_bind t k a).
Qed.

(** A call of the model that may fail, and what follows it, when the
    lines are all written by the call. *)
Lemma implements_call {A B} (t : itree (failE +' IO) A)
    (k : A -> itree (failE +' IO) B) (r : result A) (k' : A -> result B) l :
  implements t r l ->
  (forall a, r = Ok a -> implements (k a) (k' a) []) ->
  implements (ITree.bind t k) (Prelude.bind r k') l.
Proof.
  intros Ht Hk. rewrite <- (app_nil_r l).
  replace [] with (match r with Ok a => [] | _ => @nil string end)
    by (by destruct r).
  by apply (implements_let t k r k' l (fun _ => [])).
Qed.

(** The loop [for b in l: body(b)], its lines one body after the other. *)
Lemma implements_for_each {B} (body : B -> itree (failE +' IO) unit)
    (g : B -> list string) (l : list B) :
  (forall b, b ∈ l -> implements (body b) (Ok tt) (g b)) ->
  implements (for_each body l) (Ok tt) (l ≫= g).
Proof.
  induction l as [|b l IH]; intros Hb; simpl; [apply implements_Ret|].
  eapply implements_bind; [apply Hb; left|].
  apply IH. intros b' Hin. apply Hb. by right.
Qed.

(** The loop [for_until_tree] over a body that implements the body of
    [for_until] and writes nothing. *)
Lemma implements_for_until {S B} (body : B -> S -> itree (failE +' IO) (bool * S))
    (f : B -> S -> result (bool * S)) (l : list B) (s : S) :
  (forall b s, b ∈ l -> implements (body b s) (f b s) []) ->
  implements (for_until_tree body l s) (for_until f l s) [].
Proof.
  revert s. induction l as [|b l IH]; intros s Hb; simpl.
  - apply implements_Ret.
  - pose proof (Hb b s ltac:(left)) as Hbs.
    destruct (f b s) as [[[] s']| |] eqn:Hf;
      [eapply implements_then; [exact Hbs|apply implements_Ret]
      |eapply implements_then; [exact Hbs|]
      |by eapply implements_bind_fail..].
    apply IH. intros b' s2 Hin. apply Hb. by right.
Qed.

(** The same loop over a body that writes: the lines of the passes made,
    one after the other. *)
Lemma implements_for_until_log {S B}
    (body : B -> S -> itree (failE +' IO) (bool * S))
    (f : B -> S -> result (bool * S)) (g : B -> S -> list string)
    (l : list B) (s : S) :
  (forall b s, b ∈ l -> implements (body b s) (f b s) (g b s)) ->
  implements (for_until_tree body l s) (for_until f l s)
    (for_until_log f g l s).
Proof.
  revert s. induction l as [|b l IH]; intros s Hb; simpl.
  - apply implements_Ret.
  - pose proof (Hb b s ltac:(left)) as Hbs.
    destruct (f b s) as [[[] s']| |] eqn:Hf;
      [eapply implements_bind; [exact Hbs|apply implements_Ret]
      |eapply implements_bind; [exact Hbs|]
      |rewrite app_nil_r; by eapply implements_bind_fail..].
    apply IH. intros b' s2 Hin. apply Hb. by right.
Qed.

End implements.

Create HintDb implements discriminated.
#[export] Hint Resolve implements_Ret implements_lift implements_raise
  implements_exhausted implements_debug implements_info : implements.

(** The steps of a proof along a tree.  [implemented] closes a goal that
    a hint states; [quiet] passes a call that writes nothing, [loud] a
    call that writes all the lines of the tree. *)
Ltac implemented := solve [eauto 1 with implements].
Ltac quiet := eapply implements_then; [implemented|].
Ltac loud := eapply implements_last; [implemented|].

(** ** An environment with a standard error stream *)

(** The stream that the root logger writes to. *)
Definition root_logger : environment logE (list string) :=
  fun T e err =>
    match e with
    | Log level msg => Some (tt, err ++ emitted level msg)
    end.

(** Any environment, extended with that stream. *)
Definition with_stderr {IO : Type -> Type} {W : Type}
    (answer : environment IO W) : environment (logE +' IO) (W * list string) :=
  fun T e w =>
    match e with
    | inl1 e =>
        match root_logger T e w.2 with
        | Some (x, err) => Some (x, (w.1, err))
        | None => None
        end
    | inr1 e =>
        match answer T e w.1 with
        | Some (x, w1) => Some (x, (w1, w.2))
        | None => None
        end
    end.

#[export] Program Instance with_stderr_logger {IO W}
    (answer : environment IO W) : Logger (with_stderr answer) :=
  {| stderr w l := (w.1, w.2 ++ l) |}.
Next Obligation. intros IO W answer [w err]. simpl. by rewrite app_nil_r. Qed.
Next Obligation. intros IO W answer [w err] l l'. simpl. by rewrite app_assoc. Qed.
Next Obligation. done. Qed.

(** The environment of a program that only logs. *)
Definition only_stderr : environment (logE +' void1) (unit * list string) :=
  with_stderr (fun T (e : void1 T) _ => match e with end).

(** The other events pass the stream by. *)
Lemma runs_beside {IO W} (answer : environment IO W) {T} (e : IO T)
    (w : W) (err : list string) (x : T) (w' : W) :
  answer T e w = Some (x, w') ->
  runs (with_stderr answer) (perform (inr1 e)) (w, err) (Returned x) (w', err).
Proof. intros Ha. apply runs_perform. simpl. by rewrite Ha. Qed.

Lemma runs_beside_blocked {IO W} (answer : environment IO W) {T} (e : IO T)
    (w : W) (err : list string) :
  answer T e w = None ->
  runs (with_stderr answer) (perform (inr1 e)) (w, err) (Stopped Blocked)
    (w, err).
Proof. intros Ha. apply runs_perform_blocked. simpl. by rewrite Ha. Qed.

(** A tree that implements a function of the model leaves the rest of
    the environment alone. *)
Lemma runs_implements {IO W} (answer : environment IO W) {A}
    (t : itree (failE +' (logE +' IO)) A) r l w err :
  implements (with_stderr answer) t r l ->
  runs (with_stderr answer) t (w, err) (outcome_of r) (w, err ++ l).
Proof. intros Ht. apply (implements_runs _ _ _ _ (w, err) Ht). Qed.

Lemma runs_quiet {IO W} (answer : environment IO W) {A}
    (t : itree (failE +' (logE +' IO)) A) a w err :
  implements (with_stderr answer) t (Ok a) [] ->
  runs (with_stderr answer) t (w, err) (Returned a) (w, err).
Proof.
  intros Ht. rewrite <- (app_nil_r err) at 2.
  by apply (runs_implements answer t (Ok a)).
Qed.
