(* ===== verification/Effects.v ===== *)
(** * Effects: the operations of the board with their diagnostics

    The methods of [MineModelBoard] and [MineControlBoard]
    (src/mineSweeper.py, lines 95-243 and 297-305) once more, as
    interaction trees in which every call of [logging] is an event, at
    the place the source has it: the [debug] lines of [_get] and [_set],
    the [info] lines of [left_click], [both_click] and [psudo_click], the
    [debug] line of [operation_onestep].  The state is passed as in the
    functional model, and the recursion of [one_block_sweep] has the same
    bound on its depth.

    Each tree implements the function of the same name of the functional
    model ([implements] of [Logging]): it computes the same result, and
    the lines it writes at the configured level are given by a function
    of the state ([left_click_log], [both_click_log],
    [operation_onestep_log]).  The diagnostics never influence the
    game. *)

From stdpp Require Import base tactics option list numbers relations strings.
From Stdlib Require Import ZArith Lia.
From ITree Require Import ITree ITreeFacts.
From S2P Require Import Prelude Interact Logging Text Marks Board Flag Sweep.
From S2P Require Import Chord Game Control.

#[local] Open Scope Z_scope.
#[local] Open Scope tree_scope.

(** ** The operations *)

Section operations.
Context {IO : Type -> Type} `{logE -< IO}.
#[local] Abbreviation E := (failE +' IO).

Definition _get_io (s : MineModelBoard) (x y : Z) : itree E (option mark) :=
  if in_board s x y then
    match grid_get (board s) (Z.to_nat x) (Z.to_nat y) with
    | Some m =>
        do logging_debug
             ("get " +:+ py_str_z x +:+ " " +:+ py_str_z y +:+ " " +:+ mark_str m)
        then Ret (Some m)
    | None => Ret None
    end
  else Ret None.

Definition _set_io (s : MineModelBoard) (x y : Z) (m : mark)
    : itree E (bool * MineModelBoard) :=
  if in_board s x y then
    let s := with_board s (grid_set (board s) (Z.to_nat x) (Z.to_nat y) m) in
    do logging_debug
         ("set " +:+ py_str_z x +:+ " " +:+ py_str_z y +:+ " " +:+ mark_str m)
    then Ret (true, s)
  else Ret (false, s).

(** [for (i, j) in l: ...; res.append(...)]. *)
Fixpoint collect {A B : Type} (f : A -> itree E (list B)) (l : list A)
    : itree E (list B) :=
  match l with
  | [] => Ret []
  | a :: l' =>
      let* bs := f a in
      let* res := collect f l' in
      Ret (bs ++ res)
  end.

Definition _get_neighbors_io (s : MineModelBoard) (x y : Z)
    : itree E (list (Z * Z * mark)) :=
  collect
    (fun '(i, j) =>
       let* m := _get_io s i j in
       match m with
       | Some m =>
           if py_truthy (mark_str m) then
             let* m' := _get_io s i j in
             Ret (from_option (fun m' => [(i, j, m')]) [] m')
           else Ret []
       | None => Ret []
       end)
    (neighbor_coords x y).

Definition _get_num_mines_io (s : MineModelBoard) (x y : Z) : itree E nat :=
  let* neighbor := _get_neighbors_io s x y in
  Ret (count_in mine_marks neighbor).

Definition _get_num_flagged_blocks_io (s : MineModelBoard) (x y : Z)
    : itree E nat :=
  let* neighbor := _get_neighbors_io s x y in
  Ret (count_in flag_marks neighbor).

Fixpoint one_block_sweep_io (fuel : nat) (s : MineModelBoard) (x y : Z)
    : itree E (bool * MineModelBoard) :=
  match fuel with
  | O => raise Exhausted
  | S fuel' =>
      let* m := _get_io s x y in
      if decide (m = Some mX) then Ret (true, s)
      else
        let* m := _get_io s x y in
        if decide (m <> Some mSpace) then Ret (false, s)
        else
          let* n := _get_num_mines_io s x y in
          if decide (n = 0%nat) then
            let* (_, s) := _set_io s x y mB in
            let s := with_curr_eval s (curr_eval s + 1) in
            let* neighbors := _get_neighbors_io s x y in
            for_until_tree
              (fun '(new_x, new_y, _) s => one_block_sweep_io fuel' s new_x new_y)
              neighbors s
          else
            let* n := _get_num_mines_io s x y in
            let* (_, s) := _set_io s x y (mNum n) in
            Ret (false, with_curr_eval s (curr_eval s + 1))
  end.

Definition left_click_io (fuel : nat) (s : MineModelBoard) (x y : Z)
    : itree E (bool * MineModelBoard) :=
  let* m := _get_io s x y in
  if decide (m = None) then
    do logging_info "click out of board" then Ret (false, s)
  else
    let* m := _get_io s x y in
    if decide (m = Some mX) then Ret (true, s)
    else
      let* m := _get_io s x y in
      if decide (m <> Some mSpace) then
        do logging_info "try to sweep a marked block." then Ret (false, s)
      else
        let* (is_lose, s) := one_block_sweep_io fuel s x y in
        if is_lose then Ret (true, s) else Ret (false, s).

Definition right_click_io (s : MineModelBoard) (x y : Z)
    : itree E MineModelBoard :=
  let* mark := _get_io s x y in
  let s1 := if decide (mark = Some mF)
            then with_curr_mine s (curr_mine s + 1) else s in
  let* s2 := match mark with
             | Some m =>
                 let* (_, s2) := _set_io s1 x y (dict_get dct m m) in Ret s2
             | None => Ret s1
             end in
  let* mark := _get_io s2 x y in
  if decide (mark = Some mF)
  then Ret (with_curr_mine s2 (curr_mine s2 - 1)) else Ret s2.

Definition psudo_click_io (x y : Z) : itree E unit :=
  logging_info
    ("not enough flagged mines around (" +:+ py_str_z x +:+ ", " +:+
     py_str_z y +:+ ")").

Definition both_click_io (fuel : nat) (s : MineModelBoard) (x y : Z)
    : itree E (bool * MineModelBoard) :=
  let* mark := _get_io s x y in
  match mark with
  | None => raise (Raised TypeError)
  | Some m =>
      if negb (py_str_in (mark_str m) "12345678") then
        do logging_info "both click only for number blocks" then Ret (false, s)
      else
        let* flagged := _get_num_flagged_blocks_io s x y in
        let* mark := _get_io s x y in
        let* n := match mark with
                  | Some m => lift (py_int (mark_str m))
                  | None => raise (Raised TypeError)
                  end in
        if n <=? Z.of_nat flagged then
          let* neighbors := _get_neighbors_io s x y in
          for_until_tree
            (fun '(new_x, new_y, mark) s =>
               if negb (mark_in mark flag_marks)
               then one_block_sweep_io fuel s new_x new_y
               else Ret (false, s))
            neighbors s
        else
          let* neighbors := _get_neighbors_io s x y in
          do for_each
               (fun '(new_x, new_y, mark) =>
                  if mark_in mark [mSpace; mX]
                  then psudo_click_io new_x new_y else Ret tt)
               neighbors
          then Ret (false, s)
  end.

Definition operation_onestep_io (fuel : nat) (s : MineModelBoard)
    (op : string) (x y : Z) : itree E (string * MineModelBoard) :=
  if decide (op = "left_click"%string) then
    let* (is_lose, s) := left_click_io fuel s x y in
    if is_lose then Ret ("lose"%string, s)
    else if decide (curr_eval s + num_mine s = h s * w s)
    then Ret ("win"%string, s) else Ret (""%string, s)
  else if decide (op = "right_click"%string) then
    let* s := right_click_io s x y in Ret (""%string, s)
  else if decide (op = "both_click"%string) then
    let* (is_lose, s) := both_click_io fuel s x y in
    if is_lose then Ret ("lose"%string, s)
    else if decide (curr_eval s + num_mine s = h s * w s)
    then Ret ("win"%string, s) else Ret (""%string, s)
  else
    do logging_debug "illegal op" then Ret (""%string, s).

Definition click_io (fuel : nat) (s : MineModelBoard) (x y button : Z)
    : itree E MineModelBoard :=
  let '(x, y) := _axis_2_grid x y in
  if decide (button = 1) then
    let* (_, s) := left_click_io fuel s y x in Ret s
  else if decide (button = 3) then right_click_io s y x
  else Ret s.

End operations.

(** ** The lines the operations write *)

Definition left_click_log (s : MineModelBoard) (x y : Z) : list string :=
  if decide (_get s x y = None) then emitted INFO "click out of board"
  else if decide (_get s x y = Some mX) then []
  else if decide (_get s x y <> Some mSpace)
  then emitted INFO "try to sweep a marked block."
  else [].

Definition psudo_click_log (x y : Z) : list string :=
  emitted INFO
    ("not enough flagged mines around (" +:+ py_str_z x +:+ ", " +:+
     py_str_z y +:+ ")").

Definition both_click_log (s : MineModelBoard) (x y : Z) : list string :=
  match _get s x y with
  | None => []
  | Some m =>
      if negb (py_str_in (mark_str m) "12345678")
      then emitted INFO "both click only for number blocks"
      else
        match py_int (mark_str m) with
        | Ok n =>
            if n <=? Z.of_nat (_get_num_flagged_blocks s x y) then []
            else
              _get_neighbors s x y ≫=
                (fun '(new_x, new_y, mark) =>
                   if mark_in mark [mSpace; mX]
                   then psudo_click_log new_x new_y else [])
        | _ => []
        end
  end.

(** The neighbours of a cell that are still covered, and the line that
    [psudo_click] writes for one of them. *)
Definition covered (s : MineModelBoard) (x y : Z) : list (Z * Z * mark) :=
  filter (fun block => block.2 ∈ [mSpace; mX]) (_get_neighbors s x y).

Definition hint (block : Z * Z * mark) : string :=
  "INFO:root:not enough flagged mines around (" +:+ py_str_z block.1.1 +:+
  ", " +:+ py_str_z block.1.2 +:+ ")".

Definition operation_onestep_log (s : MineModelBoard) (op : string)
    (x y : Z) : list string :=
  if decide (op = "left_click"%string) then left_click_log s x y
  else if decide (op = "both_click"%string) then both_click_log s x y
  else [].

Definition click_log (s : MineModelBoard) (x y button : Z) : list string :=
  let '(x, y) := _axis_2_grid x y in
  if decide (button = 1) then left_click_log s y x else [].

(** The lines of the second loop of [both_click]. *)
Lemma psudo_loop_log (l : list (Z * Z * mark)) :
  l ≫= (fun '(new_x, new_y, mark) =>
          if mark_in mark [mSpace; mX]
          then psudo_click_log new_x new_y else []) =
  hint <$> filter (fun block => block.2 ∈ [mSpace; mX]) l.
Proof.
  induction l as [|[[i j] m] l IH]; [done|]. rewrite bind_cons, filter_cons, IH.
  destruct m; simpl; try reflexivity; case_decide; try reflexivity; set_solver.
Qed.

(** ** The operations implement the functional model *)

Section implement.
Context {IO : Type -> Type} {W : Type} `{logE -< IO}.
Context (answer : environment IO W) `{!Logger answer}.
Implicit Types (s : MineModelBoard) (x y : Z) (m : mark).

#[local] Abbreviation impl := (implements answer).

Lemma _get_io_implements s x y : impl (_get_io s x y) (Ok (_get s x y)) [].
Proof.
  unfold _get_io, _get. destruct (in_board s x y); [|implemented].
  destruct (grid_get _ _ _) as [m|]; [quiet|]; implemented.
Qed.

Lemma _set_io_implements s x y m : impl (_set_io s x y m) (Ok (_set s x y m)) [].
Proof.
  unfold _set_io, _set. destruct (in_board s x y); [quiet|]; implemented.
Qed.

#[local] Hint Resolve _get_io_implements _set_io_implements : implements.

Lemma collect_implements {A B} (f : A -> itree (failE +' IO) (list B))
    (g : A -> list B) (l : list A) :
  (forall a, impl (f a) (Ok (g a)) []) ->
  impl (collect f l) (Ok (flat_map g l)) [].
Proof.
  intros Hf. induction l as [|a l IH]; simpl; [implemented|].
  do 2 quiet. implemented.
Qed.

Lemma _get_neighbors_io_implements s x y :
  impl (_get_neighbors_io s x y) (Ok (_get_neighbors s x y)) [].
Proof.
  apply collect_implements. intros [i j]. quiet.
  destruct (_get s i j) as [m|] eqn:Hg; [|implemented].
  destruct (py_truthy (mark_str m)); [|implemented].
  quiet. rewrite Hg. implemented.
Qed.

#[local] Hint Resolve _get_neighbors_io_implements : implements.

Lemma _get_num_mines_io_implements s x y :
  impl (_get_num_mines_io s x y) (Ok (_get_num_mines s x y)) [].
Proof. unfold _get_num_mines_io. quiet. implemented. Qed.

Lemma _get_num_flagged_blocks_io_implements s x y :
  impl (_get_num_flagged_blocks_io s x y)
    (Ok (_get_num_flagged_blocks s x y)) [].
Proof. unfold _get_num_flagged_blocks_io. quiet. implemented. Qed.

#[local] Hint Resolve _get_num_mines_io_implements
  _get_num_flagged_blocks_io_implements : implements.

(** The state after a write. *)
Lemma _set_io_state s x y m :
  impl (let* (_, s2) := _set_io s x y m in Ret s2) (Ok (_set s x y m).2) [].
Proof. quiet. destruct (_set s x y m) as [b s2]. implemented. Qed.

#[local] Hint Resolve _set_io_state : implements.

Lemma one_block_sweep_io_implements fuel s x y :
  impl (one_block_sweep_io fuel s x y) (one_block_sweep fuel s x y) [].
Proof.
  revert s x y. induction fuel as [|fuel IH]; intros s x y; simpl;
    [implemented|].
  quiet. case_decide; [implemented|].
  quiet. case_decide; [implemented|].
  quiet. case_decide.
  - quiet. destruct (_set s x y mB) as [b s1]; simpl. quiet.
    apply implements_for_until. intros [[i j] m] s2 _. apply IH.
  - do 2 quiet. destruct (_set s x y _) as [b s1]; simpl. implemented.
Qed.

#[local] Hint Resolve one_block_sweep_io_implements : implements.

Lemma left_click_io_implements fuel s x y :
  impl (left_click_io fuel s x y) (left_click fuel s x y)
    (left_click_log s x y).
Proof.
  unfold left_click_io, left_click, left_click_log.
  quiet. case_decide; [loud; implemented|].
  quiet. case_decide; [implemented|].
  quiet. case_decide; [loud; implemented|].
  apply implements_call; [implemented|]. intros [[] s'] _; implemented.
Qed.

Lemma right_click_io_implements s x y :
  impl (right_click_io s x y) (Ok (right_click s x y)) [].
Proof.
  unfold right_click_io, right_click. quiet. cbv zeta.
  destruct (_get s x y) as [m|]; do 2 quiet; case_decide; implemented.
Qed.

Lemma psudo_loop_implements (l : list (Z * Z * mark)) :
  impl
    (for_each
       (fun '(new_x, new_y, mark) =>
          if mark_in mark [mSpace; mX]
          then psudo_click_io new_x new_y else Ret tt) l)
    (Ok tt)
    (l ≫= (fun '(new_x, new_y, mark) =>
             if mark_in mark [mSpace; mX]
             then psudo_click_log new_x new_y else [])).
Proof.
  apply implements_for_each. intros [[i j] m] _.
  destruct (mark_in m _); [apply implements_info|implemented].
Qed.

#[local] Hint Resolve psudo_loop_implements : implements.

Lemma both_click_io_implements fuel s x y :
  impl (both_click_io fuel s x y) (both_click fuel s x y)
    (both_click_log s x y).
Proof.
  unfold both_click_io, both_click, both_click_log. quiet.
  destruct (_get s x y) as [m|] eqn:Hg; [|implemented].
  destruct (negb _); [loud; implemented|]. do 2 quiet. rewrite Hg.
  destruct (py_int (mark_str m)) as [n| |] eqn:Hn;
    [|by eapply implements_bind_fail; [apply implements_lift|..]..].
  quiet. simpl. destruct (n <=? _); quiet.
  - apply implements_for_until. intros [[i j] m'] s' _.
    destruct (negb _); implemented.
  - rewrite psudo_loop. loud. implemented.
Qed.

#[local] Hint Resolve left_click_io_implements right_click_io_implements
  both_click_io_implements : implements.

Lemma operation_onestep_io_implements fuel s op x y :
  impl (operation_onestep_io fuel s op x y) (operation_onestep fuel s op x y)
    (operation_onestep_log s op x y).
Proof.
  unfold operation_onestep_io, operation_onestep, operation_onestep_log.
  case_decide as Hl.
  { apply implements_call; [implemented|].
    intros [[] s'] _; [|case_decide]; implemented. }
  case_decide as Hr.
  { rewrite decide_False by congruence. quiet. implemented. }
  case_decide as Hb.
  { apply implements_call; [implemented|].
    intros [[] s'] _; [|case_decide]; implemented. }
  quiet. implemented.
Qed.

Lemma click_io_implements fuel s px py button :
  impl (click_io fuel s px py button) (click fuel s px py button)
    (click_log s px py button).
Proof.
  unfold click_io, click, click_log. destruct (_axis_2_grid px py) as [x y].
  case_decide.
  { apply implements_call; [implemented|]. intros [b s'] _. implemented. }
  case_decide; implemented.
Qed.

End implement.

#[export] Hint Resolve _get_io_implements _set_io_implements
  _get_neighbors_io_implements _get_num_mines_io_implements
  _get_num_flagged_blocks_io_implements one_block_sweep_io_implements
  left_click_io_implements right_click_io_implements both_click_io_implements
  operation_onestep_io_implements click_io_implements : implements.

(** ** The diagnostics of the operations *)

Section diagnostics.
Context {IO : Type -> Type} {W : Type} (answer : environment IO W).
Implicit Types (s : MineModelBoard) (x y : Z).

(** C14.  The operations with their diagnostics implement the functional
    model: whatever answers its events, [operation_onestep] as a tree
    returns only the answer and the state that the function
    [Game.operation_onestep] computes; and beside any environment, with
    the root logger at the level of the source, it ends as the function
    says, with its exception or out of budget when the function is,
    having written to the standard error stream the lines of
    [operation_onestep_log] and nothing else: no line of [_get] and
    [_set], one line for a left click beside the board or on a cell that
    is not covered, one for a chord on a cell that shows no number, one
    for every covered neighbour of a chord with too few marks. *)
Theorem operation_onestep_io_refines (fuel : nat) (s : MineModelBoard)
    (op : string) (x y : Z) :
  implements (with_stderr answer) (operation_onestep_io fuel s op x y)
    (operation_onestep fuel s op x y) (operation_onestep_log s op x y).
Proof. apply operation_onestep_io_implements. Qed.

(** C24.  Beside the board the three operations differ: [left_click]
    returns without a change and logs [click out of board];
    [right_click] returns without a change and logs nothing;
    [both_click] raises [TypeError] and logs nothing. *)
Theorem off_board_log (fuel : nat) (s : MineModelBoard) (x y : Z) :
  _get s x y = None ->
  implements (with_stderr answer) (left_click_io fuel s x y)
    (Ok (false, s)) ["INFO:root:click out of board"%string] /\
  implements (with_stderr answer) (right_click_io s x y) (Ok s) [] /\
  implements (with_stderr answer) (both_click_io fuel s x y)
    (Raise TypeError) [].
Proof.
  intros Hg.
  pose proof (left_click_io_implements (with_stderr answer) fuel s x y) as Hl.
  pose proof (right_click_io_implements (with_stderr answer) s x y) as Hr.
  pose proof (both_click_io_implements (with_stderr answer) fuel s x y) as Hb.
  rewrite (right_click_out s x y Hg) in Hr.
  unfold left_click, left_click_log, both_click, both_click_log in *.
  rewrite Hg in *. by rewrite decide_True in Hl by done.
Qed.

(** C25.  A chord on a number with fewer marked neighbours than the
    number changes nothing, reports no loss, and logs one hint for every
    neighbour that is still covered (an unrevealed cell or a hidden
    mine), in the order of the neighbour list, and nothing else. *)
Theorem both_click_hints (fuel : nat) (s : MineModelBoard) (x y : Z)
    (n : nat) :
  _get s x y = Some (mNum n) -> (1 <= n <= 8)%nat ->
  (_get_num_flagged_blocks s x y < n)%nat ->
  implements (with_stderr answer) (both_click_io fuel s x y) (Ok (false, s))
    (hint <$> covered s x y).
Proof.
  intros Hg Hn Hlt.
  pose proof (both_click_io_implements (with_stderr answer) fuel s x y) as Hb.
  rewrite (both_click_num _ _ _ _ _ Hg Hn), decide_False in Hb by lia.
  unfold both_click_log in Hb. rewrite Hg in Hb.
  rewrite (digits_in_revealed (mNum n)) in Hb by done. simpl in Hb.
  rewrite py_int_str in Hb. rewrite (proj2 (Z.leb_gt _ _)) in Hb by lia.
  by rewrite psudo_loop_log in Hb.
Qed.

(** C35.  An operation that is none of the three is ignored in silence:
    [operation_onestep] answers the empty string and leaves the state,
    and its diagnostic [illegal op], logged at the level [DEBUG], is not
    written. *)
Theorem illegal_op_silent (fuel : nat) (s : MineModelBoard) (op : string)
    (x y : Z) :
  op ∉ ["left_click"; "right_click"; "both_click"]%string ->
  implements (with_stderr answer) (operation_onestep_io fuel s op x y)
    (Ok (""%string, s)) [].
Proof.
  intros Hop.
  pose proof (operation_onestep_io_implements (with_stderr answer)
                fuel s op x y) as Ho.
  unfold operation_onestep, operation_onestep_log in Ho.
  by rewrite !decide_False in Ho by set_solver.
Qed.

End diagnostics.

Lemma off_board_log_witness :
  implements only_stderr (left_click_io 9 board_3x3 5 5)
    (Ok (false, board_3x3)) ["INFO:root:click out of board"%string] /\
  implements only_stderr (right_click_io board_3x3 5 5) (Ok board_3x3) [] /\
  implements only_stderr (both_click_io 9 board_3x3 5 5) (Raise TypeError) [].
Proof. by apply (off_board_log _ 9 board_3x3 5 5). Defined.

Lemma both_click_hints_witness :
  implements only_stderr (both_click_io 9 board_3x3_one 1 1)
    (Ok (false, board_3x3_one))
    ["INFO:root:not enough flagged mines around (0, 0)";
     "INFO:root:not enough flagged mines around (0, 1)";
     "INFO:root:not enough flagged mines around (0, 2)";
     "INFO:root:not enough flagged mines around (1, 0)";
     "INFO:root:not enough flagged mines around (1, 2)";
     "INFO:root:not enough flagged mines around (2, 0)";
     "INFO:root:not enough flagged mines around (2, 1)";
     "INFO:root:not enough flagged mines around (2, 2)"]%string.
Proof.
  apply (both_click_hints _ 9 board_3x3_one 1 1 1); vm_compute; (done || lia).
Defined.

Lemma illegal_op_silent_witness :
  implements only_stderr (operation_onestep_io 9 board_3x3 "x" 0 0)
    (Ok (""%string, board_3x3)) [].
Proof. apply (illegal_op_silent _ 9 board_3x3 "x" 0 0). set_solver. Defined.
