(* ===== verification/Recur.v ===== *)
(** * Recur: [one_block_sweep] by general recursion

    [one_block_sweep] (src/mineSweeper.py, lines 209-223) calls itself
    with no bound.  [one_block_sweep_rec] is its model without fuel: an
    interaction tree in which every recursive call is an event that [rec]
    answers with the procedure itself.  Such a tree may diverge; this file
    shows that it never does, and that it returns what the bounded model
    of [Sweep] returns with enough fuel.  The accessors are those of the
    functional model: their diagnostics, which are never written, are in
    [Effects]. *)

From stdpp Require Import base tactics option list numbers.
From Stdlib Require Import ZArith Lia.
From ITree Require Import ITree ITreeFacts.
From S2P Require Import Prelude Interact Text Marks Board Sweep.

#[local] Open Scope Z_scope.

(** ** The procedure *)

(** The body of the procedure; [call] is the recursive call. *)
Definition one_block_sweep_body (arg : MineModelBoard * Z * Z)
    : itree (callE (MineModelBoard * Z * Z) (bool * MineModelBoard) +' void1)
            (bool * MineModelBoard) :=
  let '(s, x, y) := arg in
  if decide (_get s x y = Some mX) then Ret (true, s)
  else if decide (_get s x y <> Some mSpace) then Ret (false, s)
  else if decide (_get_num_mines s x y = 0%nat) then
    let s := (_set s x y mB).2 in
    let s := with_curr_eval s (curr_eval s + 1) in
    for_until_tree
      (fun '(new_x, new_y, _) s => call (s, new_x, new_y))
      (_get_neighbors s x y) s
  else
    let s := (_set s x y (mNum (_get_num_mines s x y))).2 in
    Ret (false, with_curr_eval s (curr_eval s + 1)).

Definition one_block_sweep_rec (s : MineModelBoard) (x y : Z)
    : itree void1 (bool * MineModelBoard) :=
  rec one_block_sweep_body (s, x, y).

(** ** Loops inside a tree *)

Section loops.
Context {F G : Type -> Type} {S B : Type}.

(** An interpreter goes through the loop. *)
Lemma interp_for_until (f : F ~> itree G) (body : B -> S -> itree F (bool * S))
    (l : list B) (s : S) :
  interp f (for_until_tree body l s)
  ≈ for_until_tree (fun b s => interp f (body b s)) l s.
Proof.
  revert s. induction l as [|b l IH]; intros s; simpl.
  - by rewrite interp_ret.
  - rewrite interp_bind. apply eutt_eq_bind. intros [[] s'].
    + by rewrite interp_ret.
    + apply IH.
Qed.

(** A loop whose calls return what the calls of [for_until] return,
    returns what [for_until] returns. *)
Lemma for_until_tree_Ret (f : B -> S -> result (bool * S))
    (body : B -> S -> itree G (bool * S)) (l : list B) (s : S) r :
  (forall b s r, b ∈ l -> f b s = Ok r -> body b s ≈ Ret r) ->
  for_until f l s = Ok r -> for_until_tree body l s ≈ Ret r.
Proof.
  revert s. induction l as [|b l IH]; intros s Hb; simpl.
  - by intros [= <-].
  - destruct (f b s) as [[[] s']| |] eqn:Hf; try done.
    + intros [= <-]. rewrite (Hb b s _ ltac:(left) Hf), bind_ret_l. done.
    + intros Hl. rewrite (Hb b s _ ltac:(left) Hf), bind_ret_l.
      apply IH; [|done]. intros b' s2 r' Hin. apply Hb. by right.
Qed.

End loops.

(** ** Termination *)

(** The recursive calls of a loop are calls of the procedure. *)
Lemma interp_calls (l : list (Z * Z * mark)) (s : MineModelBoard) :
  interp (recursive one_block_sweep_body)
    (for_until_tree (fun '(new_x, new_y, _) s => call (s, new_x, new_y)) l s)
  ≈ for_until_tree
      (fun '(new_x, new_y, _) s => one_block_sweep_rec s new_x new_y) l s.
Proof.
  rewrite interp_for_until. revert s.
  induction l as [|[[i j] m] l IH]; intros s; simpl; [reflexivity|].
  rewrite interp_recursive_call. apply eutt_eq_bind.
  intros [[] s']; [reflexivity|apply IH].
Qed.

(** One unfolding of the recursion. *)
Lemma one_block_sweep_rec_unfold s x y :
  one_block_sweep_rec s x y
  ≈ if decide (_get s x y = Some mX) then Ret (true, s)
    else if decide (_get s x y <> Some mSpace) then Ret (false, s)
    else if decide (_get_num_mines s x y = 0%nat) then
      for_until_tree
        (fun '(new_x, new_y, _) s => one_block_sweep_rec s new_x new_y)
        (_get_neighbors (open_cell s x y) x y) (open_cell s x y)
    else Ret (false, open_cell s x y).
Proof.
  unfold one_block_sweep_rec at 1. rewrite rec_as_interp.
  unfold one_block_sweep_body at 2. cbv beta iota.
  unfold open_cell, open_mark. repeat case_decide; try by rewrite interp_ret.
  apply interp_calls.
Qed.

(** What the bounded model returns, the procedure returns. *)
Lemma sweep_rec_fuel fuel s x y r :
  one_block_sweep fuel s x y = Ok r -> one_block_sweep_rec s x y ≈ Ret r.
Proof.
  revert s x y r. induction fuel as [|fuel IH]; intros s x y r; [done|].
  rewrite one_block_sweep_S, one_block_sweep_rec_unfold.
  repeat case_decide; try by intros [= <-].
  apply for_until_tree_Ret. intros [[i j] m] s' r' _. apply IH.
Qed.

(** C2.  [one_block_sweep] terminates: on every board and from every cell
    the procedure without a bound on its recursion returns, and what it
    returns is the answer and the state of the bounded model with any
    budget above the number of unrevealed cells. *)
Theorem one_block_sweep_terminates (s : MineModelBoard) (x y : Z) :
  exists r, one_block_sweep_rec s x y ≈ Ret r /\
    forall fuel, (unrevealed s < fuel)%nat -> one_block_sweep fuel s x y = Ok r.
Proof.
  destruct (sweep_total (Datatypes.S (unrevealed s)) s x y) as (b & s' & Hr); [lia|].
  exists (b, s'). split; [by eapply sweep_rec_fuel|].
  intros fuel Hf. rewrite <- Hr. apply sweep_fuel_indep; lia.
Qed.
