(* ===== verification/Console.v ===== *)
(** * Console: the console game as an interactive program

    [run_input] (src/mineSweeper.py, lines 245-288) with its calls of
    [print] and [input] as events of an interaction tree: [Print] carries
    the line printed, [Input] is answered with the next line, or with
    [None] at the end of the input, where [input] raises [EOFError].  The
    [while True] loop is [ITree.iter]; the steps of the game are the
    operations of [Effects], with their diagnostics.

    The console that answers the events is [console_answer]: it hands out
    the lines of a script one by one and collects what is printed; the
    terminal [terminal_answer] is that console with the standard error
    stream of [Logging] beside it.  Against the terminal the program
    behaves as [Input.run_input] says, and its run also shows what
    [run_input] leaves out: the lines printed before an exception, and
    the lines logged ([run_input_log]).  For every console whatsoever,
    the state the program returns is a state of the game. *)

From stdpp Require Import base tactics option list numbers relations strings.
From Stdlib Require Import ZArith Lia.
From ITree Require Import ITree ITreeFacts Props.HasPost.
From S2P Require Import Prelude Interact Logging Text Marks Board Flag Output.
From S2P Require Import Sweep Invariant Chord Game Input Effects.

#[local] Open Scope Z_scope.
#[local] Open Scope tree_scope.

(** ** The events *)

Variant consoleE : Type -> Type :=
| Print (line : string) : consoleE unit
| Input : consoleE (option string).

(** The lines still to be read, and the lines printed so far. *)
Definition console : Type := list string * list string.

Definition console_answer : environment consoleE console :=
  fun T e w =>
    match e with
    | Print line => Some (tt, (w.1, w.2 ++ [line]))
    | Input =>
        match w.1 with
        | [] => Some (None, w)
        | line :: rest => Some (Some line, (rest, w.2))
        end
    end.

(** The console with the standard error stream beside it:
    [(inputs, out, err)] are the lines still to be read, the lines
    printed and the lines logged. *)
Definition terminal : Type := console * list string.

Definition terminal_answer : environment (logE +' consoleE) terminal :=
  with_stderr console_answer.

(** ** The program *)

#[local] Abbreviation E := (failE +' (logE +' consoleE)).

Definition py_print (line : string) : itree E unit :=
  perform (inr1 (Print line)).

Definition py_input : itree E string :=
  let* line := perform (inr1 Input) in
  match line with
  | Some line => Ret line
  | None => raise (Raised EOFError)
  end.

Definition parse_input_io (s : string) : itree E (option (string * Z * Z)) :=
  let s := py_split s in
  if decide (length s ∉ [2; 3]%nat) then
    do logging_info "unsupported op" then Ret None
  else
    let '(op, x, y) :=
      if decide (length s = 2%nat) then ("left_click"%string, s !!! 0%nat, s !!! 1%nat)
      else (s !!! 0%nat, s !!! 1%nat, s !!! 2%nat) in
    let op := resolve_op op_dict op in
    do py_print (py_join " " [op; x; y]) then
    let* x := lift (py_int x) in
    let* y := lift (py_int y) in
    Ret (Some (op, x - 1, y - 1)).

Definition win_io (s : MineModelBoard) : itree E unit :=
  do py_print (output s) then py_print "win".

Definition loss_io (s : MineModelBoard) : itree E unit :=
  do py_print (output s) then py_print "loss".

(** What the loop does with a line that is not a command of its own
    (lines 277-288): [inl] is one more turn of the loop, [inr] leaves
    it. *)
Definition turn_io (fuel : nat) (s : MineModelBoard) (line : string)
    : itree E (MineModelBoard + MineModelBoard) :=
  let* parsed := parse_input_io line in
  match parsed with
  | None => raise (Raised TypeError)
  | Some (op, x, y) =>
      let* (res, s) := operation_onestep_io fuel s op x y in
      if decide (res = "win"%string) then
        do win_io s then Ret (inr s)
      else if decide (res = "lose"%string) then
        do loss_io s then Ret (inr s)
      else if decide (res = ""%string) then Ret (inl s)
      else do logging_debug "unexpected step result" then Ret (inl s)
  end.

Definition run_input_io (fuel : nat) : MineModelBoard -> itree E MineModelBoard :=
  ITree.iter (fun s =>
    do py_print (output s) then
    let* line := py_input in
    if decide (line = "q"%string) then Ret (inr s)
    else if decide (line = "r"%string) then Ret (inr s)
    else turn_io fuel s line).

(** What [parse_input] prints on a line, whether it returns or raises. *)
Definition parse_printed (line : string) : list string :=
  let s := py_split line in
  if decide (length s ∉ [2; 3]%nat) then []
  else if decide (length s = 2%nat) then
    [py_join " " ["left_click"%string; s !!! 0%nat; s !!! 1%nat]]
  else [py_join " " [resolve_op op_dict (s !!! 0%nat); s !!! 1%nat; s !!! 2%nat]].

(** What [parse_input] logs on a line. *)
Definition parse_log (line : string) : list string :=
  if decide (length (py_split line) ∉ [2; 3]%nat)
  then emitted INFO "unsupported op" else [].

(** One turn in the functional model: the answer of the operation that
    the line asks for. *)
Definition turn (fuel : nat) (s : MineModelBoard) (line : string)
    : result (string * MineModelBoard) :=
  (let* (_, parsed) := parse_input line in
   match parsed with
   | None => Raise TypeError
   | Some (op, x, y) => operation_onestep fuel s op x y
   end)%py.

(** What the turn logs: the lines of the parser, then those of the
    operation. *)
Definition turn_log (s : MineModelBoard) (line : string) : list string :=
  parse_log line ++
  match parse_input line with
  | Ok (_, Some (op, x, y)) => operation_onestep_log s op x y
  | _ => []
  end.

(** What the loop prints after the turn, and how it goes on. *)
Definition verdict (r : result (string * MineModelBoard)) : list string :=
  match r with
  | Ok (res, s) =>
      if decide (res = "win"%string) then win s
      else if decide (res = "lose"%string) then loss s else []
  | _ => []
  end.

Definition next (r : result (string * MineModelBoard))
    : outcome (MineModelBoard + MineModelBoard) :=
  match r with
  | Ok (res, s) =>
      Returned (if decide (res = "win"%string) then inr s
                else if decide (res = "lose"%string) then inr s else inl s)
  | Raise e => Stopped (Failed (Raised e))
  | OutOfFuel => Stopped (Failed Exhausted)
  end.

(** The state in the result of [Input.run_input]. *)
Definition state_of (r : result (list string * MineModelBoard))
    : result MineModelBoard :=
  (let* (_, s') := r in Ok s')%py.

(** What the game logs on a script. *)
Fixpoint run_input_log (fuel : nat) (s : MineModelBoard)
    (inputs : list string) : list string :=
  match inputs with
  | [] => []
  | line :: inputs =>
      if decide (line = "q"%string) then []
      else if decide (line = "r"%string) then []
      else
        turn_log s line ++
        match turn fuel s line with
        | Ok (res, s1) =>
            if decide (res = "win"%string) then []
            else if decide (res = "lose"%string) then []
            else run_input_log fuel s1 inputs
        | _ => []
        end
  end.

(** ** Runs on the terminal *)

Section console.
Implicit Types (inputs out err : list string) (line : string).
Implicit Types (s : MineModelBoard).

#[local] Abbreviation run := (runs terminal_answer).

Lemma runs_print line inputs out err :
  run (py_print line) (inputs, out, err) (Returned tt)
    (inputs, out ++ [line], err).
Proof. by apply runs_perform. Qed.

Lemma runs_input line rest out err :
  run py_input (line :: rest, out, err) (Returned line) (rest, out, err).
Proof. run_call. apply runs_Ret. Qed.

Lemma runs_input_eof out err :
  run py_input ([], out, err) (Stopped (Failed (Raised EOFError)))
    ([], out, err).
Proof. run_call. apply runs_raise. Qed.

Lemma runs_debug msg inputs out err :
  run (logging_debug msg) (inputs, out, err) (Returned tt) (inputs, out, err).
Proof. apply (runs_quiet console_answer), implements_debug. Qed.

#[local] Hint Resolve runs_print runs_input runs_input_eof runs_debug : runs.

Lemma parse_printed_spec line printed parsed :
  parse_input line = Ok (printed, parsed) -> parse_printed line = printed.
Proof.
  unfold parse_input, parse_printed. case_decide; [by intros [= <- <-]|].
  case_decide; repeat (match goal with
            | |- context [py_int ?t] => destruct (py_int t)
            end; simpl; try done); by intros [= <- <-].
Qed.

(** The line is echoed before the numbers are converted. *)
Lemma runs_parse_words op x y inputs out err :
  run (do py_print (py_join " " [op; x; y]) then
       let* x := lift (py_int x) in
       let* y := lift (py_int y) in
       Ret (Some (op, x - 1, y - 1))) (inputs, out, err)
    (outcome_of (let* x := py_int x in
                 let* y := py_int y in Ok (Some (op, x - 1, y - 1)))%py)
    (inputs, out ++ [py_join " " [op; x; y]], err).
Proof.
  run_call.
  destruct (py_int x) as [vx| |] eqn:Hx; [|by apply runs_lift_stop..].
  eapply runs_lift_Ok; [done|].
  destruct (py_int y) as [vy| |] eqn:Hy; [|by apply runs_lift_stop..].
  eapply runs_lift_Ok; [done|]. apply runs_Ret.
Qed.

Lemma runs_parse line inputs out err :
  run (parse_input_io line) (inputs, out, err)
    (outcome_of (let* (_, parsed) := parse_input line in Ok parsed)%py)
    (inputs, out ++ parse_printed line, err ++ parse_log line).
Proof.
  unfold parse_input_io, parse_input, parse_printed, parse_log.
  case_decide; rewrite app_nil_r.
  { eapply runs_bind; [|apply runs_Ret].
    apply (runs_implements console_answer _ (Ok tt)), implements_info. }
  case_decide;
    match goal with
    | |- context [py_join " " [?op; ?x; ?y]] =>
        pose proof (runs_parse_words op x y inputs out err) as Hw; revert Hw;
        destruct (py_int x); [|done..]; by destruct (py_int y)
    end.
Qed.

(** [win] and [loss]: the board, then the verdict. *)
Lemma runs_print2 line line' inputs out err :
  run (do py_print line then py_print line') (inputs, out, err)
    (Returned tt) (inputs, out ++ [line; line'], err).
Proof.
  run_call. change [line; line'] with ([line] ++ [line']).
  rewrite app_assoc. apply runs_print.
Qed.

#[local] Hint Resolve runs_print2 : runs.

(** What the loop does with the answer of the operation. *)
Lemma runs_verdict res s inputs out err :
  run (if decide (res = "win"%string) then do win_io s then Ret (inr s)
       else if decide (res = "lose"%string) then do loss_io s then Ret (inr s)
       else if decide (res = ""%string) then Ret (inl s)
       else do logging_debug "unexpected step result" then Ret (inl s))
    (inputs, out, err) (next (Ok (res, s)))
    (inputs, out ++ verdict (Ok (res, s)), err).
Proof.
  simpl. repeat case_decide; rewrite ?app_nil_r;
    try run_call; apply runs_Ret.
Qed.

Lemma runs_turn fuel s line inputs out err :
  run (turn_io fuel s line) (inputs, out, err) (next (turn fuel s line))
    (inputs, out ++ parse_printed line ++ verdict (turn fuel s line),
     err ++ turn_log s line).
Proof.
  pose proof (runs_parse line inputs out err) as Hp.
  unfold turn_io, turn, turn_log.
  destruct (parse_input line) as [[printed [[[op x] y]|]]|e|]; simpl in *;
    [|rewrite !app_nil_r; eapply runs_bind;
       [exact Hp|cbv beta iota; apply runs_raise]
     |rewrite !app_nil_r; by apply runs_bind_stop..].
  eapply runs_bind; [exact Hp|]. cbv beta iota. rewrite !app_assoc.
  pose proof (runs_implements console_answer _ _ _
    (inputs, out ++ parse_printed line) (err ++ parse_log line)
    (operation_onestep_io_implements _ fuel s op x y)) as Hop.
  destruct (operation_onestep fuel s op x y) as [[res s1]|e|];
    [|rewrite app_nil_r; by apply runs_bind_stop..].
  eapply runs_bind; [exact Hop|]. apply runs_verdict.
Qed.

(** [Input.run_input] on a line that is not a command of the loop. *)
Lemma run_input_cons fuel s line inputs :
  line <> "q"%string -> line <> "r"%string ->
  run_input fuel s (line :: inputs) =
    match turn fuel s line with
    | Ok (res, s1) =>
        if decide (res = "win"%string) then
          Ok (output s :: parse_printed line ++ win s1, s1)
        else if decide (res = "lose"%string) then
          Ok (output s :: parse_printed line ++ loss s1, s1)
        else (let* (rest, s2) := run_input fuel s1 inputs in
              Ok (output s :: parse_printed line ++ rest, s2))%py
    | Raise e => Raise e
    | OutOfFuel => OutOfFuel
    end.
Proof.
  intros Hq Hr. cbn [run_input]. rewrite !decide_False by done. unfold turn.
  destruct (parse_input line) as [[printed [[[op x] y]|]]|e|] eqn:Hp; try done.
  apply parse_printed_spec in Hp as ->. simpl.
  by destruct (operation_onestep fuel s op x y) as [[res s1]|e|].
Qed.

(** *** The rules of the loop *)

Lemma runs_quit fuel s line inputs out err :
  line = "q"%string \/ line = "r"%string ->
  run (run_input_io fuel s) (line :: inputs, out, err)
    (Returned s) (inputs, out ++ [output s], err).
Proof.
  intros Hl. apply runs_iter_done. do 2 run_call.
  destruct Hl as [-> | ->]; apply runs_Ret.
Qed.

Lemma runs_eof fuel s out err :
  run (run_input_io fuel s) ([], out, err)
    (Stopped (Failed (Raised EOFError))) ([], out ++ [output s], err).
Proof.
  apply runs_iter_stop. run_call. apply runs_bind_stop, runs_input_eof.
Qed.

(** One pass through the body of the loop, up to [turn_io]. *)
Lemma runs_body fuel s line inputs out err o w' :
  line <> "q"%string -> line <> "r"%string ->
  run (turn_io fuel s line) (inputs, out ++ [output s], err) o w' ->
  run (do py_print (output s) then
         let* line := py_input in
         if decide (line = "q"%string) then Ret (inr s)
         else if decide (line = "r"%string) then Ret (inr s)
         else turn_io fuel s line) (line :: inputs, out, err) o w'.
Proof.
  intros Hq Hr Ht. do 2 run_call. by rewrite !decide_False.
Qed.

(** The run of the program on a script, from any earlier output. *)
Lemma run_input_io_from fuel inputs : forall s out err,
  exists rest shown,
    run (run_input_io fuel s) (inputs, out, err)
      (outcome_of (state_of (run_input fuel s inputs)))
      (rest, out ++ shown, err ++ run_input_log fuel s inputs) /\
    head shown = Some (output s) /\
    forall o s', run_input fuel s inputs = Ok (o, s') -> shown = o.
Proof.
  induction inputs as [|line inputs IH]; intros s out err.
  { exists [], [output s]. rewrite app_nil_r.
    split_and!; [apply runs_eof|done..]. }
  destruct (decide (line = "q"%string \/ line = "r"%string)) as [Hl|Hl].
  { exists inputs, [output s].
    assert (run_input fuel s (line :: inputs) = Ok ([output s], s) /\
            run_input_log fuel s (line :: inputs) = []) as [-> ->]
      by (simpl; destruct Hl as [-> | ->]; by repeat case_decide).
    rewrite app_nil_r.
    split_and!; [by apply runs_quit|done|by intros ?? [= <- <-]]. }
  assert (line <> "q"%string /\ line <> "r"%string) as [Hq Hr] by tauto.
  rewrite run_input_cons by done. cbn [run_input_log].
  rewrite !decide_False by done.
  pose proof (runs_turn fuel s line inputs (out ++ [output s]) err) as Ht.
  apply (runs_body _ _ _ _ _ _ _ _ Hq Hr) in Ht.
  destruct (turn fuel s line) as [[res s1]|e|]; simpl in Ht.
  2,3: exists inputs, (output s :: parse_printed line);
       rewrite !app_nil_r, <- app_assoc in Ht; rewrite app_nil_r;
       split_and!; [by apply runs_iter_stop|done..].
  rewrite <- app_assoc in Ht. repeat case_decide.
  - exists inputs, (output s :: parse_printed line ++ win s1).
    rewrite app_nil_r.
    split_and!; [by apply runs_iter_done|done|by intros ?? [= <- <-]].
  - exists inputs, (output s :: parse_printed line ++ loss s1).
    rewrite app_nil_r.
    split_and!; [by apply runs_iter_done|done|by intros ?? [= <- <-]].
  - destruct (IH s1 (out ++ output s :: parse_printed line)
                (err ++ turn_log s line))
      as (rest & shown & Hrun & _ & Hout).
    exists rest, (output s :: parse_printed line ++ shown).
    rewrite app_nil_r in Ht. rewrite <- !app_assoc in Hrun.
    destruct (run_input fuel s1 inputs) as [[o1 s2]| |];
      (split_and!; [by eapply runs_iter_again|done|]); [|done..].
    intros o s' [= <- <-]. by rewrite (Hout o1 s2).
Qed.

End console.

(** ** In every environment *)

(** A turn that returns has made one step of the game. *)
Lemma turn_io_post fuel s line :
  has_post (turn_io fuel s line) (sum_pred (step s) (step s)).
Proof.
  unfold turn_io. apply has_post_bind_weak.
  intros [[[op x] y]|]; [|apply has_post_raise].
  eapply has_post_bind;
    [eapply (implements_computes terminal_answer),
       operation_onestep_io_implements|].
  intros [res s1] Hop.
  assert (step s s1) by by econstructor. cbv beta iota.
  repeat case_decide; try apply has_post_bind_weak; intros;
    by apply has_post_Ret.
Qed.

Lemma run_input_io_post fuel s :
  has_post (run_input_io fuel s) (rtc step s).
Proof.
  apply has_post_iter_strong with (Inv := rtc step s); [|done].
  intros s1 Hs1. do 2 (apply has_post_bind_weak; intros ?).
  repeat case_decide; try by apply has_post_Ret.
  eapply has_post_weaken; [apply turn_io_post|].
  intros [s2|s2] Hst; simpl in *; by eapply rtc_r.
Qed.

(** ** The console game as a program *)

(** C13.  Against a terminal that hands out the lines of a script, the
    program ends the way [Input.run_input] says: it returns the state
    that [run_input] returns, having printed the lines that [run_input]
    lists, or it stops with the exception that [run_input] raises.  In
    every case the board was printed first: an exception does not take
    back what was printed before it.  The standard error stream holds
    the lines of [run_input_log]: one for every line of the script that
    has not two or three words, and those of the operations. *)
Theorem run_input_io_script (fuel : nat) (s : MineModelBoard)
    (inputs : list string) :
  exists rest shown,
    runs terminal_answer (run_input_io fuel s) (inputs, [], [])
      (outcome_of (state_of (run_input fuel s inputs)))
      (rest, shown, run_input_log fuel s inputs) /\
    head shown = Some (output s) /\
    forall out s', run_input fuel s inputs = Ok (out, s') -> shown = out.
Proof. apply (run_input_io_from fuel inputs s [] []). Qed.

(** C20.  The console game ends on every finite script: from a state that
    satisfies the invariant and with a recursion budget above the number
    of cells without a mine, the run of the program exists, and it ends
    with a state of the game that satisfies the invariant, or with
    [EOFError], [TypeError] or [ValueError]; it never waits and never
    exhausts the budget. *)
Theorem run_input_io_ends (fuel : nat) (s : MineModelBoard)
    (inputs : list string) :
  inv s -> budget fuel s ->
  exists o w',
    runs terminal_answer (run_input_io fuel s) (inputs, [], []) o w' /\
    match o with
    | Returned s' => rtc step s s' /\ inv s'
    | Stopped c =>
        exists e, c = Failed (Raised e) /\
                  (e = EOFError \/ e = TypeError \/ e = ValueError)
    end.
Proof.
  intros Hinv Hb. destruct (run_input_io_from fuel inputs s [] [])
    as (rest & shown & Hrun & _).
  pose proof (run_input_outcome fuel inputs s Hinv Hb) as Ho.
  eexists _, _. split; [exact Hrun|].
  destruct (run_input fuel s inputs) as [[out s']|e|] eqn:E; simpl; [|by eauto|done].
  destruct (run_input_steps _ _ _ _ _ Hinv E) as [Hst _].
  split; [done|]. by apply (game_frame s s' Hinv).
Qed.

Lemma run_input_io_ends_witness :
  exists o w',
    runs terminal_answer (run_input_io 9 board_3x3)
      (["r 3 3"; "2 2"; "x"]%string, [], []) o w' /\
    match o with
    | Returned s' => rtc step board_3x3 s' /\ inv s'
    | Stopped c =>
        exists e, c = Failed (Raised e) /\
                  (e = EOFError \/ e = TypeError \/ e = ValueError)
    end.
Proof.
  apply (run_input_io_ends 9 board_3x3); [by apply inv_b_sound|].
  unfold budget. simpl. lia.
Defined.

(** C21.  Whatever the console answers, and however long it goes on, the
    state the console game returns is reached from the state it started
    in by operations of [operation_onestep], and satisfies the invariant
    when the first state does. *)
Theorem run_input_io_game (fuel : nat) (s : MineModelBoard) :
  inv s ->
  has_post (run_input_io fuel s) (fun s' => rtc step s s' /\ inv s').
Proof.
  intros Hinv. eapply has_post_weaken; [apply run_input_io_post|].
  intros s' Hst. split; [done|]. by apply (game_frame s s' Hinv).
Qed.

Lemma run_input_io_game_witness :
  has_post (run_input_io 9 board_3x3)
    (fun s' => rtc step board_3x3 s' /\ inv s').
Proof. apply run_input_io_game. by apply inv_b_sound. Defined.
