(* ===== verification/Screen.v ===== *)
(** * Screen: the graphical program and its calls to pygame

    [MineViewBoard] and the program entry (src/mineSweeper.py, lines
    308-360) as interaction trees.  Every call to a library is an event:
    [pygame.init], [random.sample], [pygame.font.SysFont],
    [pygame.display.set_mode], [time.sleep], [pygame.draw.rect],
    [Font.render], [Surface.blit], [pygame.display.update] and
    [pygame.event.get].  The objects pygame hands back are opaque to the
    program, which only passes them on; the model describes a font by its
    name and size, the display by its size and a rendered text by its
    text and colour.

    The state of a [MineViewBoard] is the board and the attribute
    [screen], which exists once [create_screen] has run; [my_font] is a
    global of the module that exists once the program entry has assigned
    it.  [_draw_block] fails with [AttributeError] without the first and
    with [NameError] without the second.

    [time.sleep(1.0 / fps)] is [py_sleep]: the division by a zero [fps]
    and the negative length of a negative [fps] are exceptions, a
    positive [fps] gives the event [Sleep].

    [gui_answer] is the environment of a scripted session: it hands out
    a given sample and the events of given frames, and keeps the list of
    the calls made; [session_answer] is that environment with the
    standard error stream of [Logging] beside it.  Against it the program
    makes the calls that the pictures of [View] describe, in the order of
    the source, and logs what the clicks log ([screen_run_log]). *)

From stdpp Require Import base tactics option list numbers relations strings.
From Stdlib Require Import ZArith Lia.
From ITree Require Import ITree ITreeFacts.
From S2P Require Import Prelude Interact Logging Text Marks Board Flag Output.
From S2P Require Import Sweep Invariant Reset Control View Effects.

#[local] Open Scope Z_scope.
#[local] Open Scope tree_scope.

(** ** The configuration *)

Definition show_cfg_font : string := "arial".
Definition show_cfg_font_size : Z := 16.

(** ** The events *)

Definition font : Type := string * Z.
Definition surface : Type := Z * Z.
Definition text_surface : Type := string * color.

Variant guiE : Type -> Type :=
| PygameInit : guiE unit
| RandomSample (n k : Z) : guiE (list Z)
| SysFont (name : string) (size : Z) : guiE font
| SetMode (size : Z * Z) (flags depth : Z) : guiE surface
| Sleep (fps : Z) : guiE unit
| DrawRect (sf : surface) (c : color) (r : Z * Z * Z * Z) : guiE unit
| Render (f : font) (text : string) (antialias : bool) (c : color)
    : guiE text_surface
| Blit (sf : surface) (source : text_surface) (dest : Z * Z) : guiE unit
| DisplayUpdate : guiE unit
| EventGet : guiE (list event).

(** A call, whatever the type of its answer. *)
Definition call : Type := {T : Type & guiE T}.
Definition Call {T : Type} (e : guiE T) : call := existT T e.

(** A scripted session: the sample that [random.sample] will return, the
    events of the frames to come, the calls made so far. *)
Definition gui : Type := list Z * list (list event) * list call.

Definition gui_answer : environment guiE gui :=
  fun T e w =>
    let '(sample, frames, calls) := w in
    let logged := (sample, frames, calls ++ [Call e]) in
    match e in guiE T return option (T * gui) with
    | PygameInit | Sleep _ | DrawRect _ _ _ | Blit _ _ _ | DisplayUpdate =>
        Some (tt, logged)
    | RandomSample _ _ => Some (sample, logged)
    | SysFont name size => Some ((name, size), logged)
    | SetMode size _ _ => Some (size, logged)
    | Render _ text _ c => Some ((text, c), logged)
    | EventGet =>
        match frames with
        | [] => None
        | events :: frames' =>
            Some (events, (sample, frames', calls ++ [Call EventGet]))
        end
    end.

(** The session with the standard error stream beside it:
    [(sample, frames, calls, err)]. *)
Definition session : Type := gui * list string.

Definition session_answer : environment (logE +' guiE) session :=
  with_stderr gui_answer.

(** ** The program *)

#[local] Abbreviation E := (failE +' (logE +' guiE)).

Record MineViewBoard : Type := mkView {
  model : MineModelBoard;
  screen : option surface;
}.

(** [self.screen]. *)
Definition get_screen (v : MineViewBoard) : itree E surface :=
  match screen v with
  | Some sf => Ret sf
  | None => raise (Raised AttributeError)
  end.

(** The global [my_font]. *)
Definition get_my_font (my_font : option font) : itree E font :=
  match my_font with
  | Some f => Ret f
  | None => raise (Raised NameError)
  end.

(** [MineViewBoard(width, height, num_mine)]: the constructor of
    [MineModelBoard], with the sample drawn by the environment. *)
Definition __init___io (width height num_mine : Z) : itree E MineViewBoard :=
  let* sample := perform (inr1 (RandomSample (height * width) num_mine)) in
  let* s := lift (__init__ width height num_mine sample) in
  Ret (mkView s None).

Definition _draw_block_io (my_font : option font) (v : MineViewBoard)
    (x y : Z) (mark : option string) : itree E unit :=
  let* c := match mark with
            | Some c => Ret (Some c)
            | None =>
                let* c := _get_io (model v) x y in Ret (mark_str <$> c)
            end in
  match c with
  | None => Ret tt
  | Some c =>
      let top := show_cfg_topleft.1 + x * show_cfg_block_size in
      let left := show_cfg_topleft.2 + y * show_cfg_block_size in
      let fill_size := show_cfg_block_size - show_cfg_line_width in
      let '(number, c) :=
        if py_str_in c "12345678" then (Some c, "B"%string) else (None, c) in
      let color := dict_get color_cfg c (0, 0, 0) in
      let rect := (left, top, fill_size, fill_size) in
      let* sf := get_screen v in
      do perform (inr1 (DrawRect sf color rect)) then
      match number with
      | Some number =>
          if py_truthy number then
            let* f := get_my_font my_font in
            let* text_surface :=
              perform
                (inr1 (Render f number true
                         (dict_get color_cfg number
                            (dict_get color_cfg "number"%string (0, 0, 0))))) in
            let* sf := get_screen v in
            perform (inr1 (Blit sf text_surface (left + 6, top + 6)))
          else Ret tt
      | None => Ret tt
      end
  end.

Definition _draw_board_io (my_font : option font) (v : MineViewBoard)
    : itree E unit :=
  for_each (fun x =>
    for_each (fun y => _draw_block_io my_font v x y None)
      (seqZ 0 (h (model v))))
    (seqZ 0 (w (model v))).

Definition create_screen (v : MineViewBoard) (width height full_screen : Z)
    : itree E MineViewBoard :=
  let* sf := perform (inr1 (SetMode (width, height) full_screen 32)) in
  Ret (mkView (model v) (Some sf)).

(** [time.sleep(1.0 / fps)]: the division raises [ZeroDivisionError]
    when [fps] is zero, and [time.sleep] raises [ValueError] for the
    negative length that a negative [fps] gives; otherwise the call is
    the event [Sleep]. *)
Definition py_sleep (fps : Z) : itree E unit :=
  if decide (fps = 0) then raise (Raised ZeroDivisionError)
  else if decide (fps < 0) then raise (Raised ValueError)
  else perform (inr1 (Sleep fps)).

(** What the loop does with one event (lines 346-351). *)
Definition handle_event_io (fuel : nat) (ev : event) (s : MineModelBoard)
    : itree E (bool * MineModelBoard) :=
  match ev with
  | QUIT => raise (Raised SystemExit)
  | MOUSEBUTTONDOWN pos button =>
      let* s := click_io fuel s pos.1 pos.2 button in Ret (false, s)
  | OtherEvent => Ret (false, s)
  end.

(** [screen_run]: the loop has no exit, so the program never returns. *)
Definition screen_run_io (fuel : nat) (my_font : option font) (fps : Z)
    : MineViewBoard -> itree E void :=
  ITree.iter (fun v =>
    do py_sleep fps then
    do _draw_board_io my_font v then
    do perform (inr1 DisplayUpdate) then
    let* events := perform (inr1 EventGet) in
    let* (_, s) := for_until_tree (handle_event_io fuel) events (model v) in
    Ret (inl (mkView s (screen v)))).

(** The program entry. *)
Definition main_io (fuel : nat) : itree E void :=
  do perform (inr1 PygameInit) then
  let* b := __init___io game_cfg_height game_cfg_width game_cfg_num_mine in
  let* my_font := perform (inr1 (SysFont show_cfg_font show_cfg_font_size)) in
  let* b := create_screen b show_cfg_width show_cfg_height 0 in
  screen_run_io fuel (Some my_font) 60 b.

(** ** What the theorems are stated with *)

(** The calls that draw one square. *)
Definition drawing_calls (sf : surface) (f : font) (d : drawing) : list call :=
  Call (DrawRect sf (fill d) (rect d)) ::
  match label d with
  | Some (text, c, pos) =>
      [Call (Render f text true c); Call (Blit sf (text, c) pos)]
  | None => []
  end.

(** The calls of one frame that draws [picture]. *)
Definition frame_calls (sf : surface) (f : font) (fps : Z)
    (picture : list drawing) : list call :=
  Call (Sleep fps) :: (picture ≫= drawing_calls sf f) ++ [Call DisplayUpdate].

(** The calls of the frames whose events arrived. *)
Definition frames_calls (sf : surface) (f : font) (fps : Z)
    (pictures : list (list drawing)) : list call :=
  pictures ≫= (fun picture => frame_calls sf f fps picture ++ [Call EventGet]).

(** The rectangle of a call lies on the surface it is drawn on. *)
Definition call_on_surface (c : call) : Prop :=
  match projT2 c with
  | DrawRect sf _ r => on_canvas sf.1 sf.2 r
  | _ => True
  end.

(** The session after more calls. *)
Definition logged (w : session) (calls : list call) : session :=
  (w.1.1, w.1.2 ++ calls, w.2).

(** What the events of a frame log, and what the frames of a script
    log. *)
Definition handle_event_log (ev : event) (s : MineModelBoard) : list string :=
  match ev with
  | MOUSEBUTTONDOWN pos button => click_log s pos.1 pos.2 button
  | _ => []
  end.

Definition events_log (fuel : nat) (events : list event) (s : MineModelBoard)
    : list string :=
  for_until_log (handle_event fuel) handle_event_log events s.

Fixpoint screen_run_log (fuel : nat) (s : MineModelBoard)
    (frames : list (list event)) : list string :=
  match frames with
  | [] => []
  | events :: frames' =>
      events_log fuel events s ++
      match for_until (handle_event fuel) events s with
      | Ok (_, s') => screen_run_log fuel s' frames'
      | _ => []
      end
  end.

(** The board fits the surface. *)
Definition fits (sf : surface) (s : MineModelBoard) : Prop :=
  50 + 25 * h s <= sf.1 /\ 50 + 25 * w s <= sf.2.

(** The calls of the program entry before the loop. *)
Definition startup_calls : list call :=
  [Call PygameInit;
   Call (RandomSample (game_cfg_width * game_cfg_height) game_cfg_num_mine);
   Call (SysFont show_cfg_font show_cfg_font_size);
   Call (SetMode (show_cfg_width, show_cfg_height) 0 32)].

(** ** Runs of a scripted session *)

Section screen.
Implicit Types (w : session) (v : MineViewBoard) (s : MineModelBoard)
  (sf : surface) (f : font) (d : drawing) (err : list string).

#[local] Abbreviation run := (runs session_answer).

Lemma logged_nil w : logged w [] = w.
Proof.
  destruct w as [[[sample frames] calls] err]. unfold logged. simpl.
  by rewrite app_nil_r.
Qed.

Lemma logged_app w l l' : logged (logged w l) l' = logged w (l ++ l').
Proof. unfold logged. simpl. by rewrite app_assoc. Qed.

Lemma runs_for_each {B} (body : B -> itree E unit)
    (said : B -> list call) (l : list B) w :
  (forall b w, b ∈ l -> run (body b) w (Returned tt) (logged w (said b))) ->
  run (for_each body l) w (Returned tt) (logged w (l ≫= said)).
Proof.
  revert w. induction l as [|b l IH]; intros w Hb; simpl.
  - rewrite logged_nil. apply runs_Ret.
  - eapply runs_bind; [apply Hb; by left|]. rewrite <- logged_app.
    apply IH. intros b' w' Hin. apply Hb. by right.
Qed.

(** The mark that [_draw_block] draws. *)
Lemma runs_block_mark v x y mark w :
  run (match mark with
       | Some c => Ret (Some c)
       | None => let* c := _get_io (model v) x y in Ret (mark_str <$> c)
       end) w
    (Returned (match mark with
               | Some c => Some c
               | None => mark_str <$> _get (model v) x y
               end)) w.
Proof.
  destruct mark; [apply runs_Ret|]. destruct w as [w err].
  eapply runs_bind; [|apply runs_Ret].
  apply (runs_quiet gui_answer), _get_io_implements.
Qed.

Lemma runs_draw_block f sf v x y mark w :
  screen v = Some sf ->
  run (_draw_block_io (Some f) v x y mark) w (Returned tt)
    (logged w (from_option (drawing_calls sf f) [] (_draw_block (model v) x y mark))).
Proof.
  intros Hsf. unfold _draw_block_io, _draw_block, get_screen. rewrite Hsf.
  eapply runs_bind; [apply runs_block_mark|].
  destruct (match mark with Some c => Some c | None => mark_str <$> _get (model v) x y end)
    as [c|]; [|rewrite logged_nil; apply runs_Ret].
  destruct w as [[[sample frames] calls] err]. unfold logged, drawing_calls.
  destruct (py_str_in c "12345678"); [destruct (py_truthy c)|];
    apply (exec_runs _ 8); cbn; by rewrite <- ?app_assoc.
Qed.

Lemma runs_draw_board f sf v w :
  screen v = Some sf ->
  run (_draw_board_io (Some f) v) w (Returned tt)
    (logged w (_draw_board (model v) ≫= drawing_calls sf f)).
Proof.
  intros Hsf. unfold _draw_board. rewrite list_bind_assoc.
  apply runs_for_each. intros x w1 _. rewrite list_bind_assoc.
  apply runs_for_each. intros y w2 _. rewrite option_list_bind.
  by apply runs_draw_block.
Qed.

(** The pause between two frames, and the two ways it fails. *)
Lemma runs_sleep fps sample frames calls err :
  0 < fps ->
  run (py_sleep fps) (sample, frames, calls, err) (Returned tt)
    (sample, frames, calls ++ [Call (Sleep fps)], err).
Proof.
  intros Hfps. unfold py_sleep. rewrite !decide_False by lia.
  by apply runs_perform.
Qed.

Lemma runs_sleep_stop fps w :
  fps <= 0 ->
  run (py_sleep fps) w
    (Stopped (Failed (Raised (if decide (fps = 0) then ZeroDivisionError
                              else ValueError)))) w.
Proof.
  intros Hfps. unfold py_sleep. case_decide; [apply runs_raise|].
  rewrite decide_True by lia. apply runs_raise.
Qed.

(** The calls of a frame, up to the events. *)
Lemma runs_frame {R} f fps sf v (k : itree E R) w o w' :
  0 < fps -> screen v = Some sf ->
  run k (logged w (frame_calls sf f fps (_draw_board (model v)))) o w' ->
  run (do py_sleep fps then
       do _draw_board_io (Some f) v then
       do perform (inr1 DisplayUpdate) then k) w o w'.
Proof.
  intros Hfps Hsf Hk. unfold frame_calls in Hk.
  change (?c :: ?l ++ ?l') with ([c] ++ l ++ l') in Hk.
  rewrite <- !logged_app in Hk. destruct w as [[[sample frames] calls] err].
  eapply runs_bind; [by apply runs_sleep|]. eapply runs_bind; [by apply runs_draw_board|]. by run_call.
Qed.

Lemma runs_events events sample frames calls err :
  run (perform (inr1 EventGet)) (sample, events :: frames, calls, err)
    (Returned events) (sample, frames, calls ++ [Call EventGet], err).
Proof. by apply runs_perform. Qed.

#[local] Hint Resolve runs_events : runs.

(** The events of a frame. *)
Lemma handle_event_io_implements fuel ev s :
  implements session_answer (handle_event_io fuel ev s)
    (handle_event fuel ev s) (handle_event_log ev s).
Proof.
  destruct ev as [|[px py] button|];
    [apply implements_raise| |apply implements_Ret].
  apply implements_call; [apply click_io_implements|].
  intros s' _. apply implements_Ret.
Qed.

Lemma runs_handle_events fuel events s (g : gui) err :
  run (for_until_tree (handle_event_io fuel) events s) (g, err)
    (outcome_of (for_until (handle_event fuel) events s))
    (g, err ++ events_log fuel events s).
Proof.
  apply (runs_implements gui_answer), implements_for_until_log.
  intros ev s' _. apply handle_event_io_implements.
Qed.

(** *** The rules of the loop *)

Lemma runs_screen_wait fuel f fps sf s sample calls err :
  0 < fps ->
  run (screen_run_io fuel (Some f) fps (mkView s (Some sf)))
    (sample, [], calls, err) (Stopped Blocked)
    (sample, [], calls ++ frame_calls sf f fps (_draw_board s), err).
Proof.
  intros Hfps. apply runs_iter_stop.
  eapply (runs_frame f fps sf (mkView s (Some sf))); [done..|].
  apply runs_bind_stop. by apply runs_perform_blocked.
Qed.

Lemma runs_screen_stop fuel f fps sf s sample events frames calls err c :
  0 < fps ->
  outcome_of (for_until (handle_event fuel) events s) = Stopped c ->
  run (screen_run_io fuel (Some f) fps (mkView s (Some sf)))
    (sample, events :: frames, calls, err) (Stopped c)
    (sample, frames,
     calls ++ frame_calls sf f fps (_draw_board s) ++ [Call EventGet],
     err ++ events_log fuel events s).
Proof.
  intros Hfps Hc. apply runs_iter_stop.
  eapply (runs_frame f fps sf (mkView s (Some sf))); [done..|].
  run_call. unfold logged. cbn [fst snd model screen].
  rewrite <- app_assoc. apply runs_bind_stop. rewrite <- Hc.
  apply runs_handle_events.
Qed.

Lemma runs_screen_again fuel f fps sf s sample events frames calls err b s' o w' :
  0 < fps ->
  for_until (handle_event fuel) events s = Ok (b, s') ->
  run (screen_run_io fuel (Some f) fps (mkView s' (Some sf)))
    (sample, frames,
     calls ++ frame_calls sf f fps (_draw_board s) ++ [Call EventGet],
     err ++ events_log fuel events s) o w' ->
  run (screen_run_io fuel (Some f) fps (mkView s (Some sf)))
    (sample, events :: frames, calls, err) o w'.
Proof.
  intros Hfps He Hk. eapply runs_iter_again; [|exact Hk].
  eapply (runs_frame f fps sf (mkView s (Some sf))); [done..|].
  run_call. unfold logged. cbn [fst snd model screen].
  rewrite <- app_assoc.
  pose proof (runs_handle_events fuel events s) as Hr. rewrite He in Hr.
  eapply runs_bind; [apply Hr|apply runs_Ret].
Qed.

Lemma frames_calls_cons sf f fps picture pictures :
  frames_calls sf f fps (picture :: pictures) =
    (frame_calls sf f fps picture ++ [Call EventGet]) ++
    frames_calls sf f fps pictures.
Proof. unfold frames_calls. by rewrite bind_cons. Qed.

(** The loop with a pause that fails makes no call. *)
Lemma runs_screen_no_pause fuel my_font fps v w :
  fps <= 0 ->
  run (screen_run_io fuel my_font fps v) w
    (Stopped (Failed (Raised (if decide (fps = 0) then ZeroDivisionError
                              else ValueError)))) w.
Proof.
  intros Hfps. apply runs_iter_stop. by apply runs_bind_stop, runs_sleep_stop.
Qed.

(** The run of the loop on the frames of a script. *)
Lemma screen_run_io_from fuel f fps sf frames : 0 < fps ->
  forall s sample calls err,
  match screen_run fuel s frames with
  | Ok (pictures, s') =>
      run (screen_run_io fuel (Some f) fps (mkView s (Some sf)))
        (sample, frames, calls, err) (Stopped Blocked)
        (sample, [], calls ++ frames_calls sf f fps pictures ++
                     frame_calls sf f fps (_draw_board s'),
         err ++ screen_run_log fuel s frames)
  | Raise e =>
      exists rest pictures,
        run (screen_run_io fuel (Some f) fps (mkView s (Some sf)))
          (sample, frames, calls, err) (Stopped (Failed (Raised e)))
          (sample, rest,
           calls ++ frames_calls sf f fps (_draw_board s :: pictures),
           err ++ screen_run_log fuel s frames)
  | OutOfFuel =>
      exists rest pictures,
        run (screen_run_io fuel (Some f) fps (mkView s (Some sf)))
          (sample, frames, calls, err) (Stopped (Failed Exhausted))
          (sample, rest,
           calls ++ frames_calls sf f fps (_draw_board s :: pictures),
           err ++ screen_run_log fuel s frames)
  end.
Proof.
  intros Hfps.
  induction frames as [|events frames IH]; intros s sample calls err.
  { cbn [screen_run screen_run_log].
    change (frames_calls sf f fps []) with (@nil call).
    rewrite (app_nil_r err). by apply runs_screen_wait. }
  cbn [screen_run screen_run_log].
  destruct (for_until (handle_event fuel) events s) as [[b s1]|e|] eqn:He;
    cbn [Prelude.bind].
  2,3: exists frames, [];
       rewrite frames_calls_cons, !app_nil_r;
       by apply runs_screen_stop; [|rewrite He].
  specialize (IH s1 sample
    (calls ++ frame_calls sf f fps (_draw_board s) ++ [Call EventGet])
    (err ++ events_log fuel events s)).
  destruct (screen_run fuel s1 frames) as [[pictures s']|e|]; cbn [Prelude.bind];
    [|destruct IH as (rest & pictures & IH); exists rest, (_draw_board s1 :: pictures)..];
    rewrite <- !app_assoc in IH;
    rewrite frames_calls_cons, <- !app_assoc; by eapply runs_screen_again.
Qed.

(** *** The lines of the clicks *)

Lemma click_log_lines s px py button :
  click_log s px py button ⊆
    ["INFO:root:click out of board";
     "INFO:root:try to sweep a marked block."]%string.
Proof.
  unfold click_log, left_click_log. destruct (_axis_2_grid px py).
  repeat case_decide; set_solver.
Qed.

Lemma events_log_lines fuel events : forall s,
  events_log fuel events s ⊆
    ["INFO:root:click out of board";
     "INFO:root:try to sweep a marked block."]%string.
Proof.
  induction events as [|ev events IH]; intros s; [set_solver|].
  unfold events_log in *. cbn [for_until_log].
  assert (handle_event_log ev s ⊆ _) as Hev
    by (destruct ev; [|apply click_log_lines|]; set_solver).
  destruct (handle_event fuel ev s) as [[[] s']| |];
    [|specialize (IH s')|..]; set_solver.
Qed.

Lemma screen_run_log_lines fuel frames : forall s,
  screen_run_log fuel s frames ⊆
    ["INFO:root:click out of board";
     "INFO:root:try to sweep a marked block."]%string.
Proof.
  induction frames as [|events frames IH]; intros s; [set_solver|].
  cbn [screen_run_log]. pose proof (events_log_lines fuel events s) as Hev.
  destruct (for_until (handle_event fuel) events s) as [[b s']| |];
    [specialize (IH s')|..]; set_solver.
Qed.

(** *** Rectangles on the surface *)

Lemma fits_frame sf s s' : frame s s' -> fits sf s -> fits sf s'.
Proof. intros (Eh & Ew & _). unfold fits. by rewrite Eh, Ew. Qed.

Lemma frame_calls_on_surface sf f fps s :
  fits sf s -> Forall call_on_surface (frame_calls sf f fps (_draw_board s)).
Proof.
  intros [Hw Hh]. unfold frame_calls.
  apply Forall_cons; split; [done|]. apply Forall_app; split; [|by repeat constructor].
  apply Forall_forall. intros c (d & Hc & Hd)%list_elem_of_bind.
  pose proof (draw_board_on_canvas s d _ _ Hw Hh Hd) as Hon.
  unfold drawing_calls in Hc. apply elem_of_cons in Hc as [->|Hc]; [done|].
  destruct (label d) as [[[text c'] pos]|]; [|by apply elem_of_nil in Hc].
  by repeat (apply elem_of_cons in Hc as [->|Hc]; [done|]); apply elem_of_nil in Hc.
Qed.

(** The loop on a board that fits the surface: it waits for events or
    ends with [SystemExit], and every rectangle it drew is on the
    surface. *)
Lemma screen_run_io_safe fuel f fps sf frames : 0 < fps ->
  forall s sample calls err,
  inv s -> budget fuel s -> fits sf s ->
  exists c rest more,
    run (screen_run_io fuel (Some f) fps (mkView s (Some sf)))
      (sample, frames, calls, err) (Stopped c)
      (sample, rest, calls ++ more, err ++ screen_run_log fuel s frames) /\
    (c = Blocked \/ c = Failed (Raised SystemExit)) /\
    Forall call_on_surface more.
Proof.
  intros Hfps.
  induction frames as [|events frames IH]; intros s sample calls err Hinv Hb Hfit.
  { cbn [screen_run_log]. rewrite (app_nil_r err). eexists _, _, _.
    split_and!; [by apply runs_screen_wait|by left|].
    by apply frame_calls_on_surface. }
  pose proof (frame_calls_on_surface sf f fps s Hfit) as Hon.
  cbn [screen_run_log].
  destruct (events_run fuel events s Hinv Hb)
    as [(_ & s1 & He & Hinv1 & Hf1)|(_ & He)]; rewrite He.
  - destruct (IH s1 sample
                (calls ++ frame_calls sf f fps (_draw_board s) ++ [Call EventGet])
                (err ++ events_log fuel events s)
                Hinv1 (budget_frame _ _ _ Hf1 Hb) (fits_frame _ _ _ Hf1 Hfit))
      as (c & rest & more & Hrun & Hc & Hmore).
    exists c, rest, ((frame_calls sf f fps (_draw_board s) ++ [Call EventGet]) ++ more).
    rewrite <- !app_assoc in *. split_and!; [by eapply runs_screen_again|done|].
    rewrite app_assoc. apply Forall_app; split; [|done].
    apply Forall_app; split; [done|by repeat constructor].
  - rewrite app_nil_r. eexists _, _, _.
    split_and!; [apply runs_screen_stop; [done|by rewrite He]|by right|].
    apply Forall_app; split; [done|by repeat constructor].
Qed.

(** The entry up to the loop. *)
Lemma runs_startup fuel sample frames b o w' :
  __init__ game_cfg_height game_cfg_width game_cfg_num_mine sample = Ok b ->
  run (screen_run_io fuel (Some (show_cfg_font, show_cfg_font_size)) 60
         (mkView b (Some (show_cfg_width, show_cfg_height))))
    (sample, frames, startup_calls, []) o w' ->
  run (main_io fuel) (sample, frames, [], []) o w'.
Proof.
  intros Hb Hk. unfold main_io, __init___io, create_screen.
  run_call. eapply runs_bind.
  { run_call. eapply runs_lift_Ok; [exact Hb|]. apply runs_Ret. }
  run_call. eapply runs_bind; [|exact Hk]. run_call. apply runs_Ret.
Qed.

End screen.

(** ** The graphical program *)

(** C16.  Against a scripted session the event loop makes the calls that
    the pictures of [View.screen_run] describe, frame by frame and in the
    order of the source: [time.sleep], the rectangles and numbers of the
    picture, [display.update], [event.get].  When the events of the script
    are used up it has drawn the state it is in once more and waits for
    events; when [View.screen_run] ends with an exception it stops with
    that exception, after the frames drawn until then, the first one
    included.  The standard error stream holds the lines that the clicks
    logged, and nothing of the drawing.  That is the loop for a positive
    [fps]; with [fps = 0] it ends with the [ZeroDivisionError] of
    [1.0 / fps] and with a negative [fps] with the [ValueError] of
    [time.sleep], in both cases before any call and before any event is
    read. *)
Theorem screen_run_io_frames (fuel : nat) (f : font) (fps : Z) (sf : surface)
    (s : MineModelBoard) (sample : list Z) (frames : list (list event))
    (calls : list call) (err : list string) :
  if decide (0 < fps) then
    match screen_run fuel s frames with
    | Ok (pictures, s') =>
        runs session_answer
          (screen_run_io fuel (Some f) fps (mkView s (Some sf)))
          (sample, frames, calls, err) (Stopped Blocked)
          (sample, [], calls ++ frames_calls sf f fps pictures ++
                       frame_calls sf f fps (_draw_board s'),
           err ++ screen_run_log fuel s frames)
    | Raise e =>
        exists rest pictures,
          runs session_answer
            (screen_run_io fuel (Some f) fps (mkView s (Some sf)))
            (sample, frames, calls, err) (Stopped (Failed (Raised e)))
            (sample, rest,
             calls ++ frames_calls sf f fps (_draw_board s :: pictures),
             err ++ screen_run_log fuel s frames)
    | OutOfFuel =>
        exists rest pictures,
          runs session_answer
            (screen_run_io fuel (Some f) fps (mkView s (Some sf)))
            (sample, frames, calls, err) (Stopped (Failed Exhausted))
            (sample, rest,
             calls ++ frames_calls sf f fps (_draw_board s :: pictures),
             err ++ screen_run_log fuel s frames)
    end
  else
    runs session_answer
      (screen_run_io fuel (Some f) fps (mkView s (Some sf)))
      (sample, frames, calls, err)
      (Stopped (Failed (Raised (if decide (fps = 0) then ZeroDivisionError
                                else ValueError))))
      (sample, frames, calls, err).
Proof.
  case_decide; [by apply screen_run_io_from|].
  apply runs_screen_no_pause. lia.
Qed.

(** C15.  The program of the source in a scripted session, given a sample
    of 200 distinct indices below 1000 and a recursion budget above 800:
    it initialises pygame, draws the sample, creates the font ["arial"]
    of size 16 and a display of 1200 by 750 pixels, and then runs the
    loop until it waits for events or an event closes the window and it
    ends with [SystemExit]; every rectangle it asks pygame to draw lies
    on the surface it draws on, and every line it logs is one of the two
    that [left_click] writes. *)
Theorem main_io_on_surface (fuel : nat) (sample : list Z)
    (frames : list (list event)) :
  is_sample (game_cfg_width * game_cfg_height) game_cfg_num_mine sample ->
  (800 < fuel)%nat ->
  exists c rest more err,
    runs session_answer (main_io fuel) (sample, frames, [], [])
      (Stopped c) (sample, rest, startup_calls ++ more, err) /\
    (c = Blocked \/ c = Failed (Raised SystemExit)) /\
    Forall call_on_surface more /\
    err ⊆ ["INFO:root:click out of board";
           "INFO:root:try to sweep a marked block."]%string.
Proof.
  intros Hs Hfuel.
  destruct (reset_spec (mkBoard game_cfg_width game_cfg_height game_cfg_num_mine [] 0 0)
              sample ltac:(done) ltac:(done) Hs)
    as (b & Hb & Hinv & Eh & Ew & En & _). simpl in *.
  unfold game_cfg_width, game_cfg_height, game_cfg_num_mine in Eh, Ew, En.
  assert (budget fuel b) as Hbud by (unfold budget; rewrite Eh, Ew, En; lia).
  assert (fits (show_cfg_width, show_cfg_height) b) as Hfit
    by (unfold fits; rewrite Eh, Ew; done).
  destruct (screen_run_io_safe fuel (show_cfg_font, show_cfg_font_size) 60 _
              frames ltac:(done) b sample startup_calls [] Hinv Hbud Hfit)
    as (c & rest & more & Hrun & Hc & Hmore).
  exists c, rest, more, (screen_run_log fuel b frames).
  split_and!; [by eapply runs_startup|done..|apply screen_run_log_lines].
Qed.

Lemma main_io_on_surface_witness :
  exists c rest more err,
    runs session_answer (main_io 801)
      (seqZ 0 200, [[MOUSEBUTTONDOWN (80, 55) 1]; [QUIT]], [], [])
      (Stopped c) (seqZ 0 200, rest, startup_calls ++ more, err) /\
    (c = Blocked \/ c = Failed (Raised SystemExit)) /\
    Forall call_on_surface more /\
    err ⊆ ["INFO:root:click out of board";
           "INFO:root:try to sweep a marked block."]%string.
Proof.
  apply (main_io_on_surface 801 (seqZ 0 200)); [|lia].
  split_and!; [by rewrite length_seqZ|apply NoDup_seqZ|].
  intros idx Hidx%elem_of_seqZ. unfold game_cfg_width, game_cfg_height. lia.
Defined.

(** C26.  [_draw_block] depends on two things that its class does not set
    up: without [create_screen] it raises [AttributeError] before it draws
    anything, and without the global [my_font], which only the program
    entry assigns, it raises [NameError] on the first cell that shows a
    number, after the square of that cell was drawn.  With both, or on a
    cell without a number, the block is drawn. *)
Theorem draw_block_io_needs (my_font : option font) (v : MineViewBoard)
    (x y : Z) (m : mark) (w : session) :
  mark_ok m -> _get (model v) x y = Some m ->
  match screen v, my_font, m with
  | None, _, _ =>
      runs session_answer (_draw_block_io my_font v x y None) w
        (Stopped (Failed (Raised AttributeError))) w
  | Some sf, None, mNum n =>
      runs session_answer (_draw_block_io my_font v x y None) w
        (Stopped (Failed (Raised NameError)))
        (logged w [Call (DrawRect sf (200, 200, 200)
                           (50 + y * 25, 50 + x * 25, 24, 24))])
  | Some sf, _, _ =>
      exists calls, calls <> [] /\
        runs session_answer (_draw_block_io my_font v x y None) w (Returned tt)
          (logged w calls)
  end.
Proof.
  intros Hok Hg. pose proof (runs_block_mark v x y None w) as Hm.
  rewrite Hg in Hm. cbn [fmap option_fmap option_map] in Hm.
  pose proof (digits_in_revealed m Hok) as Hd.
  pose proof (mark_truthy m) as Ht. destruct w as [[[sample frames] calls] err].
  destruct (screen v) as [sf|] eqn:Hsf, my_font as [f|], m;
    try (eexists; split; [shelve|]);
    (eapply runs_bind; [exact Hm|]); unfold get_screen, get_my_font;
    cbn [mark_str] in *; rewrite ?Hd, ?Ht, Hsf;
    apply (exec_runs _ 8); cbn; by rewrite <- ?app_assoc.
  Unshelve. all: done.
Qed.

Lemma draw_block_io_needs_witness :
  runs session_answer
    (_draw_block_io None (mkView board_3x3_flag (Some (1200, 750))) 1 1 None)
    ([], [], [], []) (Stopped (Failed (Raised NameError)))
    ([], [], [Call (DrawRect (1200, 750) (200, 200, 200) (75, 75, 24, 24))], []).
Proof.
  apply (draw_block_io_needs None (mkView board_3x3_flag (Some (1200, 750)))
           1 1 (mNum 1) ([], [], [], [])); [simpl; lia|reflexivity].
Defined.
