(* ===== verification/Scenarios.v ===== *)
(** * Scenarios: the model run on concrete games

    The definitions of the development are executable.  This file runs
    them on the games that the description of the program names as tests
    (a board of three by three cells with one mine in the corner (2, 2)):
    the constructor, a reveal that cascades to a win, a reveal of the
    mine, a flag on a cell without a mine, a chord, the console and the
    canvas, and the console and the canvas as interactive programs run
    against a script, with the lines they print, the calls they make and
    the lines they log.  Every example is proved by evaluation. *)

From stdpp Require Import base tactics option list numbers relations strings.
From Stdlib Require Import ZArith Lia.
From S2P Require Import Prelude Text Marks Board Flag Output Sweep Invariant.
From S2P Require Import Reset Control View Chord Game Input.
From S2P Require Import Interact Logging Console Screen.

#[local] Open Scope Z_scope.

(** The board after every cell without a mine was opened. *)
Definition board_3x3_won : MineModelBoard :=
  mkBoard 3 3 1
    [[mB; mB; mB];
     [mB; mNum 1; mNum 1];
     [mB; mNum 1; mX]] 1 8.

Section scenarios.

(** The constructor on the sample [[8]]: the index 8 is the cell
    [(8 // 3, 8 % 3)]. *)
Example scenario_init : __init__ 3 3 1 [8] = Ok board_3x3.
Proof. reflexivity. Qed.

(** More mines than cells. *)
Example scenario_init_too_many : __init__ 3 3 10 [] = Raise ValueError.
Proof. reflexivity. Qed.

(** A reveal of the corner (0, 0) opens all eight cells without a mine
    and wins. *)
Example scenario_cascade :
  operation_onestep 9 board_3x3 "left_click" 0 0 = Ok ("win"%string, board_3x3_won).
Proof. vm_compute. reflexivity. Qed.

(** The cascade needs five nested calls on this board. *)
Example scenario_cascade_depth :
  one_block_sweep 4 board_3x3 0 0 = OutOfFuel /\
  one_block_sweep 5 board_3x3 0 0 = Ok (false, board_3x3_won).
Proof. split; vm_compute; reflexivity. Qed.

(** A reveal of the mine loses at once and changes nothing. *)
Example scenario_mine :
  operation_onestep 9 board_3x3 "left_click" 2 2 = Ok ("lose"%string, board_3x3).
Proof. vm_compute. reflexivity. Qed.

(** A flag on a cell without a mine is a wrong flag, and [curr_mine]
    stays as it was; the same flag on the mine decrements it. *)
Example scenario_flag :
  _get (right_click board_3x3 0 0) 0 0 = Some mW /\
  curr_mine (right_click board_3x3 0 0) = 1 /\
  _get (right_click board_3x3 2 2) 2 2 = Some mF /\
  curr_mine (right_click board_3x3 2 2) = 0.
Proof. repeat split. Qed.

(** A chord on the number beside the flagged mine opens the rest. *)
Example scenario_chord :
  exists s', both_click 9 board_3x3_flag 1 1 = Ok (false, s') /\
             count_marks is_closed s' = 0%nat.
Proof. eexists. split; [vm_compute; reflexivity|reflexivity]. Qed.

(** The same chord beside a wrong flag hits the mine. *)
Example scenario_chord_wrong :
  exists s', both_click 9 board_3x3_wrong 1 1 = Ok (true, s').
Proof. eexists. vm_compute. reflexivity. Qed.

(** The picture of the board hides the mine and shows the wrong flag as
    a flag. *)
Example scenario_output :
  output board_3x3_wrong =
    ("|F| | |" +:+ nl +:+ "-------" +:+ nl +:+
     "| |1| |" +:+ nl +:+ "-------" +:+ nl +:+
     "| | | |")%string.
Proof. vm_compute. reflexivity. Qed.

(** The console: a flag on the mine, a reveal of the middle, a chord on
    it.  The coordinates typed count from one. *)
Example scenario_console :
  exists out s',
    run_input 9 board_3x3 ["r 3 3"; "2 2"; "b 2 2"; "q"]%string = Ok (out, s') /\
    last out = Some "win"%string /\ length out = 8%nat /\
    count_marks is_closed s' = 0%nat.
Proof. do 2 eexists. split; [vm_compute; reflexivity|]. by repeat split. Qed.

(** The console on a line it does not understand, and on a chord beside
    the board. *)
Example scenario_console_crash :
  run_input 9 board_3x3 ["help"; "q"]%string = Raise TypeError /\
  run_input 9 board_3x3 ["b 0 1"; "q"]%string = Raise TypeError /\
  run_input 9 board_3x3 ["1 one"; "q"]%string = Raise ValueError /\
  run_input 9 board_3x3 ["1 1 1"]%string = Raise EOFError.
Proof. repeat split; vm_compute; reflexivity. Qed.

(** The canvas: a click with the first button on the pixel (60, 60), in
    the block of the cell (0, 0), opens the board; the loop does not
    notice that the game is won and draws nine squares again. *)
Example scenario_canvas :
  exists pictures,
    screen_run 9 board_3x3 [[MOUSEBUTTONDOWN (60, 60) 1]; [OtherEvent]] =
      Ok (pictures, board_3x3_won) /\
    length <$> pictures = [9; 9]%nat.
Proof. eexists. split; [vm_compute; reflexivity|reflexivity]. Qed.

(** Closing the window. *)
Example scenario_quit :
  screen_run 9 board_3x3 [[MOUSEBUTTONDOWN (60, 60) 1; QUIT]; [OtherEvent]] =
    Raise SystemExit.
Proof. vm_compute. reflexivity. Qed.

(** The console as a program: a flag, then a line the loop does not
    understand.  The board was printed twice and the command echoed
    before the program stops. *)
Example scenario_console_io :
  exec terminal_answer 400 (run_input_io 9 board_3x3)
    (["r 3 3"; "help"]%string, [], []) =
  Some (Stopped (Failed (Raised TypeError)),
        ([], [output board_3x3; "right_click 3 3"%string;
              output (right_click board_3x3 2 2)],
         ["INFO:root:unsupported op"%string])).
Proof. vm_compute. reflexivity. Qed.

(** A number that is not one: the command is echoed, then [int] raises. *)
Example scenario_console_io_int :
  exec terminal_answer 400 (run_input_io 9 board_3x3)
    (["1 one"; "q"]%string, [], []) =
  Some (Stopped (Failed (Raised ValueError)),
        (["q"%string], [output board_3x3; "left_click 1 one"%string], [])).
Proof. vm_compute. reflexivity. Qed.

(** The canvas as a program: one frame with a click that opens the
    board, then the window is closed.  Two pictures were drawn, the
    second with the three numbers around the mine. *)
Example scenario_screen_io :
  exists calls,
    exec session_answer 4000
      (screen_run_io 9 (Some ("arial"%string, 16)) 60
         (mkView board_3x3 (Some (1200, 750))))
      ([], [[MOUSEBUTTONDOWN (60, 60) 1]; [QUIT]], [], []) =
    Some (Stopped (Failed (Raised SystemExit)), ([], [], calls, [])) /\
    calls = frames_calls (1200, 750) ("arial"%string, 16) 60
              [_draw_board board_3x3; _draw_board board_3x3_won] /\
    length calls = (12 + 18)%nat.
Proof. eexists. split; [vm_compute; reflexivity|]. split; vm_compute; reflexivity. Qed.

(** A view whose screen was never created. *)
Example scenario_no_screen :
  exec session_answer 40
    (screen_run_io 9 (Some ("arial"%string, 16)) 60 (mkView board_3x3 None))
    ([], [[QUIT]], [], []) =
  Some (Stopped (Failed (Raised AttributeError)),
        ([], [[QUIT]], [Call (Sleep 60)], [])).
Proof. vm_compute. reflexivity. Qed.

(** The loop with no frames per second: the division fails before
    anything is drawn or read. *)
Example scenario_no_fps :
  exec session_answer 40
    (screen_run_io 9 (Some ("arial"%string, 16)) 0
       (mkView board_3x3 (Some (1200, 750))))
    ([], [[QUIT]], [], []) =
  Some (Stopped (Failed (Raised ZeroDivisionError)), ([], [[QUIT]], [], [])).
Proof. vm_compute. reflexivity. Qed.

(** The diagnostics of the canvas: a click beside the board and a click
    on a flagged cell are logged, a click with the third button beside
    the board is not. *)
Example scenario_screen_log :
  exists calls,
    exec session_answer 4000
      (screen_run_io 9 (Some ("arial"%string, 16)) 60
         (mkView board_3x3_flag (Some (1200, 750))))
      ([], [[MOUSEBUTTONDOWN (10, 10) 1; MOUSEBUTTONDOWN (10, 10) 3;
             MOUSEBUTTONDOWN (110, 110) 1]], [], []) =
    Some (Stopped Blocked,
          ([], [], calls,
           ["INFO:root:click out of board";
            "INFO:root:try to sweep a marked block."]%string)).
Proof. eexists. vm_compute. reflexivity. Qed.

(** The diagnostics of the console: a chord on a cell that shows no
    number, and a chord on a number with too few flags around it, which
    names the neighbours that are still covered. *)
Example scenario_console_log :
  exists out,
    exec terminal_answer 4000 (run_input_io 9 board_3x3_one)
      (["b 1 1"; "b 2 2"; "q"]%string, [], []) =
    Some (Returned board_3x3_one,
          ([], out,
           ["INFO:root:both click only for number blocks";
            "INFO:root:not enough flagged mines around (0, 0)";
            "INFO:root:not enough flagged mines around (0, 1)";
            "INFO:root:not enough flagged mines around (0, 2)";
            "INFO:root:not enough flagged mines around (1, 0)";
            "INFO:root:not enough flagged mines around (1, 2)";
            "INFO:root:not enough flagged mines around (2, 0)";
            "INFO:root:not enough flagged mines around (2, 1)";
            "INFO:root:not enough flagged mines around (2, 2)"]%string)).
Proof. eexists. vm_compute. reflexivity. Qed.
End scenarios.
